(** * id-dss frontend: session store, objectives reconciler, text utilities

    A shallow embedding of the client-side logic of the id-dss frontend:

    - [JS]: the fragment of the JavaScript string library the sources call
      (UTF-16 code-unit strings, [trim], [split], [join], and the
      backtracking regular-expression [replace]);
    - [Text]: [stripMarkdown] from [utils/text.ts];
    - [ObjectivesForm]: [normalizeObjectiveLine], [parseObjectivesText] and
      [joinObjectives] from the course-context view;
    - [Store]: the Pinia session store of [stores/session.ts];
    - [Api]: the file names produced by the export downloads of
      [services/api.ts];
    - [Reconciler]: the dirty-tracking logic of the objective-analysis view
      (draft, last-saved baseline, the store watcher, [persistObjectives]
      and the persistence step of [runAnalysis]).

    - [StoreHistory], [AnalysisView]: sequences of store calls and the
      rest of the objective-analysis view ([runAnalysis], the buttons);
    - [Conservative], [ObjectivesMore]: predicates on texts and lines;
    - [ContextForm], [FormFlow]: the course-context form ([handleSubmit],
      the objective lines and their watcher, bulk paste);
    - [ActivityView], [ActivityProps], [ActivityFlow]: the
      activity-suggestion view ([generateSuggestions] and the buttons of
      an activity);
    - [Navigation]: the sidebar, [startNewSession] and the summary view;
    - [Cname]: the script [scripts/write-cname.mjs].

    The modules whose names end in [Facts] hold the properties proved of
    them. *)

From Stdlib Require Import Strings.String Strings.Ascii Numbers.DecimalString.
From Stdlib Require DecimalPos DecimalZ DecimalFacts.
From Stdlib Require Import List NArith ZArith Bool Lia.
Import ListNotations.

Set Implicit Arguments.

(* ================================================================== *)
(** * The JavaScript string fragment *)
(* ================================================================== *)

Module JS.

(** A JavaScript string is a sequence of UTF-16 code units. *)
Definition char := N.
Definition jsstring := list char.

(** ASCII literals of the sources, as code units. *)
Definition lit (s : string) : jsstring :=
  map N_of_ascii (list_ascii_of_string s).

Definition LF : char := 10%N.
Definition CR : char := 13%N.

(** [a || ''] on a string: the empty string is the only falsy string. *)
Definition or_empty (s : jsstring) : jsstring :=
  match s with [] => [] | _ => s end.

(** [Boolean(s)] on a string. *)
Definition truthy (s : jsstring) : bool :=
  match s with [] => false | _ => true end.

(** ECMAScript LineTerminator: LF, CR, LS, PS. *)
Definition isLineTerminator (c : char) : bool :=
  ((c =? 10) || (c =? 13) || (c =? 8232) || (c =? 8233))%N.

(** ECMAScript WhiteSpace together with LineTerminator: the set stripped
    by [String.prototype.trim] and matched by the class escape [\s]. *)
Definition isSpace (c : char) : bool :=
  ((c =? 9) || (c =? 10) || (c =? 11) || (c =? 12) || (c =? 13) ||
   (c =? 32) || (c =? 160) || (c =? 5760) ||
   ((8192 <=? c) && (c <=? 8202)) ||
   (c =? 8232) || (c =? 8233) || (c =? 8239) || (c =? 8287) ||
   (c =? 12288) || (c =? 65279))%N.

Fixpoint trimStart (s : jsstring) : jsstring :=
  match s with
  | c :: t => if isSpace c then trimStart t else s
  | [] => []
  end.

Definition trimEnd (s : jsstring) : jsstring := rev (trimStart (rev s)).

Definition trim (s : jsstring) : jsstring := trimEnd (trimStart s).

(** Whether a string begins, or ends, with a white-space code unit. *)
Definition startsWithSpace (s : jsstring) : bool :=
  match s with c :: _ => isSpace c | [] => false end.

Definition endsWithSpace (s : jsstring) : bool := startsWithSpace (rev s).

(** [s.split(sep)] for a one-code-unit separator: the empty string splits
    into one empty piece. *)
Fixpoint split (sep : char) (s : jsstring) : list jsstring :=
  match s with
  | [] => [[]]
  | c :: t =>
      if (c =? sep)%N then [] :: split sep t
      else match split sep t with
           | h :: r => (c :: h) :: r
           | [] => [[c]]
           end
  end.

(** [a.join(sep)] for a one-code-unit separator. *)
Fixpoint join (sep : char) (l : list jsstring) : jsstring :=
  match l with
  | [] => []
  | [x] => x
  | x :: r => x ++ sep :: join sep r
  end.

(** ** Regular expressions

    The patterns of the sources only ever quantify a single character
    class, so repetition is over a class; everything else (sequence,
    alternation, capture groups, the [^] and [$] assertions, greedy and
    lazy quantifiers) follows the backtracking matcher of ECMAScript,
    written in continuation-passing style. *)

Inductive regex : Type :=
| Eps
| Cls (p : char -> bool)
| Seq (r1 r2 : regex)
| Alt (r1 r2 : regex)
| Rep (greedy : bool) (lo : nat) (hi : option nat) (p : char -> bool)
| Grp (n : nat) (r : regex)
| Bol
| Eol.

Record pattern : Type := Pattern {
  body : regex;
  flag_g : bool;
  flag_m : bool
}.

Definition captures := list (nat * jsstring).

Definition set_cap (n : nat) (v : jsstring) (cs : captures) : captures :=
  (n, v) :: cs.

(** A group that did not take part in the match expands to the empty
    string in a replacement. *)
Fixpoint get_cap (n : nat) (cs : captures) : jsstring :=
  match cs with
  | [] => []
  | (k, v) :: r => if Nat.eqb k n then v else get_cap n r
  end.

Definition outcome := option (captures * jsstring).

(** A continuation receives the code unit before the current position
    ([None] at the start of the input), the rest of the input and the
    captures so far. *)
Definition cont := option char -> jsstring -> captures -> outcome.

Definition dec_hi (hi : option nat) : option nat :=
  match hi with Some n => Some (pred n) | None => None end.

Definition hi_open (hi : option nat) : bool :=
  match hi with Some O => false | _ => true end.

Fixpoint rep (greedy : bool) (p : char -> bool) (lo : nat) (hi : option nat)
    (pv : option char) (s : jsstring) (cs : captures) (k : cont)
    {struct s} : outcome :=
  match s with
  | c :: t =>
      if hi_open hi && p c then
        if greedy then
          match rep greedy p (pred lo) (dec_hi hi) (Some c) t cs k with
          | Some r => Some r
          | None => match lo with O => k pv s cs | S _ => None end
          end
        else
          match (match lo with O => k pv s cs | S _ => None end) with
          | Some r => Some r
          | None => rep greedy p (pred lo) (dec_hi hi) (Some c) t cs k
          end
      else match lo with O => k pv s cs | S _ => None end
  | [] => match lo with O => k pv s cs | S _ => None end
  end.

Definition at_bol (multiline : bool) (pv : option char) : bool :=
  match pv with
  | None => true
  | Some c => multiline && isLineTerminator c
  end.

Definition at_eol (multiline : bool) (s : jsstring) : bool :=
  match s with
  | [] => true
  | c :: _ => multiline && isLineTerminator c
  end.

Fixpoint run (multiline : bool) (r : regex)
    (pv : option char) (s : jsstring) (cs : captures) (k : cont) : outcome :=
  match r with
  | Eps => k pv s cs
  | Cls p =>
      match s with
      | c :: t => if p c then k (Some c) t cs else None
      | [] => None
      end
  | Seq r1 r2 =>
      run multiline r1 pv s cs
        (fun pv' s' cs' => run multiline r2 pv' s' cs' k)
  | Alt r1 r2 =>
      match run multiline r1 pv s cs k with
      | Some x => Some x
      | None => run multiline r2 pv s cs k
      end
  | Rep g lo hi p => rep g p lo hi pv s cs k
  | Grp n r1 =>
      run multiline r1 pv s cs
        (fun pv' s' cs' =>
           k pv' s' (set_cap n (firstn (length s - length s') s) cs'))
  | Bol => if at_bol multiline pv then k pv s cs else None
  | Eol => if at_eol multiline s then k pv s cs else None
  end.

(** The continuation at the end of a pattern: the match succeeds. *)
Definition finish : cont := fun _ s' cs' => Some (cs', s').

(** One match attempt at the current position: the captures and the
    input left after the match. *)
Definition exec (pat : pattern) (pv : option char) (s : jsstring) : outcome :=
  run (flag_m pat) (body pat) pv s [] finish.

(** A replacement computes the inserted text from the captures and the
    matched text (a replacement string or a callback). *)
Definition replacement := captures -> jsstring -> jsstring.

(** Without the [g] flag only the leftmost match is replaced. *)
Fixpoint replace_first (pat : pattern) (f : replacement)
    (pv : option char) (s : jsstring) : jsstring :=
  match exec pat pv s with
  | Some (cs, s') => f cs (firstn (length s - length s') s) ++ s'
  | None =>
      match s with
      | c :: t => c :: replace_first pat f (Some c) t
      | [] => []
      end
  end.

(** With the [g] flag every match is replaced, scanning left to right;
    [skip] counts the code units of the previous match still to be
    passed over, and an empty match advances by one code unit. *)
Fixpoint replace_all (pat : pattern) (f : replacement) (skip : nat)
    (pv : option char) (s : jsstring) : jsstring :=
  match skip with
  | S n =>
      match s with
      | c :: t => replace_all pat f n (Some c) t
      | [] => []
      end
  | O =>
      match exec pat pv s with
      | Some (cs, s') =>
          let len := length s - length s' in
          f cs (firstn len s) ++
          match s with
          | c :: t =>
              match len with
              | O => c :: replace_all pat f 0 (Some c) t
              | S n => replace_all pat f n (Some c) t
              end
          | [] => []
          end
      | None =>
          match s with
          | c :: t => c :: replace_all pat f 0 (Some c) t
          | [] => []
          end
      end
  end.

(** [s.replace(pat, f)]. *)
Definition replace (pat : pattern) (f : replacement) (s : jsstring) : jsstring :=
  if flag_g pat then replace_all pat f 0 None s
  else replace_first pat f None s.

(** The replacement strings ['$1'] and ['']. *)
Definition group1 : replacement := fun cs _ => get_cap 1 cs.
Definition nothing : replacement := fun _ _ => [].
Definition text (v : jsstring) : replacement := fun _ _ => v.

(** Pattern-building helpers. *)
Definition only (c : char) : char -> bool := N.eqb c.
Definition except (c : char) : char -> bool := fun x => negb (N.eqb c x).
Definition any : char -> bool := fun _ => true.
Definition digit : char -> bool := fun c => ((48 <=? c) && (c <=? 57))%N.
Definition letter : char -> bool :=
  fun c => (((65 <=? c) && (c <=? 90)) || ((97 <=? c) && (c <=? 122)))%N.

Fixpoint chars (s : jsstring) : regex :=
  match s with
  | [] => Eps
  | [c] => Cls (only c)
  | c :: t => Seq (Cls (only c)) (chars t)
  end.

Definition star p := Rep true 0 None p.
Definition lazy_star p := Rep false 0 None p.
Definition plus p := Rep true 1 None p.
Definition opt p := Rep true 0 (Some 1) p.
Definition upto lo hi p := Rep true lo (Some hi) p.

Fixpoint seq (rs : list regex) : regex :=
  match rs with
  | [] => Eps
  | [r] => r
  | r :: t => Seq r (seq t)
  end.

(** The input after its longest prefix of code units in a class. *)
Fixpoint skip (p : char -> bool) (s : jsstring) : jsstring :=
  match s with
  | c :: t => if p c then skip p t else s
  | [] => []
  end.

(** A continuation that does not look at the code unit before the
    current position (nothing after it in the pattern asserts [^]). *)
Definition blind (k : cont) : Prop :=
  forall pv1 pv2 s cs, k pv1 s cs = k pv2 s cs.

(** A continuation that fails wherever the next code unit is in a class. *)
Definition fails_on (p : char -> bool) (k : cont) : Prop :=
  forall pv c t cs, p c = true -> k pv (c :: t) cs = None.

(** [s'] is what is left of [s] after reading some prefix. *)
Definition suffix (s' s : jsstring) : Prop := exists p, s = p ++ s'.

(** Every answer a continuation gives on the suffixes of [s] satisfies [Q]. *)
Definition answers_on (Q : captures * jsstring -> Prop) (s : jsstring)
    (k : cont) : Prop :=
  forall pv' s' cs' x, suffix s' s -> k pv' s' cs' = Some x -> Q x.

End JS.

(* ================================================================== *)
(** * utils/text.ts *)
(* ================================================================== *)

Module Text.
Import JS.

Definition backtick : char := 96%N.
Definition star_c : char := 42%N.
Definition under_c : char := 95%N.
Definition bullet : char := 8226%N.

(** [[-*•]] *)
Definition bulletMark (c : char) : bool :=
  ((c =? 45) || (c =? 42) || (c =? 8226))%N.

(** [[ \t]] *)
Definition blank (c : char) : bool := ((c =? 32) || (c =? 9))%N.

(** [/```[\s\S]*?```/g] *)
Definition reFence : pattern :=
  Pattern (seq [chars (lit "```"); lazy_star any; chars (lit "```")]) true false.

(** [/```[a-zA-Z]*\n?/g] *)
Definition reFenceOpen : pattern :=
  Pattern (seq [chars (lit "```"); star letter; opt (only LF)]) true false.

(** [/```/g] *)
Definition reFenceMark : pattern :=
  Pattern (chars (lit "```")) true false.

(** [/\[([^\]]+)\]\(([^)]+)\)/g] *)
Definition reLink : pattern :=
  Pattern (seq [Cls (only 91%N); Grp 1 (plus (except 93%N)); Cls (only 93%N);
                Cls (only 40%N); Grp 2 (plus (except 41%N)); Cls (only 41%N)])
          true false.

(** [/`([^`]+)`/g] *)
Definition reInlineCode : pattern :=
  Pattern (seq [Cls (only backtick); Grp 1 (plus (except backtick));
                Cls (only backtick)]) true false.

(** [/^\s{0,3}#{1,6}\s+/gm] *)
Definition reHeading : pattern :=
  Pattern (seq [Bol; upto 0 3 isSpace; upto 1 6 (only 35%N); plus isSpace])
          true true.

(** [/^\s{0,3}>\s?/gm] *)
Definition reQuote : pattern :=
  Pattern (seq [Bol; upto 0 3 isSpace; Cls (only 62%N); opt isSpace]) true true.

(** The body [^\s*(?:[-*•]|\d+\.)\s+] shared by the list-marker patterns. *)
Definition listMarker : regex :=
  seq [Bol; star isSpace;
       Alt (Cls bulletMark) (Seq (plus digit) (Cls (only 46%N)));
       plus isSpace].

(** [/^\s*(?:[-*•]|\d+\.)\s+/gm] *)
Definition reListMarker : pattern := Pattern listMarker true true.

(** [/\*\*([^*]+)\*\*/g] *)
Definition reBold : pattern :=
  Pattern (seq [chars (lit "**"); Grp 1 (plus (except star_c)); chars (lit "**")])
          true false.

(** [/__([^_]+)__/g] *)
Definition reBoldUnder : pattern :=
  Pattern (seq [chars (lit "__"); Grp 1 (plus (except under_c)); chars (lit "__")])
          true false.

(** [/\*([^*]+)\*/g] *)
Definition reItalic : pattern :=
  Pattern (seq [Cls (only star_c); Grp 1 (plus (except star_c)); Cls (only star_c)])
          true false.

(** [/_([^_]+)_/g] *)
Definition reItalicUnder : pattern :=
  Pattern (seq [Cls (only under_c); Grp 1 (plus (except under_c)); Cls (only under_c)])
          true false.

(** [/[ \t]+$/gm] *)
Definition reTrailing : pattern :=
  Pattern (seq [plus blank; Eol]) true true.

(** The callback of the code-fence replacement. *)
Definition unfence : replacement :=
  fun _ block => replace reFenceMark nothing (replace reFenceOpen nothing block).

(** The chain of replacements of [stripMarkdown], before the final [trim]. *)
Definition stripped (t : jsstring) : jsstring :=
  let t := replace reFence unfence (or_empty t) in
  let t := replace reLink group1 t in
  let t := replace reInlineCode group1 t in
  let t := replace reHeading nothing t in
  let t := replace reQuote nothing t in
  let t := replace reListMarker nothing t in
  let t := replace reBold group1 t in
  let t := replace reBoldUnder group1 t in
  let t := replace reItalic group1 t in
  let t := replace reItalicUnder group1 t in
  replace reTrailing nothing t.

Definition stripMarkdown (t : jsstring) : jsstring := trim (stripped t).

End Text.

(* ================================================================== *)
(** * The objectives list of the course-context view *)
(* ================================================================== *)

Module ObjectivesForm.
Import JS.

(** [/^\s*(?:[-*•]|\d+\.)\s+/]: no flags, so [^] is the start of the line
    text only and a single marker is removed. *)
Definition reLeadingMarker : pattern := Pattern Text.listMarker false false.

(** [/\r\n/g] *)
Definition reCRLF : pattern := Pattern (chars [CR; LF]) true false.

Definition normalizeObjectiveLine (line : jsstring) : jsstring :=
  trim (replace reLeadingMarker nothing (or_empty line)).

(** The [raw] text of [parseObjectivesText]: line ends unified, trimmed. *)
Definition rawObjectives (t : jsstring) : jsstring :=
  trim (replace reCRLF (text [LF]) (or_empty t)).

Definition parseObjectivesText (t : jsstring) : list jsstring :=
  let raw := rawObjectives t in
  if negb (truthy raw) then []
  else filter truthy (map normalizeObjectiveLine (split LF raw)).

Definition joinObjectives (lines : list jsstring) : jsstring :=
  join LF (filter truthy (map normalizeObjectiveLine lines)).

(** The tail of the marker pattern: [\s+] and the end of the pattern. *)
Definition spacesThenEnd : cont :=
  fun pv s cs => rep true isSpace 1 None pv s cs finish.

(** The leading list marker in words, to compare with the pattern of the
    source: optional white space, then one of [-], [*], [•] or a run of
    digits and a dot, then at least one white space.  The result is what
    follows the marker and its white space, or [None] when the line does
    not start with a marker. *)
Definition afterMarker (line : jsstring) : option jsstring :=
  match trimStart line with
  | c :: t =>
      if Text.bulletMark c then
        if startsWithSpace t then Some (trimStart t) else None
      else if digit c then
        match skip digit t with
        | d :: u =>
            if only 46%N d && startsWithSpace u then Some (trimStart u)
            else None
        | [] => None
        end
      else None
  | [] => None
  end.

(** The line without its leading list marker, if it has one (in words,
    as [afterMarker]). *)
Definition dropMarker (line : jsstring) : jsstring :=
  match afterMarker line with
  | Some rest => rest
  | None => line
  end.

(** A list entry as [parseObjectivesText] delivers it: not empty, no
    white space at either end, no line feed inside. *)
Definition tidy (e : jsstring) : Prop :=
  e <> [] /\ startsWithSpace e = false /\ endsWithSpace e = false /\
  ~ In LF e.

(** An entry that [normalizeObjectiveLine] leaves as it is: no list
    marker followed by white space is left at its start. *)
Definition settled (e : jsstring) : Prop := normalizeObjectiveLine e = e.

(** No carriage return is directly followed by a line feed. *)
Fixpoint crlf_free (s : jsstring) : bool :=
  match s with
  | c :: t =>
      negb (only CR c && match t with d :: _ => only LF d | [] => false end)
      && crlf_free t
  | [] => true
  end.

(** Three objectives as a user may paste them. *)
Definition threeObjectives : jsstring :=
  lit "1. Explain gradient descent" ++ [CR; LF] ++
  lit "- Apply it to a model" ++ [LF; LF] ++
  lit "  * Evaluate the result  ".

End ObjectivesForm.

(* ================================================================== *)
(** * types/index.ts and stores/session.ts *)
(* ================================================================== *)

Module Store.
Import JS.

Record Session : Type := {
  session_id_of : Z;
  session_course_title : jsstring;
  session_level : jsstring;
  session_modality : jsstring;
  session_constraints : option jsstring;
  session_learning_objectives : option jsstring;
  session_created_at : jsstring
}.

Record CourseContextForm : Type := {
  course_title : jsstring;
  level : jsstring;
  modality : jsstring;
  constraints : jsstring;
  learning_objectives : jsstring
}.

Record DesignStep : Type := {
  step_id_of : Z;
  step_session_id : Z;
  phase : jsstring;
  user_input : option jsstring;
  step_created_at : jsstring
}.

Record AIRecommendation : Type := {
  rec_id_of : Z;
  step_id : Z;
  rec_phase : jsstring;
  raw_response : jsstring;
  rec_created_at : jsstring
}.

Inductive ActionType : Type := accept | reject | edit | comment | regenerate.

Record UserAction : Type := {
  action_id_of : Z;
  action_step_id : Z;
  recommendation_id : option Z;
  action_type : ActionType;
  edited_content : option jsstring;
  action_comment : option jsstring;
  action_created_at : jsstring
}.

Record BloomAnalysisItem : Type := {
  objective : jsstring;
  current_level : jsstring;
  domain : jsstring;
  is_measurable : bool;
  suggestion : jsstring
}.

Record ObjectiveAnalysisResponse : Type := {
  overall_assessment : jsstring;
  bloom_analysis : list BloomAnalysisItem;
  alignment_notes : jsstring;
  missing_coverage : list jsstring;
  improved_objectives : list jsstring
}.

Record Adaptations : Type := {
  online : jsstring;
  accessibility : jsstring
}.

Record ActivityItem : Type := {
  title : jsstring;
  activity_type : jsstring;
  description : jsstring;
  objective_alignment : list jsstring;
  duration : jsstring;
  materials_needed : list jsstring;
  instructions : list jsstring;
  assessment_criteria : jsstring;
  adaptations : Adaptations
}.

Inductive DesignPhase : Type :=
| PhaseContext | PhaseObjectiveAnalysis | PhaseActivitySuggestion | PhaseSummary.

(** The refs of the store, in declaration order. *)
Record state : Type := {
  currentSession : option Session;
  sessionId : option Z;
  courseContext : CourseContextForm;
  designSteps : list DesignStep;
  recommendations : list AIRecommendation;
  userActions : list UserAction;
  objectiveAnalysis : option ObjectiveAnalysisResponse;
  activitySuggestions : list ActivityItem;
  isLoading : bool;
  isGenerating : bool;
  currentPhase : DesignPhase
}.

Definition emptyForm : CourseContextForm :=
  {| course_title := []; level := []; modality := [];
     constraints := []; learning_objectives := [] |}.

(** The values the refs are created with. *)
Definition initial : state :=
  {| currentSession := None;
     sessionId := None;
     courseContext := emptyForm;
     designSteps := [];
     recommendations := [];
     userActions := [];
     objectiveAnalysis := None;
     activitySuggestions := [];
     isLoading := false;
     isGenerating := false;
     currentPhase := PhaseContext |}.

(** [===] on strings. *)
Fixpoint str_eqb (a b : jsstring) : bool :=
  match a, b with
  | [], [] => true
  | x :: a', y :: b' => (x =? y)%N && str_eqb a' b'
  | _, _ => false
  end.

(** ** Getters *)

Definition hasActiveSession (st : state) : bool :=
  match sessionId st with Some _ => true | None => false end.

Definition currentStepForPhase (st : state) (p : jsstring) : option DesignStep :=
  find (fun step => str_eqb (phase step) p) (designSteps st).

Definition recommendationsForStep (st : state) (stepId : Z) : list AIRecommendation :=
  filter (fun r => (step_id r =? stepId)%Z) (recommendations st).

(** ** Actions *)

Definition setSession (session : Session) (st : state) : state :=
  {| currentSession := Some session;
     sessionId := Some (session_id_of session);
     courseContext := courseContext st;
     designSteps := designSteps st;
     recommendations := recommendations st;
     userActions := userActions st;
     objectiveAnalysis := objectiveAnalysis st;
     activitySuggestions := activitySuggestions st;
     isLoading := isLoading st;
     isGenerating := isGenerating st;
     currentPhase := currentPhase st |}.

Definition with_courseContext (f : CourseContextForm) (st : state) : state :=
  {| currentSession := currentSession st;
     sessionId := sessionId st;
     courseContext := f;
     designSteps := designSteps st;
     recommendations := recommendations st;
     userActions := userActions st;
     objectiveAnalysis := objectiveAnalysis st;
     activitySuggestions := activitySuggestions st;
     isLoading := isLoading st;
     isGenerating := isGenerating st;
     currentPhase := currentPhase st |}.

(** [{ ...context }]: a fresh object with the five fields of the form. *)
Definition spread (context : CourseContextForm) : CourseContextForm :=
  {| course_title := course_title context;
     level := level context;
     modality := modality context;
     constraints := constraints context;
     learning_objectives := learning_objectives context |}.

Definition setCourseContext (context : CourseContextForm) (st : state) : state :=
  with_courseContext (spread context) st.

Definition updateLearningObjectives (objectives : jsstring) (st : state) : state :=
  let c := courseContext st in
  with_courseContext
    {| course_title := course_title c;
       level := level c;
       modality := modality c;
       constraints := constraints c;
       learning_objectives := objectives |} st.

Definition setCurrentPhase (p : DesignPhase) (st : state) : state :=
  {| currentSession := currentSession st;
     sessionId := sessionId st;
     courseContext := courseContext st;
     designSteps := designSteps st;
     recommendations := recommendations st;
     userActions := userActions st;
     objectiveAnalysis := objectiveAnalysis st;
     activitySuggestions := activitySuggestions st;
     isLoading := isLoading st;
     isGenerating := isGenerating st;
     currentPhase := p |}.

(** [push] appends at the end of the array. *)
Definition addDesignStep (step : DesignStep) (st : state) : state :=
  {| currentSession := currentSession st;
     sessionId := sessionId st;
     courseContext := courseContext st;
     designSteps := designSteps st ++ [step];
     recommendations := recommendations st;
     userActions := userActions st;
     objectiveAnalysis := objectiveAnalysis st;
     activitySuggestions := activitySuggestions st;
     isLoading := isLoading st;
     isGenerating := isGenerating st;
     currentPhase := currentPhase st |}.

Definition addRecommendation (r : AIRecommendation) (st : state) : state :=
  {| currentSession := currentSession st;
     sessionId := sessionId st;
     courseContext := courseContext st;
     designSteps := designSteps st;
     recommendations := recommendations st ++ [r];
     userActions := userActions st;
     objectiveAnalysis := objectiveAnalysis st;
     activitySuggestions := activitySuggestions st;
     isLoading := isLoading st;
     isGenerating := isGenerating st;
     currentPhase := currentPhase st |}.

Definition setObjectiveAnalysis (a : ObjectiveAnalysisResponse) (st : state) : state :=
  {| currentSession := currentSession st;
     sessionId := sessionId st;
     courseContext := courseContext st;
     designSteps := designSteps st;
     recommendations := recommendations st;
     userActions := userActions st;
     objectiveAnalysis := Some a;
     activitySuggestions := activitySuggestions st;
     isLoading := isLoading st;
     isGenerating := isGenerating st;
     currentPhase := currentPhase st |}.

Definition setActivitySuggestions (l : list ActivityItem) (st : state) : state :=
  {| currentSession := currentSession st;
     sessionId := sessionId st;
     courseContext := courseContext st;
     designSteps := designSteps st;
     recommendations := recommendations st;
     userActions := userActions st;
     objectiveAnalysis := objectiveAnalysis st;
     activitySuggestions := l;
     isLoading := isLoading st;
     isGenerating := isGenerating st;
     currentPhase := currentPhase st |}.

Definition addUserAction (a : UserAction) (st : state) : state :=
  {| currentSession := currentSession st;
     sessionId := sessionId st;
     courseContext := courseContext st;
     designSteps := designSteps st;
     recommendations := recommendations st;
     userActions := userActions st ++ [a];
     objectiveAnalysis := objectiveAnalysis st;
     activitySuggestions := activitySuggestions st;
     isLoading := isLoading st;
     isGenerating := isGenerating st;
     currentPhase := currentPhase st |}.

Definition setLoading (b : bool) (st : state) : state :=
  {| currentSession := currentSession st;
     sessionId := sessionId st;
     courseContext := courseContext st;
     designSteps := designSteps st;
     recommendations := recommendations st;
     userActions := userActions st;
     objectiveAnalysis := objectiveAnalysis st;
     activitySuggestions := activitySuggestions st;
     isLoading := b;
     isGenerating := isGenerating st;
     currentPhase := currentPhase st |}.

Definition setGenerating (b : bool) (st : state) : state :=
  {| currentSession := currentSession st;
     sessionId := sessionId st;
     courseContext := courseContext st;
     designSteps := designSteps st;
     recommendations := recommendations st;
     userActions := userActions st;
     objectiveAnalysis := objectiveAnalysis st;
     activitySuggestions := activitySuggestions st;
     isLoading := isLoading st;
     isGenerating := b;
     currentPhase := currentPhase st |}.

(** Every ref is assigned, none is read. *)
Definition resetSession (st : state) : state :=
  {| currentSession := None;
     sessionId := None;
     courseContext :=
       {| course_title := []; level := []; modality := [];
          constraints := []; learning_objectives := [] |};
     designSteps := [];
     recommendations := [];
     userActions := [];
     objectiveAnalysis := None;
     activitySuggestions := [];
     isLoading := false;
     isGenerating := false;
     currentPhase := PhaseContext |}.

(** The actions of the store as a datatype, to speak of call sequences. *)
Inductive action : Type :=
| SetSession (s : Session)
| SetCourseContext (f : CourseContextForm)
| UpdateLearningObjectives (x : jsstring)
| SetCurrentPhase (p : DesignPhase)
| AddDesignStep (s : DesignStep)
| AddRecommendation (r : AIRecommendation)
| SetObjectiveAnalysis (a : ObjectiveAnalysisResponse)
| SetActivitySuggestions (l : list ActivityItem)
| AddUserAction (a : UserAction)
| SetLoading (b : bool)
| SetGenerating (b : bool)
| ResetSession.

Definition perform (a : action) (st : state) : state :=
  match a with
  | SetSession s => setSession s st
  | SetCourseContext f => setCourseContext f st
  | UpdateLearningObjectives x => updateLearningObjectives x st
  | SetCurrentPhase p => setCurrentPhase p st
  | AddDesignStep s => addDesignStep s st
  | AddRecommendation r => addRecommendation r st
  | SetObjectiveAnalysis a => setObjectiveAnalysis a st
  | SetActivitySuggestions l => setActivitySuggestions l st
  | AddUserAction a => addUserAction a st
  | SetLoading b => setLoading b st
  | SetGenerating b => setGenerating b st
  | ResetSession => resetSession st
  end.

(** The store after a sequence of calls, oldest first. *)
Definition run_actions (l : list action) (st : state) : state :=
  fold_left (fun s a => perform a s) l st.

End Store.

(* ================================================================== *)
(** * services/api.ts: replies and export downloads *)
(* ================================================================== *)

Module Api.
Import JS.

(** How an awaited request settles: the promise rejects (an axios error,
    possibly carrying the [detail] of the response body) or resolves. *)
Inductive reply (A : Type) : Type :=
| Rejected (detail : option jsstring)
| Resolved (a : A).

Arguments Rejected {A} detail.
Arguments Resolved {A} a.

(** The [LLMResponse] envelope, its [data] already cast by the caller. *)
Record LLMResponse (D : Type) : Type := {
  success : bool;
  llm_step_id : Z;
  llm_recommendation_id : Z;
  data : D
}.

(** The UTC calendar fields of a time value, as [toISOString] reads them
    ([utcMonth] counts from 0). *)
Record Date : Type := {
  utcFullYear : Z;
  utcMonth : N;
  utcDate : N;
  utcHours : N;
  utcMinutes : N;
  utcSeconds : N;
  utcMilliseconds : N
}.

Definition digits (n : N) : jsstring :=
  lit (NilZero.string_of_uint (N.to_uint n)).

Definition pad (w : nat) (s : jsstring) : jsstring :=
  repeat 48%N (w - length s) ++ s.

(** Four digits for the years 0 to 9999, a sign and six digits otherwise. *)
Definition yearString (y : Z) : jsstring :=
  if ((0 <=? y) && (y <=? 9999))%Z then pad 4 (digits (Z.to_N y))
  else (if (y <? 0)%Z then lit "-" else lit "+") ++ pad 6 (digits (Z.abs_N y)).

Definition dateString (d : Date) : jsstring :=
  yearString (utcFullYear d) ++ lit "-" ++
  pad 2 (digits (utcMonth d + 1)) ++ lit "-" ++
  pad 2 (digits (utcDate d)).

Definition toISOString (d : Date) : jsstring :=
  dateString d ++ lit "T" ++
  pad 2 (digits (utcHours d)) ++ lit ":" ++
  pad 2 (digits (utcMinutes d)) ++ lit ":" ++
  pad 2 (digits (utcSeconds d)) ++ lit "." ++
  pad 3 (digits (utcMilliseconds d)) ++ lit "Z".

(** A calendar date whose year [toISOString] prints with four digits. *)
Definition fourDigitYear (d : Date) : Prop :=
  (0 <= utcFullYear d <= 9999)%Z /\ (utcMonth d <= 11)%N /\
  (1 <= utcDate d <= 31)%N.

(** The shape [YYYY-MM-DD]: digits separated by hyphens. *)
Definition isYMD (s : jsstring) : bool :=
  match s with
  | [y1; y2; y3; y4; h1; m1; m2; h2; d1; d2] =>
      digit y1 && digit y2 && digit y3 && digit y4 && (h1 =? 45)%N &&
      digit m1 && digit m2 && (h2 =? 45)%N && digit d1 && digit d2
  | _ => false
  end.

(** The integers a JavaScript number holds exactly and prints digit for
    digit: [Number.MIN_SAFE_INTEGER] to [Number.MAX_SAFE_INTEGER]. *)
Definition safeInteger (n : Z) : Prop :=
  (- 9007199254740991 <= n <= 9007199254740991)%Z.

(** [`${n}`] for a safe integer: its decimal numeral.  (Beyond that
    range a number is printed with the fewest digits that identify it,
    and from [1e21] on in exponent notation; what is proved of a
    printed id is stated for safe integers.) *)
Definition numberToString (n : Z) : jsstring :=
  lit (NilZero.string_of_int (Z.to_int n)).

(** The number a string of decimal digits denotes, read from the left
    onto [acc]; none when a code unit is no digit. *)
Fixpoint digitsValue (acc : Z) (s : jsstring) : option Z :=
  match s with
  | [] => Some acc
  | c :: r =>
      if digit c then digitsValue (10 * acc + (Z.of_N c - 48)) r else None
  end.

(** The integer a decimal numeral denotes: [0], or digits that do not
    start with [0], with a minus sign before them for a negative
    number.  Any other string denotes none, so a numeral is determined
    by the integer it denotes. *)
Definition numeralValue (s : jsstring) : option Z :=
  match s with
  | [] => None
  | c :: r =>
      if (c =? 45)%N then
        match r with
        | d :: _ =>
            if (d =? 48)%N then None else option_map Z.opp (digitsValue 0 r)
        | [] => None
        end
      else if (c =? 48)%N then
        match r with [] => Some 0%Z | _ :: _ => None end
      else digitsValue 0 s
  end.

(** [a[0]] of a split result. *)
Definition first_piece (l : list jsstring) : jsstring :=
  match l with x :: _ => x | [] => [] end.

(** What the anchor element saves when clicked. *)
Record download : Type := {
  mime : jsstring;
  file_name : jsstring;
  content : list N
}.

Definition downloadSessionExportDocx (sessionId : Z) (now : Date)
    (response : reply (list N)) : option download :=
  match response with
  | Rejected _ => None
  | Resolved blob =>
      Some {| mime := lit "application/vnd.openxmlformats-officedocument.wordprocessingml.document";
              file_name :=
                lit "id-dss-session-" ++ numberToString sessionId ++ lit "-" ++
                first_piece (split 84%N (toISOString now)) ++ lit ".docx";
              content := blob |}
  end.

Definition downloadSessionExportPdf (sessionId : Z) (now : Date)
    (response : reply (list N)) : option download :=
  match response with
  | Rejected _ => None
  | Resolved blob =>
      Some {| mime := lit "application/pdf";
              file_name :=
                lit "id-dss-session-" ++ numberToString sessionId ++ lit "-" ++
                first_piece (split 84%N (toISOString now)) ++ lit ".pdf";
              content := blob |}
  end.

(** A string of decimal digits. *)
Definition allDigits (s : jsstring) : Prop := Forall (fun c => digit c = true) s.

(** A moment late on 9 March 2024, for examples. *)
Definition someDay : Date :=
  {| utcFullYear := 2024; utcMonth := 2; utcDate := 9; utcHours := 23;
     utcMinutes := 5; utcSeconds := 0; utcMilliseconds := 7 |}.

(** The first moment of the year 10000. *)
Definition newYear10000 : Date :=
  {| utcFullYear := 10000; utcMonth := 0; utcDate := 1; utcHours := 0;
     utcMinutes := 0; utcSeconds := 0; utcMilliseconds := 0 |}.

End Api.

(* ================================================================== *)
(** * The dirty-tracking reconciler of the objective-analysis view *)
(* ================================================================== *)

Module Reconciler.
Import JS Store Api.

(** The refs of the view that its script reads and writes (the LLM status
    and the textarea element play no part in the reconciliation). *)
Record view : Type := {
  isAnalyzing : bool;
  analysisResult : option ObjectiveAnalysisResponse;
  stepId : option Z;
  recommendationId : option Z;
  errorMessage : jsstring;
  objectivesDraft : jsstring;
  lastSavedObjectives : jsstring;
  hasSavedBaseline : bool;
  successMessage : jsstring;
  isSaving : bool;
  store : Store.state
}.

Definition set_isAnalyzing (b : bool) (v : view) : view :=
  {| isAnalyzing := b; analysisResult := analysisResult v; stepId := stepId v;
     recommendationId := recommendationId v; errorMessage := errorMessage v;
     objectivesDraft := objectivesDraft v;
     lastSavedObjectives := lastSavedObjectives v;
     hasSavedBaseline := hasSavedBaseline v;
     successMessage := successMessage v; isSaving := isSaving v;
     store := store v |}.

Definition set_analysis (r : LLMResponse ObjectiveAnalysisResponse) (v : view) : view :=
  {| isAnalyzing := isAnalyzing v; analysisResult := Some (data r);
     stepId := Some (llm_step_id r);
     recommendationId := Some (llm_recommendation_id r);
     errorMessage := errorMessage v;
     objectivesDraft := objectivesDraft v;
     lastSavedObjectives := lastSavedObjectives v;
     hasSavedBaseline := hasSavedBaseline v;
     successMessage := successMessage v; isSaving := isSaving v;
     store := store v |}.

Definition set_errorMessage (m : jsstring) (v : view) : view :=
  {| isAnalyzing := isAnalyzing v; analysisResult := analysisResult v;
     stepId := stepId v; recommendationId := recommendationId v;
     errorMessage := m;
     objectivesDraft := objectivesDraft v;
     lastSavedObjectives := lastSavedObjectives v;
     hasSavedBaseline := hasSavedBaseline v;
     successMessage := successMessage v; isSaving := isSaving v;
     store := store v |}.

Definition set_objectivesDraft (d : jsstring) (v : view) : view :=
  {| isAnalyzing := isAnalyzing v; analysisResult := analysisResult v;
     stepId := stepId v; recommendationId := recommendationId v;
     errorMessage := errorMessage v;
     objectivesDraft := d;
     lastSavedObjectives := lastSavedObjectives v;
     hasSavedBaseline := hasSavedBaseline v;
     successMessage := successMessage v; isSaving := isSaving v;
     store := store v |}.

Definition set_lastSavedObjectives (b : jsstring) (v : view) : view :=
  {| isAnalyzing := isAnalyzing v; analysisResult := analysisResult v;
     stepId := stepId v; recommendationId := recommendationId v;
     errorMessage := errorMessage v;
     objectivesDraft := objectivesDraft v;
     lastSavedObjectives := b;
     hasSavedBaseline := hasSavedBaseline v;
     successMessage := successMessage v; isSaving := isSaving v;
     store := store v |}.

Definition set_hasSavedBaseline (b : bool) (v : view) : view :=
  {| isAnalyzing := isAnalyzing v; analysisResult := analysisResult v;
     stepId := stepId v; recommendationId := recommendationId v;
     errorMessage := errorMessage v;
     objectivesDraft := objectivesDraft v;
     lastSavedObjectives := lastSavedObjectives v;
     hasSavedBaseline := b;
     successMessage := successMessage v; isSaving := isSaving v;
     store := store v |}.

Definition set_successMessage (m : jsstring) (v : view) : view :=
  {| isAnalyzing := isAnalyzing v; analysisResult := analysisResult v;
     stepId := stepId v; recommendationId := recommendationId v;
     errorMessage := errorMessage v;
     objectivesDraft := objectivesDraft v;
     lastSavedObjectives := lastSavedObjectives v;
     hasSavedBaseline := hasSavedBaseline v;
     successMessage := m; isSaving := isSaving v;
     store := store v |}.

Definition set_isSaving (b : bool) (v : view) : view :=
  {| isAnalyzing := isAnalyzing v; analysisResult := analysisResult v;
     stepId := stepId v; recommendationId := recommendationId v;
     errorMessage := errorMessage v;
     objectivesDraft := objectivesDraft v;
     lastSavedObjectives := lastSavedObjectives v;
     hasSavedBaseline := hasSavedBaseline v;
     successMessage := successMessage v; isSaving := b;
     store := store v |}.

Definition set_store (s : Store.state) (v : view) : view :=
  {| isAnalyzing := isAnalyzing v; analysisResult := analysisResult v;
     stepId := stepId v; recommendationId := recommendationId v;
     errorMessage := errorMessage v;
     objectivesDraft := objectivesDraft v;
     lastSavedObjectives := lastSavedObjectives v;
     hasSavedBaseline := hasSavedBaseline v;
     successMessage := successMessage v; isSaving := isSaving v;
     store := s |}.

(** Truthiness of a [number | null]: neither [null] nor [0]. *)
Definition truthy_num (n : option Z) : bool :=
  match n with
  | Some z => negb (z =? 0)%Z
  | None => false
  end.

(** [a ?? b] *)
Definition nullish (a : option jsstring) (b : jsstring) : jsstring :=
  match a with Some x => x | None => b end.

Definition isDirty (v : view) : bool :=
  negb (str_eqb (or_empty (objectivesDraft v)) (or_empty (lastSavedObjectives v))).

(** The callback of the watcher on
    [sessionStore.courseContext.learning_objectives]. *)
Definition onStoreObjectives (val : jsstring) (v : view) : view :=
  let next := or_empty val in
  if negb (hasSavedBaseline v) then
    set_hasSavedBaseline true
      (set_lastSavedObjectives next (set_objectivesDraft next v))
  else if negb (isDirty v) then set_objectivesDraft next v
  else v.

Definition watched (s : Store.state) : jsstring :=
  learning_objectives (courseContext s).

(** A mutation of the store as the view sees it: the watcher runs when
    the watched value has changed, before any pending request settles. *)
Definition storeWrite (f : Store.state -> Store.state) (v : view) : view :=
  let s' := f (store v) in
  let v' := set_store s' v in
  if str_eqb (watched (store v)) (watched s') then v'
  else onStoreObjectives (watched s') v'.

(** The view right after setup over a store: the refs at their initial
    values and the watcher run once ([immediate: true]). *)
Definition mount (s : Store.state) : view :=
  onStoreObjectives (watched s)
    {| isAnalyzing := false; analysisResult := None; stepId := None;
       recommendationId := None; errorMessage := [];
       objectivesDraft := []; lastSavedObjectives := [];
       hasSavedBaseline := false; successMessage := []; isSaving := false;
       store := s |}.

(** How an async function of the view completes. *)
Inductive completion : Type := Returned | Threw.

(** [persistObjectives(updated, actionComment)], given how the
    [updateSession] and [createAction] requests settle.  A rejected
    [createAction] is caught and only logged. *)
Definition persistObjectives (updated actionComment : jsstring)
    (upd : reply Session) (act : reply UserAction) (v : view)
    : view * completion :=
  let v1 := storeWrite (updateLearningObjectives updated) v in
  if truthy_num (sessionId (store v1)) then
    match upd with
    | Rejected _ => (v1, Threw)
    | Resolved session =>
        let v2 :=
          set_lastSavedObjectives
            (nullish (session_learning_objectives session) updated) v1 in
        if truthy_num (stepId v2) then
          match act with
          | Resolved _ => (v2, Returned)
          | Rejected _ => (v2, Returned)
          end
        else (v2, Returned)
    end
  else
    if truthy_num (stepId v1) then
      match act with
      | Resolved _ => (v1, Returned)
      | Rejected _ => (v1, Returned)
      end
    else (v1, Returned).

Definition saveObjectives (upd : reply Session) (act : reply UserAction)
    (v : view) : view :=
  if negb (truthy_num (sessionId (store v))) then v
  else
    let v := set_successMessage [] (set_errorMessage [] (set_isSaving true v)) in
    let updated := objectivesDraft v in
    match persistObjectives updated (lit "Saved objectives edits") upd act v with
    | (v', Returned) => set_isSaving false (set_successMessage (lit "Saved.") v')
    | (v', Threw) =>
        set_isSaving false
          (set_errorMessage (lit "Save failed. Please try again.") v')
    end.

(** The persistence step inside [runAnalysis]: the store is updated, the
    session is patched, and a rejection is caught and only logged. *)
Definition persistBeforeAnalysis (upd : reply Session) (v : view) : view :=
  let v1 := storeWrite (updateLearningObjectives (objectivesDraft v)) v in
  match upd with
  | Resolved _ => set_lastSavedObjectives (objectivesDraft v1) v1
  | Rejected _ => v1
  end.

Definition analysisFailed : jsstring := lit "Analysis failed. Please try again.".

Definition runAnalysis (upd : reply Session)
    (ana : reply (LLMResponse ObjectiveAnalysisResponse)) (now : jsstring)
    (v : view) : view :=
  match sessionId (store v) with
  | None => v
  | Some sid =>
      if (sid =? 0)%Z then v
      else
        let v := set_successMessage [] (set_errorMessage [] (set_isAnalyzing true v)) in
        let v := persistBeforeAnalysis upd v in
        let v :=
          match ana with
          | Resolved result =>
              let v := set_analysis result v in
              storeWrite
                (addDesignStep
                   {| step_id_of := llm_step_id result;
                      step_session_id := sid;
                      phase := lit "objective-analysis";
                      user_input := Some (objectivesDraft v);
                      step_created_at := now |}) v
          | Rejected detail =>
              set_errorMessage
                (match detail with
                 | Some d => if truthy d then d else analysisFailed
                 | None => analysisFailed
                 end) v
          end in
        set_isAnalyzing false v
  end.

Definition getImprovedObjectivesText (v : view) : jsstring :=
  match analysisResult v with
  | Some a =>
      match improved_objectives a with
      | [] => []
      | l => join LF l
      end
  | None => []
  end.

Definition insertImprovedObjectives (upd : reply Session)
    (act : reply UserAction) (v : view) : view :=
  let improvedRaw := getImprovedObjectivesText v in
  if negb (truthy improvedRaw) then v
  else
    let improved := Text.stripMarkdown improvedRaw in
    let base := trim (objectivesDraft v) in
    let updated := if truthy base then base ++ [LF; LF] ++ improved else improved in
    let v := set_objectivesDraft updated v in
    let v := set_successMessage
               (lit "Inserted improved objectives below your original text.") v in
    fst (persistObjectives updated
           (lit "Inserted suggested improved objectives (cleaned markdown)")
           upd act v).

Definition replaceWithImprovedObjectives (upd : reply Session)
    (act : reply UserAction) (v : view) : view :=
  let improvedRaw := getImprovedObjectivesText v in
  if negb (truthy improvedRaw) then v
  else
    let updated := Text.stripMarkdown improvedRaw in
    let v := set_objectivesDraft updated v in
    let v := set_successMessage
               (lit "Applied improved objectives. You can edit further and re-run analysis.") v in
    fst (persistObjectives updated
           (lit "Replaced objectives with suggested improved objectives (cleaned markdown)")
           upd act v).

(** What can happen to a mounted view: the user types in the textarea,
    some other code mutates the store, or one of the handlers runs with
    given replies of the service. *)
Inductive event : Type :=
| Typed (t : jsstring)
| StoreAction (a : Store.action)
| Save (upd : reply Session) (act : reply UserAction)
| Analyse (upd : reply Session)
    (ana : reply (LLMResponse ObjectiveAnalysisResponse)) (now : jsstring)
| InsertImproved (upd : reply Session) (act : reply UserAction)
| ReplaceImproved (upd : reply Session) (act : reply UserAction).

Definition handle (e : event) (v : view) : view :=
  match e with
  | Typed t => set_objectivesDraft t v
  | StoreAction a => storeWrite (Store.perform a) v
  | Save upd act => saveObjectives upd act v
  | Analyse upd ana now => runAnalysis upd ana now v
  | InsertImproved upd act => insertImprovedObjectives upd act v
  | ReplaceImproved upd act => replaceWithImprovedObjectives upd act v
  end.

Definition after (evs : list event) (s : Store.state) : view :=
  fold_left (fun v e => handle e v) evs (mount s).

(** The states a mounted view can be in. *)
Definition reachable (v : view) : Prop :=
  exists s evs, v = after evs s.

(** The watcher has run at least once. *)
Definition hydrated (v : view) : Prop := hasSavedBaseline v = true.

(** ** Sample data *)

Definition session7 : Session :=
  {| session_id_of := 7;
     session_course_title := lit "Intro to ML";
     session_level := lit "undergraduate";
     session_modality := lit "online";
     session_constraints := None;
     session_learning_objectives := None;
     session_created_at := lit "2024-03-09T23:05:00.007Z" |}.

(** A store with an active session, and the view mounted over it after
    the user has typed a draft. *)
Definition store7 : Store.state := setSession session7 initial.
Definition typed_abc : view := after [Typed (lit "abc")] store7.

Definition someAction : UserAction :=
  {| action_id_of := 1; action_step_id := 3; recommendation_id := None;
     action_type := edit; edited_content := Some (lit "abc");
     action_comment := None; action_created_at := lit "2024-03-09T23:05:01.000Z" |}.

(** The server stored the text in upper case. *)
Definition session7_upper : Session :=
  {| session_id_of := 7;
     session_course_title := lit "Intro to ML";
     session_level := lit "undergraduate";
     session_modality := lit "online";
     session_constraints := None;
     session_learning_objectives := Some (lit "ABC");
     session_created_at := lit "2024-03-09T23:05:00.007Z" |}.

End Reconciler.

(* ================================================================== *)
(** * Histories of the session store *)
(* ================================================================== *)

Module StoreHistory.
Import JS Store.

Definition isReset (a : action) : bool :=
  match a with ResetSession => true | _ => false end.

(** A call sequence without [resetSession]. *)
Definition resetFree (l : list action) : Prop :=
  forallb (fun a => negb (isReset a)) l = true.

(** [l'] is [l] with entries added at the end. *)
Definition extends {A : Type} (l' l : list A) : Prop :=
  exists more, l' = l ++ more.

(** Two runs of the objective analysis, for examples. *)
Definition step1 : DesignStep :=
  {| step_id_of := 1; step_session_id := 7; phase := lit "objective-analysis";
     user_input := Some (lit "Explain gradient descent");
     step_created_at := lit "2024-03-09T23:05:00.007Z" |}.

Definition step2 : DesignStep :=
  {| step_id_of := 2; step_session_id := 7; phase := lit "objective-analysis";
     user_input := Some (lit "Explain and apply gradient descent");
     step_created_at := lit "2024-03-09T23:08:00.007Z" |}.

End StoreHistory.

(* ================================================================== *)
(** * More of the objective-analysis view *)
(* ================================================================== *)

Module AnalysisView.
Import JS Store Api Reconciler.

(** [hasObjectives]: the draft holds more than white space. *)
Definition hasObjectives (v : view) : bool :=
  negb (Nat.eqb (length (trim (objectivesDraft v))) 0).

(** The design step [runAnalysis] records for a resolved analysis. *)
Definition analysisStep (r : LLMResponse ObjectiveAnalysisResponse)
    (sid : Z) (draft now : jsstring) : DesignStep :=
  {| step_id_of := llm_step_id r;
     step_session_id := sid;
     phase := lit "objective-analysis";
     user_input := Some draft;
     step_created_at := now |}.

(** The message [runAnalysis] shows for a rejected analysis. *)
Definition analysisError (detail : option jsstring) : jsstring :=
  match detail with
  | Some d => if truthy d then d else analysisFailed
  | None => analysisFailed
  end.

(** ** Sample data *)

Definition analysis1 : ObjectiveAnalysisResponse :=
  {| overall_assessment := lit "Clear but narrow.";
     bloom_analysis := [];
     alignment_notes := [];
     missing_coverage := [];
     improved_objectives :=
       [lit "**Explain** gradient descent"; lit "- Apply it to a model"] |}.

Definition reply1 : LLMResponse ObjectiveAnalysisResponse :=
  {| success := true; llm_step_id := 3; llm_recommendation_id := 4;
     data := analysis1 |}.

(** The view of [typed_abc] after an analysis that the server answered,
    the objectives having been saved first. *)
Definition analysed_abc : view :=
  handle (Analyse (Resolved session7) (Resolved reply1)
            (lit "2024-03-09T23:06:00.000Z")) typed_abc.

End AnalysisView.

(* ================================================================== *)
(** * What a replacement can put into a string *)
(* ================================================================== *)

Module Conservative.
Import JS.

(** [a] is what is left of [b] when some of its code units are deleted:
    the code units of [a] are code units of [b], in the same order. *)
Inductive subseq : jsstring -> jsstring -> Prop :=
| subseq_nil : subseq [] []
| subseq_keep c a b : subseq a b -> subseq (c :: a) (c :: b)
| subseq_drop c a b : subseq a b -> subseq a (c :: b).

(** Every captured text is a piece of what was read of [s0] before [s]. *)
Definition capsWithin (s0 s : jsstring) (cs : captures) : Prop :=
  forall n, exists a b, s0 = a ++ get_cap n cs ++ b ++ s.

(** Every answer a continuation gives on a suffix of [s], with captures
    that are pieces of what was read of [s0], satisfies [Q]. *)
Definition hands_within (s0 : jsstring) (Q : captures * jsstring -> Prop)
    (s : jsstring) (k : cont) : Prop :=
  forall pv' s' cs' x,
    suffix s' s -> capsWithin s0 s' cs' -> k pv' s' cs' = Some x -> Q x.

(** A replacement that puts in place of a match what is left of the
    match after deletions, whenever the captures are pieces of it. *)
Definition local (f : replacement) : Prop :=
  forall cs m,
    (forall n, exists a b, m = a ++ get_cap n cs ++ b) -> subseq (f cs m) m.

(** Every match of [r] reads at least one code unit of the class [q]. *)
Inductive needs (q : char -> bool) : regex -> Prop :=
| needs_cls p : (forall c, p c = true -> q c = true) -> needs q (Cls p)
| needs_seq_l r1 r2 : needs q r1 -> needs q (Seq r1 r2)
| needs_seq_r r1 r2 : needs q r2 -> needs q (Seq r1 r2)
| needs_alt r1 r2 : needs q r1 -> needs q r2 -> needs q (Alt r1 r2)
| needs_rep g lo hi p :
    (forall c, p c = true -> q c = true) -> needs q (Rep g (S lo) hi p)
| needs_grp n r : needs q r -> needs q (Grp n r).

(** No code unit of [s] is in the class [q]. *)
Definition free_of (q : char -> bool) (s : jsstring) : Prop :=
  forall c, In c s -> q c = false.

(** The characters the patterns of [stripMarkdown] start from: back
    tick, opening bracket, hash, greater-than, hyphen, asterisk, bullet
    and underscore. *)
Definition markup (c : char) : bool :=
  ((c =? 96) || (c =? 91) || (c =? 35) || (c =? 62) || (c =? 45) ||
   (c =? 42) || (c =? 8226) || (c =? 95))%N.

Definition markupOrDigit (c : char) : bool := markup c || digit c.
Definition markupOrDot (c : char) : bool := markup c || only 46%N c.

(** A string of white space only. *)
Definition allSpaces (s : jsstring) : Prop :=
  Forall (fun c => isSpace c = true) s.

End Conservative.

(* ================================================================== *)
(** * More about the objectives list *)
(* ================================================================== *)

Module ObjectivesMore.
Import JS ObjectivesForm.

(** The lines [joinObjectives] joins: each one normalised, the empty
    ones dropped. *)
Definition cleanLines (lines : list jsstring) : list jsstring :=
  filter truthy (map normalizeObjectiveLine lines).

(** Not empty and without white space at either end. *)
Definition trimmed (e : jsstring) : Prop :=
  e <> [] /\ startsWithSpace e = false /\ endsWithSpace e = false.

Definition allDigitChars (s : jsstring) : Prop :=
  Forall (fun c => digit c = true) s.

End ObjectivesMore.

(* ================================================================== *)
(** * The course-context form *)
(* ================================================================== *)

Module ContextForm.
Import JS Store Api ObjectivesForm.

(** The reactive state of the form view, the store it writes to, and the
    path it last pushed to the router. *)
Record formView : Type := {
  form : CourseContextForm;
  objectivesLines : list jsstring;
  showBulkPaste : bool;
  bulkObjectivesText : jsstring;
  isSubmitting : bool;
  errorMessage : jsstring;
  store : Store.state;
  pushed : option jsstring
}.

Definition with_form (f : CourseContextForm) (v : formView) : formView :=
  {| form := f; objectivesLines := objectivesLines v;
     showBulkPaste := showBulkPaste v;
     bulkObjectivesText := bulkObjectivesText v;
     isSubmitting := isSubmitting v; errorMessage := errorMessage v;
     store := store v; pushed := pushed v |}.

Definition with_lines (l : list jsstring) (v : formView) : formView :=
  {| form := form v; objectivesLines := l;
     showBulkPaste := showBulkPaste v;
     bulkObjectivesText := bulkObjectivesText v;
     isSubmitting := isSubmitting v; errorMessage := errorMessage v;
     store := store v; pushed := pushed v |}.

Definition with_bulk (show : bool) (t : jsstring) (v : formView) : formView :=
  {| form := form v; objectivesLines := objectivesLines v;
     showBulkPaste := show; bulkObjectivesText := t;
     isSubmitting := isSubmitting v; errorMessage := errorMessage v;
     store := store v; pushed := pushed v |}.

Definition with_submitting (b : bool) (v : formView) : formView :=
  {| form := form v; objectivesLines := objectivesLines v;
     showBulkPaste := showBulkPaste v;
     bulkObjectivesText := bulkObjectivesText v;
     isSubmitting := b; errorMessage := errorMessage v;
     store := store v; pushed := pushed v |}.

Definition with_error (m : jsstring) (v : formView) : formView :=
  {| form := form v; objectivesLines := objectivesLines v;
     showBulkPaste := showBulkPaste v;
     bulkObjectivesText := bulkObjectivesText v;
     isSubmitting := isSubmitting v; errorMessage := m;
     store := store v; pushed := pushed v |}.

Definition with_store (s : Store.state) (v : formView) : formView :=
  {| form := form v; objectivesLines := objectivesLines v;
     showBulkPaste := showBulkPaste v;
     bulkObjectivesText := bulkObjectivesText v;
     isSubmitting := isSubmitting v; errorMessage := errorMessage v;
     store := s; pushed := pushed v |}.

Definition with_pushed (p : jsstring) (v : formView) : formView :=
  {| form := form v; objectivesLines := objectivesLines v;
     showBulkPaste := showBulkPaste v;
     bulkObjectivesText := bulkObjectivesText v;
     isSubmitting := isSubmitting v; errorMessage := errorMessage v;
     store := store v; pushed := Some p |}.

Definition set_objectives (x : jsstring) (f : CourseContextForm) : CourseContextForm :=
  {| course_title := course_title f; level := level f;
     modality := modality f; constraints := constraints f;
     learning_objectives := x |}.

(** The watcher on [objectivesLines]: after the list is replaced or
    changed in place, the form text is rebuilt from it. *)
Definition linesChanged (l : list jsstring) (v : formView) : formView :=
  with_form (set_objectives (joinObjectives l) (form v)) (with_lines l v).

Definition hasExistingSession (s : Store.state) : bool :=
  hasActiveSession s && Reconciler.truthy_num (sessionId s).

(** The view after setup and [onMounted] over a store. *)
Definition mountForm (s : Store.state) : formView :=
  let f := if hasExistingSession s then spread (courseContext s) else emptyForm in
  linesChanged (parseObjectivesText (or_empty (learning_objectives f)))
    {| form := f; objectivesLines := []; showBulkPaste := false;
       bulkObjectivesText := []; isSubmitting := false; errorMessage := [];
       store := s; pushed := None |}.

Definition addObjectiveLine (v : formView) : formView :=
  linesChanged (objectivesLines v ++ [[]]) v.

(** [splice(idx, 1)] for an index of the rendered list: past the end
    nothing is removed and nothing changes. *)
Definition removeObjectiveLine (idx : nat) (v : formView) : formView :=
  if Nat.ltb idx (length (objectivesLines v)) then
    linesChanged (firstn idx (objectivesLines v) ++
                  skipn (S idx) (objectivesLines v)) v
  else v.

(** The input bound to [objectivesLines[idx]], for a rendered index. *)
Definition editObjectiveLine (idx : nat) (t : jsstring) (v : formView) : formView :=
  match nth_error (objectivesLines v) idx with
  | Some old =>
      if str_eqb old t then v
      else linesChanged (firstn idx (objectivesLines v) ++ t ::
                         skipn (S idx) (objectivesLines v)) v
  | None => v
  end.

Definition applyBulkPaste (v : formView) : formView :=
  match parseObjectivesText (bulkObjectivesText v) with
  | [] => v
  | lines => linesChanged (objectivesLines v ++ lines) (with_bulk false [] v)
  end.

(** The body of the create and update requests. *)
Record SessionCreate : Type := {
  new_course_title : jsstring;
  new_level : jsstring;
  new_modality : jsstring;
  new_constraints : option jsstring;
  new_learning_objectives : option jsstring
}.

Inductive request : Type :=
| PostSession (body : SessionCreate)
| PatchSession (id : Z) (body : SessionCreate).

(** [s || undefined] *)
Definition or_undefined (s : jsstring) : option jsstring :=
  if truthy s then Some s else None.

Definition payload (f : CourseContextForm) : SessionCreate :=
  {| new_course_title := course_title f;
     new_level := level f;
     new_modality := modality f;
     new_constraints := or_undefined (constraints f);
     new_learning_objectives := or_undefined (learning_objectives f) |}.

Definition fillRequired : jsstring := lit "Please fill in all required fields.".
Definition createFailed : jsstring := lit "Failed to create session. Please try again.".

(** The request [handleSubmit] issues, if it gets that far. *)
Definition submitRequest (v : formView) : request :=
  match sessionId (store v) with
  | Some sid =>
      if hasExistingSession (store v) && negb (sid =? 0)%Z
      then PatchSession sid (payload (form v))
      else PostSession (payload (form v))
  | None => PostSession (payload (form v))
  end.

(** [handleSubmit], given how its one request settles: the view
    afterwards and the request issued, if any. *)
Definition handleSubmit (r : reply Session) (v : formView)
    : formView * option request :=
  if negb (truthy (course_title (form v))) || negb (truthy (level (form v)))
     || negb (truthy (modality (form v)))
  then (with_error fillRequired v, None)
  else
    let v1 := with_error [] (with_submitting true v) in
    let v2 :=
      match r with
      | Resolved session =>
          with_pushed (lit "/objective-analysis")
            (with_store
               (setCurrentPhase PhaseObjectiveAnalysis
                  (setCourseContext (form v1) (setSession session (store v1))))
               v1)
      | Rejected _ => with_error createFailed v1
      end in
    (with_submitting false v2, Some (submitRequest v)).

(** What the user can do on the form. *)
Inductive formEvent : Type :=
| TypeTitle (t : jsstring)
| PickLevel (t : jsstring)
| PickModality (t : jsstring)
| TypeConstraints (t : jsstring)
| TypeLine (idx : nat) (t : jsstring)
| AddLine
| RemoveLine (idx : nat)
| ToggleBulk
| TypeBulk (t : jsstring)
| ApplyBulk
| Submit (r : reply Session).

Definition formHandle (e : formEvent) (v : formView) : formView :=
  match e with
  | TypeTitle t =>
      with_form {| course_title := t; level := level (form v);
                   modality := modality (form v);
                   constraints := constraints (form v);
                   learning_objectives := learning_objectives (form v) |} v
  | PickLevel t =>
      with_form {| course_title := course_title (form v); level := t;
                   modality := modality (form v);
                   constraints := constraints (form v);
                   learning_objectives := learning_objectives (form v) |} v
  | PickModality t =>
      with_form {| course_title := course_title (form v);
                   level := level (form v); modality := t;
                   constraints := constraints (form v);
                   learning_objectives := learning_objectives (form v) |} v
  | TypeConstraints t =>
      with_form {| course_title := course_title (form v);
                   level := level (form v); modality := modality (form v);
                   constraints := t;
                   learning_objectives := learning_objectives (form v) |} v
  | TypeLine idx t => editObjectiveLine idx t v
  | AddLine => addObjectiveLine v
  | RemoveLine idx => removeObjectiveLine idx v
  | ToggleBulk => with_bulk (negb (showBulkPaste v)) (bulkObjectivesText v) v
  | TypeBulk t => with_bulk (showBulkPaste v) t v
  | ApplyBulk => applyBulkPaste v
  | Submit r => fst (handleSubmit r v)
  end.

Definition formAfter (evs : list formEvent) (s : Store.state) : formView :=
  fold_left (fun v e => formHandle e v) evs (mountForm s).

(** The three required fields are filled in. *)
Definition requiredFilled (f : CourseContextForm) : bool :=
  truthy (course_title f) && truthy (level f) && truthy (modality f).

(** The form text is what [joinObjectives] makes of the lines shown. *)
Definition inStep (v : formView) : Prop :=
  learning_objectives (form v) = joinObjectives (objectivesLines v).

(** ** Sample data *)

Definition filledForm : formView :=
  formAfter [TypeTitle (lit "Intro to ML"); PickLevel (lit "undergraduate");
             PickModality (lit "online"); TypeBulk (lit "- Explain it");
             ApplyBulk] initial.

End ContextForm.

(* ================================================================== *)
(** * The activity-suggestion view *)
(* ================================================================== *)

Module ActivityView.
Import JS Store Api.

(** The [data] of a suggestion reply as it may arrive: any field can be
    missing or null, which is why the view guards each one.  A reply is
    taken to have the declared shape of [ActivityItem]: its activities
    carry the nine declared keys and no others (a key [id] or [draft] of
    their own would pass through the spreads of the view). *)
Record RawAdaptations : Type := {
  raw_online : option jsstring;
  raw_accessibility : option jsstring
}.

Record RawActivity : Type := {
  raw_title : option jsstring;
  raw_type : option jsstring;
  raw_description : option jsstring;
  raw_objective_alignment : option (list (option jsstring));
  raw_duration : option jsstring;
  raw_materials_needed : option (list (option jsstring));
  raw_instructions : option (list (option jsstring));
  raw_assessment_criteria : option jsstring;
  raw_adaptations : option RawAdaptations
}.

Record SuggestionData : Type := {
  data_activities : option (list RawActivity);
  sequence_rationale : option jsstring;
  total_estimated_time : option jsstring;
  raw_response : option jsstring;
  parse_error : option bool
}.

(** [x || ''] and [x || []] on a value that may be missing. *)
Definition orEmpty (o : option jsstring) : jsstring :=
  match o with Some s => s | None => [] end.

Definition orNil {A : Type} (o : option (list A)) : list A :=
  match o with Some l => l | None => [] end.

Definition cleanText (o : option jsstring) : jsstring :=
  Text.stripMarkdown (orEmpty o).

Definition cleanList (o : option (list (option jsstring))) : list jsstring :=
  filter truthy (map cleanText (orNil o)).

Definition cleanActivity (a : RawActivity) : ActivityItem :=
  {| title := cleanText (raw_title a);
     activity_type := cleanText (raw_type a);
     description := cleanText (raw_description a);
     objective_alignment := cleanList (raw_objective_alignment a);
     duration := cleanText (raw_duration a);
     materials_needed := cleanList (raw_materials_needed a);
     instructions := cleanList (raw_instructions a);
     assessment_criteria := cleanText (raw_assessment_criteria a);
     adaptations :=
       {| online :=
            cleanText (match raw_adaptations a with
                       | Some d => raw_online d | None => None end);
          accessibility :=
            cleanText (match raw_adaptations a with
                       | Some d => raw_accessibility d | None => None end) |} |}.

Inductive status : Type := Pending | Accepted | Declined | Editing.

Record Draft : Type := {
  draft_title : jsstring;
  draft_type : jsstring;
  draft_description : jsstring;
  draft_duration : jsstring;
  draft_materials_needed : jsstring
}.

(** [ActivityWithStatus]: the item's fields together with the fields the
    view adds. *)
Record ActivityWithStatus : Type := {
  item : ActivityItem;
  activity_id : jsstring;
  activity_status : status;
  draft : option Draft
}.

Record view : Type := {
  isGenerating : bool;
  stepId : option Z;
  recommendationId : option Z;
  errorMessage : jsstring;
  activities : list ActivityWithStatus;
  sequenceRationale : jsstring;
  totalEstimatedTime : jsstring;
  store : Store.state
}.

(** [`activity-${index}`] *)
Definition activityId (index : nat) : jsstring :=
  lit "activity-" ++ numberToString (Z.of_nat index).

(** [list.map((activity, index) => ({ id, ...activity, status }))],
    counting from [start]. *)
Fixpoint withStatus (start : nat) (l : list ActivityItem) : list ActivityWithStatus :=
  match l with
  | [] => []
  | a :: r =>
      {| item := a; activity_id := activityId start;
         activity_status := Pending; draft := None |}
      :: withStatus (S start) r
  end.

(** The view after setup and [onMounted]: without a session it is left
    empty (and redirects); otherwise it shows the store's suggestions. *)
Definition mountActivities (s : Store.state) : view :=
  {| isGenerating := false; stepId := None; recommendationId := None;
     errorMessage := [];
     activities :=
       if hasActiveSession s then withStatus 0 (activitySuggestions s) else [];
     sequenceRationale := []; totalEstimatedTime := [];
     store := s |}.

Definition notParsed : jsstring :=
  lit "The AI response could not be parsed as valid JSON. Try again, or adjust the prompt/model.".
Definition noActivities : jsstring :=
  lit "No activities were returned. Try generating again, or refine your objectives.".
Definition generationFailed : jsstring :=
  lit "Generation failed. Please try again.".

Definition suggestionStep (r : LLMResponse SuggestionData) (sid : Z)
    (objectives now : jsstring) : DesignStep :=
  {| step_id_of := llm_step_id r;
     step_session_id := sid;
     phase := lit "activity-suggestion";
     user_input := Some objectives;
     step_created_at := now |}.

Definition truthyFlag (o : option bool) : bool :=
  match o with Some b => b | None => false end.

Definition generateSuggestions (r : reply (LLMResponse SuggestionData))
    (now : jsstring) (v : view) : view :=
  match sessionId (store v) with
  | None => v
  | Some sid =>
      if (sid =? 0)%Z then v
      else
        match r with
        | Rejected detail =>
            {| isGenerating := false; stepId := stepId v;
               recommendationId := recommendationId v;
               errorMessage :=
                 match detail with
                 | Some d => if truthy d then d else generationFailed
                 | None => generationFailed
                 end;
               activities := []; sequenceRationale := [];
               totalEstimatedTime := [];
               store := store v |}
        | Resolved result =>
            let d := data result in
            let cleanedList := map cleanActivity (orNil (data_activities d)) in
            {| isGenerating := false;
               stepId := Some (llm_step_id result);
               recommendationId := Some (llm_recommendation_id result);
               errorMessage :=
                 match cleanedList with
                 | [] =>
                     if truthyFlag (parse_error d) && truthy (orEmpty (raw_response d))
                     then notParsed else noActivities
                 | _ => []
                 end;
               activities := withStatus 0 cleanedList;
               sequenceRationale := cleanText (sequence_rationale d);
               totalEstimatedTime := cleanText (total_estimated_time d);
               store :=
                 addDesignStep
                   (suggestionStep result sid
                      (learning_objectives (courseContext (store v))) now)
                   (setActivitySuggestions cleanedList (store v)) |}
        end
  end.

(** [activities.find(a => a.id === id)] followed by a change of the
    activity found. *)
Fixpoint changeFirst (id : jsstring) (f : ActivityWithStatus -> ActivityWithStatus)
    (l : list ActivityWithStatus) : list ActivityWithStatus :=
  match l with
  | [] => []
  | a :: r =>
      if str_eqb (activity_id a) id then f a :: r
      else a :: changeFirst id f r
  end.

Definition with_activities (l : list ActivityWithStatus) (v : view) : view :=
  {| isGenerating := isGenerating v; stepId := stepId v;
     recommendationId := recommendationId v; errorMessage := errorMessage v;
     activities := l; sequenceRationale := sequenceRationale v;
     totalEstimatedTime := totalEstimatedTime v; store := store v |}.

Definition with_store (s : Store.state) (v : view) : view :=
  {| isGenerating := isGenerating v; stepId := stepId v;
     recommendationId := recommendationId v; errorMessage := errorMessage v;
     activities := activities v; sequenceRationale := sequenceRationale v;
     totalEstimatedTime := totalEstimatedTime v; store := s |}.

Definition setStatus (s : status) (a : ActivityWithStatus) : ActivityWithStatus :=
  {| item := item a; activity_id := activity_id a;
     activity_status := s; draft := draft a |}.

(** The request of [saveAction] is awaited and its failure only logged;
    it has no part in the state of the view. *)
Definition acceptActivity (id : jsstring) (v : view) : view :=
  with_activities (changeFirst id (setStatus Accepted) (activities v)) v.

Definition rejectActivity (id : jsstring) (v : view) : view :=
  with_activities (changeFirst id (setStatus Declined) (activities v)) v.

(** [a.join(sep)] for any separator. *)
Fixpoint joinWith (sep : jsstring) (l : list jsstring) : jsstring :=
  match l with
  | [] => []
  | [x] => x
  | x :: r => x ++ sep ++ joinWith sep r
  end.

Definition startEditing (a : ActivityWithStatus) : ActivityWithStatus :=
  {| item := item a; activity_id := activity_id a;
     activity_status := Editing;
     draft :=
       Some {| draft_title := or_empty (title (item a));
               draft_type := or_empty (activity_type (item a));
               draft_description := or_empty (description (item a));
               draft_duration := or_empty (duration (item a));
               draft_materials_needed :=
                 joinWith (lit ", ") (materials_needed (item a)) |} |}.

Definition editActivity (id : jsstring) (v : view) : view :=
  with_activities (changeFirst id startEditing (activities v)) v.

(** The inputs bound to the draft of an activity being edited. *)
Definition typeDraft (id : jsstring) (d : Draft) (v : view) : view :=
  with_activities
    (changeFirst id
       (fun a => match draft a with
                 | Some _ =>
                     {| item := item a; activity_id := activity_id a;
                        activity_status := activity_status a;
                        draft := Some d |}
                 | None => a
                 end)
       (activities v)) v.

Definition materialsOf (t : jsstring) : list jsstring :=
  filter truthy (map trim (split 44%N t)).

Definition applyDraft (a : ActivityWithStatus) : ActivityWithStatus :=
  match draft a with
  | None => a
  | Some d =>
      {| item :=
           {| title := draft_title d;
              activity_type := draft_type d;
              description := draft_description d;
              objective_alignment := objective_alignment (item a);
              duration := draft_duration d;
              materials_needed := materialsOf (draft_materials_needed d);
              instructions := instructions (item a);
              assessment_criteria := assessment_criteria (item a);
              adaptations := adaptations (item a) |};
         activity_id := activity_id a;
         activity_status := Pending;
         draft := None |}
  end.

(** The activity [find] returns. *)
Definition found (id : jsstring) (v : view) : option ActivityWithStatus :=
  find (fun a => str_eqb (activity_id a) id) (activities v).

Definition saveEdits (id : jsstring) (v : view) : view :=
  match found id v with
  | Some a =>
      match draft a with
      | Some _ =>
          let l := changeFirst id applyDraft (activities v) in
          with_store (setActivitySuggestions (map item l) (store v))
            (with_activities l v)
      | None => v
      end
  | None => v
  end.

Definition dropDraft (a : ActivityWithStatus) : ActivityWithStatus :=
  {| item := item a; activity_id := activity_id a;
     activity_status := Pending; draft := None |}.

Definition cancelEdits (id : jsstring) (v : view) : view :=
  with_activities (changeFirst id dropDraft (activities v)) v.

(** [regenerateActivity] records the request and shows an alert. *)
Definition regenerateActivity (id : jsstring) (v : view) : view := v.

(** [proceedToSummary]: the view afterwards and the path pushed. *)
Definition proceedToSummary (v : view) : view * jsstring :=
  (with_store (setCurrentPhase PhaseSummary (store v)) v, lit "/summary").

End ActivityView.

Module ActivityProps.
Import JS Store Api ActivityView.

(** Without white space at either end (possibly empty). *)
Definition neat (s : jsstring) : Prop :=
  startsWithSpace s = false /\ endsWithSpace s = false.

(** A list of non-empty neat strings. *)
Definition neatList (l : list jsstring) : Prop :=
  Forall (fun x => x <> [] /\ neat x) l.

Definition neatActivity (a : ActivityItem) : Prop :=
  neat (title a) /\ neat (activity_type a) /\ neat (description a) /\
  neat (duration a) /\ neat (assessment_criteria a) /\
  neat (online (adaptations a)) /\ neat (accessibility (adaptations a)) /\
  neatList (objective_alignment a) /\ neatList (materials_needed a) /\
  neatList (instructions a).

(** A material that survives the edit box: not empty, no comma, no
    white space at either end. *)
Definition plainMaterial (m : jsstring) : Prop :=
  m <> [] /\ ~ In 44%N m /\ neat m.

(** ** Sample data *)

Definition rawActivity1 : RawActivity :=
  {| raw_title := Some (lit "**Think-pair-share** ");
     raw_type := Some (lit "discussion");
     raw_description := None;
     raw_objective_alignment := Some [Some (lit "- Explain it"); None];
     raw_duration := Some (lit "15 min");
     raw_materials_needed := Some [Some (lit "paper"); Some (lit "`pens`")];
     raw_instructions := None;
     raw_assessment_criteria := None;
     raw_adaptations := None |}.

Definition suggestions1 : LLMResponse SuggestionData :=
  {| success := true; llm_step_id := 5; llm_recommendation_id := 6;
     data := {| data_activities := Some [rawActivity1; rawActivity1];
                sequence_rationale := Some (lit "# Order");
                total_estimated_time := None;
                raw_response := None; parse_error := None |} |}.

Definition generated1 : view :=
  generateSuggestions (Resolved suggestions1) (lit "2024-03-09T23:09:00.000Z")
    (mountActivities Reconciler.store7).

End ActivityProps.

(* ================================================================== *)
(** * The activity-suggestion view as a transition system *)
(* ================================================================== *)

Module ActivityFlow.
Import JS Store Api ActivityView.

(** What can happen to the mounted view: a generation settles, the user
    presses a button of the activity carrying [id] or types into its
    edit box, or presses the button that proceeds to the summary. *)
Inductive activityEvent : Type :=
| DoGenerate (r : reply (LLMResponse SuggestionData)) (now : jsstring)
| DoAccept (id : jsstring)
| DoReject (id : jsstring)
| DoEdit (id : jsstring)
| DoType (id : jsstring) (d : Draft)
| DoSave (id : jsstring)
| DoCancel (id : jsstring)
| DoRegenerate (id : jsstring)
| DoProceed.

Definition activityHandle (e : activityEvent) (v : view) : view :=
  match e with
  | DoGenerate r now => generateSuggestions r now v
  | DoAccept id => acceptActivity id v
  | DoReject id => rejectActivity id v
  | DoEdit id => editActivity id v
  | DoType id d => typeDraft id d v
  | DoSave id => saveEdits id v
  | DoCancel id => cancelEdits id v
  | DoRegenerate id => regenerateActivity id v
  | DoProceed => fst (proceedToSummary v)
  end.

Definition isProceed (e : activityEvent) : bool :=
  match e with DoProceed => true | _ => false end.

Definition activityAfter (evs : list activityEvent) (s : Store.state) : view :=
  fold_left (fun v e => activityHandle e v) evs (mountActivities s).

(** Every activity carries the id of its position. *)
Definition indexed (l : list ActivityWithStatus) : Prop :=
  map activity_id l = map activityId (List.seq 0 (length l)).

(** The list on screen is empty or shows the store's suggestions. *)
Definition mirrorsStore (v : view) : Prop :=
  activities v = [] \/ map item (activities v) = activitySuggestions (store v).

(** The parts of the store the view has no write to. *)
Definition sameSession (s t : Store.state) : Prop :=
  currentSession t = currentSession s /\ sessionId t = sessionId s /\
  courseContext t = courseContext s /\
  recommendations t = recommendations s /\ userActions t = userActions s.

End ActivityFlow.

(* ================================================================== *)
(** * The course-context form as a transition system *)
(* ================================================================== *)

Module FormFlow.
Import JS Store Api ContextForm.

(** Until it pushes a route the form has not written to the store it was
    mounted over; the only route it pushes is that of the objective
    analysis, and then the store holds a session and that phase. *)
Definition kept (s : Store.state) (v : formView) : Prop :=
  match pushed v with
  | None => store v = s
  | Some p =>
      p = lit "/objective-analysis" /\
      hasActiveSession (store v) = true /\
      currentPhase (store v) = PhaseObjectiveAnalysis
  end.

End FormFlow.

(* ================================================================== *)
(** * Header, sidebar and summary view *)
(* ================================================================== *)

Module Navigation.
Import JS Store Api.

(** A step of the sidebar (its icon path plays no part). *)
Record Step : Type := {
  step_key : jsstring;
  step_name : jsstring;
  step_route : jsstring
}.

Definition steps : list Step :=
  [ {| step_key := lit "context"; step_name := lit "Course Context";
       step_route := lit "/new-session" |};
    {| step_key := lit "objectives"; step_name := lit "Objective Analysis";
       step_route := lit "/objective-analysis" |};
    {| step_key := lit "activities"; step_name := lit "Activity Suggestions";
       step_route := lit "/activity-suggestion" |};
    {| step_key := lit "summary"; step_name := lit "Summary & Export";
       step_route := lit "/summary" |} ].

(** [Array.prototype.findIndex]: the first position whose element
    passes, [-1] when none does. *)
Fixpoint findIndexFrom {A : Type} (p : A -> bool) (k : Z) (l : list A) : Z :=
  match l with
  | [] => (-1)%Z
  | x :: r => if p x then k else findIndexFrom p (k + 1)%Z r
  end.

Definition findIndex {A : Type} (p : A -> bool) (l : list A) : Z :=
  findIndexFrom p 0%Z l.

Definition currentStepIndex (path : jsstring) : Z :=
  findIndex (fun step => str_eqb (step_route step) path) steps.

Definition isStepComplete (path : jsstring) (index : Z) : bool :=
  (index <? currentStepIndex path)%Z.

Definition isStepActive (path : jsstring) (index : Z) : bool :=
  (index =? currentStepIndex path)%Z.

Definition isStepAccessible (s : Store.state) (path : jsstring) (index : Z) : bool :=
  (index <=? currentStepIndex path)%Z || hasActiveSession s.

(** The path [navigateToStep] pushes, if any. *)
Definition navigateToStep (s : Store.state) (path : jsstring)
    (step : Step) (index : Z) : option jsstring :=
  if isStepAccessible s path index then Some (step_route step) else None.

(** The buttons of the sidebar as [v-for] renders them: each step with
    its index. *)
Fixpoint numbered {A : Type} (k : Z) (l : list A) : list (Z * A) :=
  match l with
  | [] => []
  | x :: r => (k, x) :: numbered (k + 1)%Z r
  end.

Definition buttons : list (Z * Step) := numbered 0%Z steps.

(** [startNewSession] of the header and of the summary view: the store
    afterwards and the path pushed. *)
Definition startNewSession (s : Store.state) : Store.state * jsstring :=
  (resetSession s, lit "/new-session").

(** The refs of the summary view and the store it reads.  The export
    data loaded for display is kept as the server sent it. *)
Record summaryView (E : Type) : Type := {
  isExporting : bool;
  isLoadingData : bool;
  exportData : option E;
  errorMessage : jsstring;
  store : Store.state
}.

Arguments isExporting {E} s.
Arguments isLoadingData {E} s.
Arguments exportData {E} s.
Arguments errorMessage {E} s.
Arguments store {E} s.

Definition exportFailed : jsstring := lit "Export failed. Please try again.".

(** [loadExportData], given how its request settles. *)
Definition loadExportData {E : Type} (r : reply E) (v : summaryView E) : summaryView E :=
  if Reconciler.truthy_num (sessionId (store v)) then
    {| isExporting := isExporting v;
       isLoadingData := false;
       exportData := match r with Resolved d => Some d | Rejected _ => exportData v end;
       errorMessage := errorMessage v;
       store := store v |}
  else v.

(** The view after setup and [onMounted], and the path pushed if the
    store holds no session. *)
Definition mountSummary {E : Type} (r : reply E) (s : Store.state)
    : summaryView E * option jsstring :=
  let v := {| isExporting := false; isLoadingData := false; exportData := None;
              errorMessage := []; store := s |} in
  if hasActiveSession s then (loadExportData r v, None)
  else (v, Some (lit "/new-session")).

(** [handleExport], given the time and how the request settles: the
    view afterwards and the file saved, if any. *)
Definition handleExport {E : Type} (now : Date) (r : reply (list N))
    (v : summaryView E) : summaryView E * option download :=
  if Reconciler.truthy_num (sessionId (store v)) then
    ({| isExporting := false;
        isLoadingData := isLoadingData v;
        exportData := exportData v;
        errorMessage :=
          match r with Resolved _ => [] | Rejected _ => exportFailed end;
        store := store v |},
     match sessionId (store v) with
     | Some sid => downloadSessionExportDocx sid now r
     | None => None
     end)
  else (v, None).

Definition handleExportPdf {E : Type} (now : Date) (r : reply (list N))
    (v : summaryView E) : summaryView E * option download :=
  if Reconciler.truthy_num (sessionId (store v)) then
    ({| isExporting := false;
        isLoadingData := isLoadingData v;
        exportData := exportData v;
        errorMessage :=
          match r with Resolved _ => [] | Rejected _ => exportFailed end;
        store := store v |},
     match sessionId (store v) with
     | Some sid => downloadSessionExportPdf sid now r
     | None => None
     end)
  else (v, None).

(** What can happen to the mounted summary view. *)
Inductive summaryEvent : Type :=
| ExportWord (now : Date) (r : reply (list N))
| ExportPdf (now : Date) (r : reply (list N)).

Definition summaryHandle {E : Type} (e : summaryEvent) (v : summaryView E)
    : summaryView E * option download :=
  match e with
  | ExportWord now r => handleExport now r v
  | ExportPdf now r => handleExportPdf now r v
  end.

(** The view after a run of events and the files saved on the way, the
    latest first. *)
Fixpoint summaryRun {E : Type} (evs : list summaryEvent)
    (v : summaryView E) (saved : list download) : summaryView E * list download :=
  match evs with
  | [] => (v, saved)
  | e :: rest =>
      let out := summaryHandle e v in
      summaryRun rest (fst out)
        (match snd out with Some d => d :: saved | None => saved end)
  end.

End Navigation.

(* ================================================================== *)
(** * The CNAME script of the build *)
(* ================================================================== *)

Module Cname.
Import JS.

Definition defaultDomain : jsstring := lit "tangyunxuan.com".

(** How the script ends: [process.exit(1)] before anything is written,
    or [dist/CNAME] written with the given content. *)
Inductive outcome : Type :=
| Exit (code : Z)
| Wrote (content : jsstring).

(** The script, given [process.env.CNAME_DOMAIN] (absent or a string). *)
Definition writeCname (env : option jsstring) : outcome :=
  let domain :=
    trim (match env with
          | Some d => if truthy d then d else defaultDomain
          | None => defaultDomain
          end) in
  if truthy domain then Wrote (domain ++ [LF]) else Exit 1%Z.

End Cname.

(* ================================================================== *)
(** * Properties of the string primitives *)
(* ================================================================== *)

Module JSFacts.
Import JS.

Lemma or_empty_id (s : jsstring) : or_empty s = s.
Proof. now destruct s. Qed.

Lemma truthy_nonempty (s : jsstring) : truthy s = true <-> s <> [].
Proof. destruct s; simpl; split; congruence. Qed.

(** ** [trim] *)

Lemma trimStart_head (s : jsstring) : startsWithSpace (trimStart s) = false.
Proof.
  induction s as [|c s IH]; simpl; auto.
  destruct (isSpace c) eqn:E; auto.
Qed.

Lemma trimStart_fixed (s : jsstring) :
  startsWithSpace s = false -> trimStart s = s.
Proof. destruct s as [|c s]; simpl; auto. now intros ->. Qed.

Lemma trimStart_incl (s : jsstring) (c : char) :
  In c (trimStart s) -> In c s.
Proof.
  induction s as [|x s IH]; simpl; auto.
  destruct (isSpace x); simpl; auto.
Qed.

Lemma trimStart_snoc (s : jsstring) (c : char) :
  isSpace c = false -> trimStart (s ++ [c]) = trimStart s ++ [c].
Proof.
  intros Hc. induction s as [|x s IH]; simpl.
  - now rewrite Hc.
  - destruct (isSpace x); auto.
Qed.

Lemma trimEnd_cons (c : char) (s : jsstring) :
  isSpace c = false -> trimEnd (c :: s) = c :: trimEnd s.
Proof.
  intros Hc. unfold trimEnd. simpl.
  rewrite trimStart_snoc by assumption.
  now rewrite rev_app_distr.
Qed.

Lemma trimEnd_tail (s : jsstring) : endsWithSpace (trimEnd s) = false.
Proof.
  unfold endsWithSpace, trimEnd. rewrite rev_involutive. apply trimStart_head.
Qed.

Lemma trimEnd_fixed (s : jsstring) :
  endsWithSpace s = false -> trimEnd s = s.
Proof.
  unfold endsWithSpace, trimEnd. intros H.
  rewrite trimStart_fixed by assumption. apply rev_involutive.
Qed.

Lemma trimEnd_incl (s : jsstring) (c : char) : In c (trimEnd s) -> In c s.
Proof.
  unfold trimEnd. intros H. apply in_rev in H.
  apply trimStart_incl in H. now apply in_rev.
Qed.

Lemma trimEnd_head (s : jsstring) :
  startsWithSpace s = false -> startsWithSpace (trimEnd s) = false.
Proof.
  destruct s as [|c s]; simpl; auto. intros Hc.
  rewrite trimEnd_cons by assumption. exact Hc.
Qed.

Lemma trim_head (s : jsstring) : startsWithSpace (trim s) = false.
Proof. unfold trim. apply trimEnd_head, trimStart_head. Qed.

Lemma trim_tail (s : jsstring) : endsWithSpace (trim s) = false.
Proof. unfold trim. apply trimEnd_tail. Qed.

Lemma trim_incl (s : jsstring) (c : char) : In c (trim s) -> In c s.
Proof. unfold trim. intros H. now apply trimStart_incl, trimEnd_incl. Qed.

Lemma trim_fixed (s : jsstring) :
  startsWithSpace s = false -> endsWithSpace s = false -> trim s = s.
Proof.
  intros H1 H2. unfold trim. rewrite trimStart_fixed by assumption.
  now apply trimEnd_fixed.
Qed.

Lemma trim_idempotent (s : jsstring) : trim (trim s) = trim s.
Proof. apply trim_fixed; [apply trim_head | apply trim_tail]. Qed.

Lemma trimStart_skip (s : jsstring) : trimStart s = skip isSpace s.
Proof. induction s as [|c t IH]; simpl; auto. now rewrite IH. Qed.

End JSFacts.

(* ================================================================== *)
(** * Properties of the matcher and of [split] and [join] *)
(* ================================================================== *)

Module MatchFacts.
Import JS.

Lemma suffix_refl (s : jsstring) : suffix s s.
Proof. now exists []. Qed.

Lemma suffix_cons (c : char) (s' s : jsstring) : suffix s' s -> suffix s' (c :: s).
Proof. intros (p & ->). now exists (c :: p). Qed.

Lemma suffix_trans (a b c : jsstring) : suffix a b -> suffix b c -> suffix a c.
Proof. intros (p & ->) (q & ->). exists (q ++ p). now rewrite app_assoc. Qed.

Lemma suffix_incl (s' s : jsstring) (c : char) : suffix s' s -> In c s' -> In c s.
Proof. intros (p & ->) H. apply in_or_app. now right. Qed.

Section Invariant.
(** A match hands its continuation a suffix of the input, so whatever
    holds of every answer the continuation gives on suffixes holds of
    the answer of the match. *)
Variable Q : captures * jsstring -> Prop.

Lemma answers_on_cons (c : char) (s : jsstring) (k : cont) :
  answers_on Q (c :: s) k -> answers_on Q s k.
Proof. intros H pv' s' cs' x Hs. apply H. now apply suffix_cons. Qed.

Lemma rep_answers g p : forall s lo hi pv cs k x,
    answers_on Q s k -> rep g p lo hi pv s cs k = Some x -> Q x.
Proof.
  induction s as [|c t IH]; intros lo hi pv cs k x Hk; simpl.
  - destruct lo; [|discriminate]. apply Hk, suffix_refl.
  - assert (Hstop : match lo with O => k pv (c :: t) cs | S _ => None end
                    = Some x -> Q x).
    { destruct lo; [|discriminate]. apply Hk, suffix_refl. }
    assert (Hmore : rep g p (pred lo) (dec_hi hi) (Some c) t cs k = Some x
                    -> Q x).
    { apply IH. now apply answers_on_cons with c. }
    destruct (hi_open hi && p c); auto.
    destruct g.
    + destruct (rep true p (pred lo) (dec_hi hi) (Some c) t cs k) eqn:E.
      * intros [= ->]. now apply Hmore.
      * exact Hstop.
    + destruct (match lo with O => k pv (c :: t) cs | S _ => None end) eqn:E.
      * intros [= ->]. now apply Hstop.
      * exact Hmore.
Qed.

Lemma run_answers m : forall r pv s cs k x,
    answers_on Q s k -> run m r pv s cs k = Some x -> Q x.
Proof.
  induction r as [|p|r1 IH1 r2 IH2|r1 IH1 r2 IH2|g lo hi p|n r IH| |];
    intros pv s cs k x Hk; simpl.
  - apply Hk, suffix_refl.
  - destruct s as [|c t]; [discriminate|].
    destruct (p c); [|discriminate]. apply Hk. apply suffix_cons, suffix_refl.
  - apply IH1. intros pv' s' cs' y Hs. apply IH2.
    intros pv'' s'' cs'' z Hs'. apply Hk. now apply suffix_trans with s'.
  - destruct (run m r1 pv s cs k) eqn:E.
    + intros [= ->]. now apply IH1 with pv s cs k.
    + now apply IH2.
  - now apply rep_answers.
  - apply IH. intros pv' s' cs' y Hs. now apply Hk.
  - destruct (at_bol m pv); [|discriminate]. apply Hk, suffix_refl.
  - destruct (at_eol m s); [|discriminate]. apply Hk, suffix_refl.
Qed.

End Invariant.

(** What a match leaves unread is a suffix of what it was given. *)
Lemma exec_suffix (pat : pattern) (pv : option char) (s s' : jsstring) cs :
  exec pat pv s = Some (cs, s') -> suffix s' s.
Proof.
  unfold exec.
  apply (@run_answers (fun x => suffix (snd x) s) (flag_m pat) (body pat)
           pv s [] finish (cs, s')).
  intros pv' s'' cs' x Hs [= <-]. exact Hs.
Qed.

(** Deleting the leftmost match adds no code unit. *)
Lemma replace_first_nothing_incl (pat : pattern) (c : char) :
  forall s pv, In c (replace_first pat nothing pv s) -> In c s.
Proof.
  induction s as [|x t IH]; intros pv; simpl.
  - destruct (exec pat pv []) as [[cs s']|] eqn:E; simpl; auto.
    intros H. apply exec_suffix in E. exact (@suffix_incl _ _ _ E H).
  - destruct (exec pat pv (x :: t)) as [[cs s']|] eqn:E; simpl.
    + intros H. apply exec_suffix in E. exact (@suffix_incl _ _ _ E H).
    + intros [H|H]; auto. right. now apply IH with (Some x).
Qed.

(** ** Greedy quantifiers *)

Lemma rep_blind g p (k : cont) :
  blind k -> forall s lo hi pv1 pv2 cs,
    rep g p lo hi pv1 s cs k = rep g p lo hi pv2 s cs k.
Proof.
  intros Hk. induction s as [|c t IH]; intros lo hi pv1 pv2 cs; simpl.
  - destruct lo; auto.
  - rewrite (Hk pv1 pv2). reflexivity.
Qed.

(** A greedy star before a continuation that cannot start inside the
    class reads the whole run of the class. *)
Lemma rep_star_greedy p (k : cont) :
  blind k -> fails_on p k ->
  forall s pv cs, rep true p 0 None pv s cs k = k pv (skip p s) cs.
Proof.
  intros Hb Hf. induction s as [|c t IH]; intros pv cs; simpl; auto.
  destruct (p c) eqn:Ec; simpl; auto.
  rewrite IH. rewrite (Hb (Some c) pv).
  destruct (k pv (skip p t) cs) eqn:E; auto.
Qed.

Lemma rep_plus_greedy p (k : cont) :
  blind k -> fails_on p k ->
  forall s pv cs,
    rep true p 1 None pv s cs k =
    match s with
    | c :: t => if p c then k pv (skip p t) cs else None
    | [] => None
    end.
Proof.
  intros Hb Hf [|c t] pv cs; simpl; auto.
  destruct (p c) eqn:Ec; simpl; auto.
  rewrite rep_star_greedy by assumption. rewrite (Hb (Some c) pv).
  now destruct (k pv (skip p t) cs).
Qed.

(** At the end of a pattern a greedy quantifier reads the whole run. *)
Lemma rep_star_final p :
  forall s pv cs, rep true p 0 None pv s cs finish = Some (cs, skip p s).
Proof.
  induction s as [|c t IH]; intros pv cs; simpl; auto.
  destruct (p c) eqn:Ec; simpl; auto. now rewrite IH.
Qed.

Lemma rep_plus_final p :
  forall s pv cs,
    rep true p 1 None pv s cs finish =
    match s with
    | c :: t => if p c then Some (cs, skip p t) else None
    | [] => None
    end.
Proof.
  intros [|c t] pv cs; simpl; auto.
  destruct (p c) eqn:Ec; simpl; auto. now rewrite rep_star_final.
Qed.

(** ** [split] and [join] *)

Lemma split_nonempty (sep : char) (s : jsstring) : split sep s <> [].
Proof.
  destruct s as [|c t]; simpl; [discriminate|].
  destruct (c =? sep)%N; [discriminate|].
  destruct (split sep t); discriminate.
Qed.

Lemma split_pieces (sep : char) (s piece : jsstring) :
  In piece (split sep s) -> ~ In sep piece.
Proof.
  revert piece. induction s as [|c t IH]; intros piece; simpl.
  - intros [<-|[]]. auto.
  - destruct (N.eqb_spec c sep) as [->|Hc].
    + intros [<-|H]; auto.
    + destruct (split sep t) as [|h r] eqn:E.
      * intros [<-|[]]. intros [H|[]]. congruence.
      * intros [<-|H].
        -- intros [H|H]; [congruence|]. revert H. apply IH. now left.
        -- apply IH. now right.
Qed.

Lemma split_app_sep (sep : char) (a r : jsstring) :
  ~ In sep a -> split sep (a ++ sep :: r) = a :: split sep r.
Proof.
  induction a as [|c a IH]; simpl; intros H.
  - now rewrite N.eqb_refl.
  - destruct (N.eqb_spec c sep) as [->|Hc]; [tauto|].
    rewrite IH by tauto. reflexivity.
Qed.

Lemma split_no_sep (sep : char) (a : jsstring) :
  ~ In sep a -> split sep a = [a].
Proof.
  induction a as [|c a IH]; simpl; intros H; auto.
  destruct (N.eqb_spec c sep) as [->|Hc]; [tauto|].
  rewrite IH by tauto. reflexivity.
Qed.

(** Splitting a joined list gives the list back, when no element holds
    the separator. *)
Lemma split_join (sep : char) (l : list jsstring) :
  l <> [] -> Forall (fun e => ~ In sep e) l -> split sep (join sep l) = l.
Proof.
  induction l as [|e l IH]; [congruence|]. intros _ H.
  inversion H as [|? ? He Hl]; subst.
  destruct l as [|e' l].
  - simpl. now apply split_no_sep.
  - change (join sep (e :: e' :: l)) with (e ++ sep :: join sep (e' :: l)).
    rewrite split_app_sep by assumption. f_equal. apply IH; [discriminate|assumption].
Qed.

End MatchFacts.

(* ================================================================== *)
(** * Properties of [stripMarkdown] *)
(* ================================================================== *)

Module TextFacts.
Import JS Text.

(** C5: the scenario of the specification, the emphasis, inline-code and
    link markers are removed and the text between them is kept. *)
Theorem stripMarkdown_scenario :
  stripMarkdown (lit "**bold** and `code` and [link](url)")
  = lit "bold and code and link".
Proof. vm_compute. reflexivity. Qed.

(** Headings, quotes, list markers, emphasis and fences. *)
Example stripMarkdown_samples :
  stripMarkdown (lit "# Title" ++ [LF] ++ lit "- item one" ++ [LF] ++
                 lit "  2. item two  " ++ [LF] ++ lit "> quote")
    = lit "Title" ++ [LF] ++ lit "item one" ++ [LF] ++ lit "item two" ++
      [LF] ++ lit "quote" /\
  stripMarkdown (lit "```js" ++ [LF] ++ lit "let x" ++ [LF] ++ lit "``` done")
    = lit "let x" ++ [LF] ++ lit " done" /\
  stripMarkdown (lit "*it* __b__ _u_ a_b_c") = lit "it b u abc" /\
  stripMarkdown (lit "   ") = [].
Proof. repeat split; vm_compute; reflexivity. Qed.

(** C10: [stripMarkdown] is a total function on strings; it maps the
    empty string to the empty string, and its result neither begins nor
    ends with a white-space code unit (it is left unchanged by [trim]). *)
Theorem stripMarkdown_total_trimmed :
  forall t : jsstring,
    (exists r : jsstring, stripMarkdown t = r) /\
    stripMarkdown [] = [] /\
    startsWithSpace (stripMarkdown t) = false /\
    endsWithSpace (stripMarkdown t) = false /\
    trim (stripMarkdown t) = stripMarkdown t.
Proof.
  intros t. split; [now exists (stripMarkdown t)|].
  split; [vm_compute; reflexivity|]. unfold stripMarkdown.
  split; [apply JSFacts.trim_head|].
  split; [apply JSFacts.trim_tail | apply JSFacts.trim_idempotent].
Qed.

End TextFacts.

(* ================================================================== *)
(** * Properties of the objectives list *)
(* ================================================================== *)

Module ObjectivesFacts.
Import JS ObjectivesForm.
Import JSFacts MatchFacts.

Lemma endsWithSpace_app (a b : jsstring) :
  b <> [] -> endsWithSpace (a ++ b) = endsWithSpace b.
Proof.
  intros Hb. unfold endsWithSpace. rewrite rev_app_distr.
  destruct (rev b) as [|x r] eqn:E; [|reflexivity].
  apply (f_equal (@rev char)) in E. rewrite rev_involutive in E. now subst.
Qed.

Lemma endsWithSpace_cons (c : char) (s : jsstring) :
  s <> [] -> endsWithSpace (c :: s) = endsWithSpace s.
Proof. intros H. now apply (endsWithSpace_app [c]). Qed.

(** ** The leading marker *)

Lemma space_not_marker (c : char) :
  isSpace c = true -> Text.bulletMark c = false /\ digit c = false.
Proof.
  intros H. unfold isSpace, Text.bulletMark, digit in *.
  rewrite ?orb_true_iff, ?andb_true_iff, ?N.eqb_eq, ?N.leb_le in H.
  split.
  - rewrite ?orb_false_iff, ?N.eqb_neq. lia.
  - rewrite andb_false_iff, !N.leb_gt. lia.
Qed.

Lemma bullet_not_digit (c : char) : Text.bulletMark c = true -> digit c = false.
Proof.
  intros H. unfold Text.bulletMark, digit in *.
  rewrite ?orb_true_iff, ?N.eqb_eq in H.
  rewrite andb_false_iff, !N.leb_gt. lia.
Qed.

Lemma digit_not_dot (c : char) : digit c = true -> only 46%N c = false.
Proof.
  intros H. unfold digit, only in *.
  rewrite andb_true_iff, !N.leb_le in H. apply N.eqb_neq. lia.
Qed.

Lemma spacesThenEnd_reads pv s cs :
  spacesThenEnd pv s cs =
  if startsWithSpace s then Some (cs, trimStart s) else None.
Proof.
  unfold spacesThenEnd. rewrite rep_plus_final.
  destruct s as [|c t]; simpl; auto.
  destruct (isSpace c); auto. now rewrite trimStart_skip.
Qed.

Lemma exec_leadingMarker (line : jsstring) :
  exec reLeadingMarker None line =
  match afterMarker line with
  | Some rest => Some ([], rest)
  | None => None
  end.
Proof.
  unfold exec, reLeadingMarker, Text.listMarker.
  cbn [body flag_m seq run at_bol star plus].
  rewrite rep_star_greedy.
  - rewrite <- trimStart_skip. unfold afterMarker.
    destruct (trimStart line) as [|c t]; [reflexivity|].
    fold (spacesThenEnd (Some c) t []).
    destruct (Text.bulletMark c) eqn:Eb.
    + rewrite spacesThenEnd_reads.
      destruct (startsWithSpace t); [reflexivity|].
      cbn [rep]. rewrite (bullet_not_digit _ Eb). reflexivity.
    + rewrite rep_plus_greedy.
      * destruct (digit c); [|reflexivity].
        destruct (skip digit t) as [|d u]; [reflexivity|].
        fold (spacesThenEnd (Some d) u []). rewrite spacesThenEnd_reads.
        destruct (only 46%N d); [|reflexivity].
        now destruct (startsWithSpace u).
      * intros pv1 pv2 s cs. reflexivity.
      * intros pv d u cs Hd. now rewrite (digit_not_dot _ Hd).
  - intros pv1 pv2 s cs. cbv beta.
    match goal with
    | |- context [rep true digit 1 None pv1 s cs ?k] =>
        rewrite (@rep_blind true digit k (fun _ _ _ _ => eq_refl)
                   s 1 None pv1 pv2 cs)
    end.
    reflexivity.
  - intros pv c t cs Hc. destruct (space_not_marker _ Hc) as [Hb Hd].
    rewrite Hb. cbn [rep]. rewrite Hd. reflexivity.
Qed.

Lemma exec_leadingMarker_inside (c : char) (s : jsstring) :
  exec reLeadingMarker (Some c) s = None.
Proof. reflexivity. Qed.

Lemma replace_first_inside (pat : pattern) (f : replacement) :
  (forall c s, exec pat (Some c) s = None) ->
  forall s c, replace_first pat f (Some c) s = s.
Proof.
  intros H. induction s as [|x t IH]; intros c; cbn [replace_first];
    rewrite H; [reflexivity|]. now rewrite IH.
Qed.

Lemma replace_leadingMarker (line : jsstring) :
  replace reLeadingMarker nothing line = dropMarker line.
Proof.
  unfold replace. change (flag_g reLeadingMarker) with false. cbv iota.
  unfold dropMarker.
  destruct line as [|c t]; cbn [replace_first]; rewrite exec_leadingMarker;
    destruct (afterMarker _); try reflexivity.
  now rewrite replace_first_inside by apply exec_leadingMarker_inside.
Qed.

(** [normalizeObjectiveLine] removes the leading marker, if any, and
    trims. *)
Lemma normalizeObjectiveLine_reads (line : jsstring) :
  normalizeObjectiveLine line = trim (dropMarker line).
Proof.
  unfold normalizeObjectiveLine.
  now rewrite or_empty_id, replace_leadingMarker.
Qed.

(** ** Line ends *)

Lemma exec_crlf (pv : option char) (s : jsstring) :
  crlf_free s = true -> exec reCRLF pv s = None.
Proof.
  destruct s as [|c [|d t]]; intros H; unfold exec, reCRLF;
    cbn [run chars body flag_m].
  - reflexivity.
  - now destruct (only CR c).
  - cbn [crlf_free] in H. destruct (only CR c), (only LF d); try reflexivity.
    discriminate.
Qed.

Lemma crlf_free_tail (c : char) (s : jsstring) :
  crlf_free (c :: s) = true -> crlf_free s = true.
Proof. simpl. intros H. apply andb_true_iff in H. tauto. Qed.

Lemma replace_crlf_fixed (f : replacement) (s : jsstring) :
  crlf_free s = true -> replace reCRLF f s = s.
Proof.
  unfold replace. change (flag_g reCRLF) with true. cbv iota.
  generalize (@None char).
  induction s as [|c t IH]; intros pv H.
  - cbn [replace_all]. now rewrite exec_crlf.
  - cbn [replace_all]. rewrite exec_crlf by assumption.
    f_equal. apply IH. now apply crlf_free_tail with c.
Qed.

Lemma crlf_free_no_LF (s : jsstring) : ~ In LF s -> crlf_free s = true.
Proof.
  induction s as [|c t IH]; auto. intros H.
  cbn [crlf_free]. rewrite IH by (intros H'; apply H; now right).
  destruct t as [|d t]; [now rewrite andb_false_r|].
  assert (Hd : only LF d = false).
  { unfold only. apply N.eqb_neq. intros <-. apply H. right. now left. }
  rewrite Hd, andb_false_r. reflexivity.
Qed.

Lemma crlf_free_app_sep (e rest : jsstring) :
  tidy e -> crlf_free rest = true -> crlf_free (e ++ LF :: rest) = true.
Proof.
  intros (Hne & _ & Hend & Hlf) Hrest.
  induction e as [|c e IH]; [congruence|].
  destruct e as [|d e].
  - assert (Hc : only CR c = false).
    { unfold endsWithSpace in Hend. simpl in Hend.
      unfold only. apply N.eqb_neq. intros <-. discriminate. }
    cbn [app crlf_free]. rewrite Hc, Hrest. reflexivity.
  - assert (Hd : only LF d = false).
    { unfold only. apply N.eqb_neq. intros <-. apply Hlf. right. now left. }
    cbn [app crlf_free]. cbn [app crlf_free] in IH.
    rewrite Hd, andb_false_r. cbn [negb andb]. apply IH.
    + discriminate.
    + rewrite endsWithSpace_cons in Hend; [exact Hend | discriminate].
    + intros H. apply Hlf. now right.
Qed.

(** ** Joined lists of tidy entries *)

Lemma join_cons2 (e e' : jsstring) (l : list jsstring) :
  join LF (e :: e' :: l) = e ++ LF :: join LF (e' :: l).
Proof. reflexivity. Qed.

Lemma join_nonempty (e : jsstring) (l : list jsstring) :
  e <> [] -> join LF (e :: l) <> [].
Proof.
  intros He. destruct l as [|e' l]; [exact He|]. rewrite join_cons2.
  destruct e; [congruence | discriminate].
Qed.

Lemma join_head (e : jsstring) (l : list jsstring) :
  e <> [] -> startsWithSpace (join LF (e :: l)) = startsWithSpace e.
Proof.
  intros He. destruct l as [|e' l]; [reflexivity|]. rewrite join_cons2.
  destruct e; [congruence | reflexivity].
Qed.

Lemma join_tail (l : list jsstring) :
  l <> [] -> Forall tidy l -> endsWithSpace (join LF l) = false.
Proof.
  induction l as [|e l IH]; [congruence|]. intros _ H.
  inversion H as [|? ? He Hl]; subst.
  destruct l as [|e' l]; [apply He|].
  rewrite join_cons2.
  rewrite endsWithSpace_app by discriminate.
  rewrite endsWithSpace_cons.
  - apply IH; [discriminate | assumption].
  - apply join_nonempty. inversion Hl as [|? ? He' _]. apply He'.
Qed.

Lemma join_crlf_free (l : list jsstring) :
  Forall tidy l -> crlf_free (join LF l) = true.
Proof.
  induction l as [|e l IH]; auto. intros H.
  inversion H as [|? ? He Hl]; subst.
  destruct l as [|e' l]; [apply crlf_free_no_LF, He|].
  rewrite join_cons2. apply crlf_free_app_sep; auto.
Qed.

Lemma tidy_no_LF (l : list jsstring) :
  Forall tidy l -> Forall (fun e => ~ In LF e) l.
Proof. apply Forall_impl. intros e He. apply He. Qed.

Lemma filter_truthy_tidy (l : list jsstring) :
  Forall tidy l -> filter truthy l = l.
Proof.
  induction 1 as [|e l He _ IH]; simpl; auto.
  destruct e; [destruct He; congruence|]. simpl. now rewrite IH.
Qed.

Lemma map_settled (l : list jsstring) :
  Forall settled l -> map normalizeObjectiveLine l = l.
Proof. induction 1 as [|e l He _ IH]; simpl; congruence. Qed.

(** ** What [parseObjectivesText] delivers *)

Lemma normalize_tidy (line : jsstring) :
  ~ In LF line -> truthy (normalizeObjectiveLine line) = true ->
  tidy (normalizeObjectiveLine line).
Proof.
  intros Hlf Ht. unfold tidy. split; [now apply truthy_nonempty|].
  unfold normalizeObjectiveLine.
  split; [apply trim_head|]. split; [apply trim_tail|].
  intros H. apply trim_incl in H. rewrite or_empty_id in H.
  unfold replace in H. change (flag_g reLeadingMarker) with false in H.
  cbv iota in H. now apply replace_first_nothing_incl in H.
Qed.

Lemma parse_entries (t e : jsstring) :
  In e (parseObjectivesText t) ->
  tidy e /\
  exists line, In line (split LF (rawObjectives t)) /\
               e = normalizeObjectiveLine line.
Proof.
  unfold parseObjectivesText.
  destruct (negb (truthy (rawObjectives t))); [intros []|].
  intros H. apply filter_In in H. destruct H as [H Ht].
  apply in_map_iff in H. destruct H as (line & <- & Hline).
  split; [|now exists line].
  apply normalize_tidy; auto. now apply split_pieces with (rawObjectives t).
Qed.

Lemma parse_tidy (t : jsstring) : Forall tidy (parseObjectivesText t).
Proof. apply Forall_forall. intros e He. now apply parse_entries with t. Qed.

(** Parsing a joined list of tidy, settled entries gives the list back. *)
Lemma parse_join_fixed (l : list jsstring) :
  Forall tidy l -> Forall settled l ->
  parseObjectivesText (joinObjectives l) = l.
Proof.
  intros Ht Hs. unfold joinObjectives.
  rewrite map_settled, filter_truthy_tidy by assumption.
  destruct l as [|e l]; [vm_compute; reflexivity|].
  assert (He : tidy e) by (now inversion Ht).
  assert (Hraw : rawObjectives (join LF (e :: l)) = join LF (e :: l)).
  { unfold rawObjectives. rewrite or_empty_id.
    rewrite replace_crlf_fixed by now apply join_crlf_free.
    apply trim_fixed.
    - rewrite join_head; apply He.
    - apply join_tail; [discriminate | assumption]. }
  unfold parseObjectivesText. rewrite Hraw.
  assert (Hne : truthy (join LF (e :: l)) = true).
  { apply truthy_nonempty, join_nonempty, He. }
  rewrite Hne. cbn [negb].
  rewrite split_join; [|discriminate | now apply tidy_no_LF].
  rewrite map_settled, filter_truthy_tidy by assumption. reflexivity.
Qed.

(** C9, as the code has it: every entry of [parseObjectivesText t] is a
    line of the trimmed text put through [normalizeObjectiveLine], that
    is, with one leading list marker ([-], [*], [•] or digits and a dot,
    followed by white space) dropped if there is one, and then trimmed;
    it is not empty, has no white space at either end and no line feed.
    Parsing the joined entries gives the same list whenever
    [normalizeObjectiveLine] leaves every entry as it is. *)
Theorem parse_join_parse :
  forall t : jsstring,
    let l := parseObjectivesText t in
    Forall (fun e =>
              e <> [] /\ startsWithSpace e = false /\
              endsWithSpace e = false /\ ~ In LF e /\
              exists line, In line (split LF (rawObjectives t)) /\
                           e = normalizeObjectiveLine line /\
                           e = trim (dropMarker line)) l /\
    (Forall (fun e => normalizeObjectiveLine e = e) l ->
     parseObjectivesText (joinObjectives l) = l).
Proof.
  intros t l. split.
  - apply Forall_forall. intros e He.
    destruct (parse_entries t e He) as ((H1 & H2 & H3 & H4) & line & H5 & H6).
    repeat (split; [assumption|]).
    exists line. repeat split; auto.
    rewrite H6. apply normalizeObjectiveLine_reads.
  - intros Hs. apply parse_join_fixed; [apply parse_tidy | exact Hs].
Qed.

(** What [normalizeObjectiveLine] does to some lines: one marker goes,
    a marker without white space after it stays. *)
Example normalizeObjectiveLine_samples :
  normalizeObjectiveLine (lit "- foo") = lit "foo" /\
  normalizeObjectiveLine (lit "12. foo bar  ") = lit "foo bar" /\
  normalizeObjectiveLine ([32; 8226; 32; 32]%N ++ lit "foo") = lit "foo" /\
  normalizeObjectiveLine (lit "-foo") = lit "-foo" /\
  normalizeObjectiveLine (lit "3.14 is pi") = lit "3.14 is pi" /\
  normalizeObjectiveLine (lit "- - foo") = lit "- foo".
Proof. repeat split; vm_compute; reflexivity. Qed.

Lemma parse_join_parse_witness :
  parseObjectivesText threeObjectives =
    [lit "Explain gradient descent"; lit "Apply it to a model";
     lit "Evaluate the result"] /\
  parseObjectivesText (joinObjectives (parseObjectivesText threeObjectives))
    = parseObjectivesText threeObjectives.
Proof.
  assert (E : parseObjectivesText threeObjectives =
              [lit "Explain gradient descent"; lit "Apply it to a model";
               lit "Evaluate the result"]) by (vm_compute; reflexivity).
  split; [exact E|].
  apply (proj2 (parse_join_parse threeObjectives)).
  rewrite E. repeat (constructor; [vm_compute; reflexivity|]). constructor.
Defined.

(** C9 as worded does not hold: a line with two markers keeps the second
    one, so the entry still starts with a list marker, and a second
    round of joining and parsing removes it. *)
Lemma parse_join_parse_not_idempotent :
  parseObjectivesText (lit "- - foo") = [lit "- foo"] /\
  parseObjectivesText (joinObjectives (parseObjectivesText (lit "- - foo")))
    = [lit "foo"] /\
  parseObjectivesText (joinObjectives (parseObjectivesText (lit "- - foo")))
    <> parseObjectivesText (lit "- - foo").
Proof.
  split; [vm_compute; reflexivity|].
  split; [vm_compute; reflexivity|].
  vm_compute. discriminate.
Qed.

End ObjectivesFacts.

(* ================================================================== *)
(** * Properties of the session store *)
(* ================================================================== *)

Module StoreFacts.
Import JS Store.

Lemma str_eqb_spec (a b : jsstring) : reflect (a = b) (str_eqb a b).
Proof.
  revert b; induction a as [|x a IH]; intros [|y b]; simpl;
    try (constructor; congruence).
  destruct (N.eqb_spec x y) as [->|Hxy]; simpl.
  - destruct (IH b) as [->|Hab]; constructor; congruence.
  - constructor; congruence.
Qed.

Lemma str_eqb_refl (a : jsstring) : str_eqb a a = true.
Proof. destruct (str_eqb_spec a a); congruence. Qed.

Lemma str_eqb_eq (a b : jsstring) : str_eqb a b = true <-> a = b.
Proof. destruct (str_eqb_spec a b); split; congruence. Qed.

Lemma str_eqb_neq (a b : jsstring) : str_eqb a b = false <-> a <> b.
Proof. destruct (str_eqb_spec a b); split; congruence. Qed.

(** The design steps after a run of [addDesignStep] calls are the old
    ones followed by the new ones, in call order. *)
Lemma designSteps_after_adds (steps : list DesignStep) (st : state) :
  designSteps (run_actions (map AddDesignStep steps) st) = designSteps st ++ steps.
Proof.
  unfold run_actions. revert st.
  induction steps as [|s steps IH]; intros st; simpl.
  - now rewrite app_nil_r.
  - rewrite IH; simpl. now rewrite <- app_assoc.
Qed.

(** [find] returns the earliest element satisfying the test. *)
Lemma find_first {A} (f : A -> bool) (l : list A) (x : A) :
  find f l = Some x <->
  exists l1 l2, l = l1 ++ x :: l2 /\ f x = true /\ Forall (fun y => f y = false) l1.
Proof.
  induction l as [|a l IH]; simpl.
  - split; [discriminate|]. intros (l1 & l2 & H & _). now destruct l1.
  - destruct (f a) eqn:Ea.
    + split.
      * intros [= ->]. exists [], l. now repeat split.
      * intros (l1 & l2 & H & Hx & Hl1). destruct l1 as [|b l1]; simpl in H.
        -- now injection H as ->.
        -- injection H as -> _. inversion Hl1; congruence.
    + rewrite IH. split.
      * intros (l1 & l2 & -> & Hx & Hl1). exists (a :: l1), l2.
        repeat split; auto.
      * intros (l1 & l2 & H & Hx & Hl1). destruct l1 as [|b l1]; simpl in H.
        -- injection H as -> _. congruence.
        -- injection H as -> ->. exists l1, l2. inversion Hl1; auto.
Qed.

Lemma find_none {A} (f : A -> bool) (l : list A) :
  find f l = None <-> Forall (fun y => f y = false) l.
Proof.
  induction l as [|a l IH]; simpl.
  - split; auto.
  - destruct (f a) eqn:Ea.
    + split; [discriminate|]. intros H; inversion H; congruence.
    + rewrite IH. split; [auto|]. intros H; now inversion H.
Qed.

(** C2: after any sequence of [addDesignStep] calls on a fresh store,
    [currentStepForPhase p] is the first-inserted step whose phase is [p]
    (every step inserted before it has another phase), and it is none
    exactly when no inserted step has phase [p]. *)
Theorem currentStepForPhase_first_inserted :
  forall (steps : list DesignStep) (p : jsstring),
    let st := run_actions (map AddDesignStep steps) initial in
    (forall s : DesignStep,
        currentStepForPhase st p = Some s <->
        exists earlier later,
          steps = earlier ++ s :: later /\ phase s = p /\
          Forall (fun x => phase x <> p) earlier) /\
    (currentStepForPhase st p = None <-> Forall (fun x => phase x <> p) steps).
Proof.
  intros steps p st. unfold currentStepForPhase, st.
  rewrite designSteps_after_adds. simpl. split.
  - intros s. rewrite find_first. split.
    + intros (l1 & l2 & H & Hs & Hl1). exists l1, l2. repeat split; auto.
      * now apply str_eqb_eq.
      * eapply Forall_impl; [|exact Hl1]. intros x Hx. now apply str_eqb_neq.
    + intros (l1 & l2 & H & Hs & Hl1). exists l1, l2. repeat split; auto.
      * now apply str_eqb_eq.
      * eapply Forall_impl; [|exact Hl1]. intros x Hx. now apply str_eqb_neq.
  - rewrite find_none. split; intros H; (eapply Forall_impl; [|exact H]);
      intros x Hx; now apply str_eqb_neq.
Qed.

(** C3: whatever calls were made on the store before, [resetSession]
    leaves every ref at the value it was created with, and the getters
    then answer as on a fresh store. *)
Theorem resetSession_restores_initial :
  forall (calls : list action) (st0 : state),
    let st := resetSession (run_actions calls st0) in
    st = initial /\
    currentSession st = None /\
    sessionId st = None /\
    courseContext st = emptyForm /\
    designSteps st = [] /\
    recommendations st = [] /\
    userActions st = [] /\
    objectiveAnalysis st = None /\
    activitySuggestions st = [] /\
    isLoading st = false /\
    isGenerating st = false /\
    currentPhase st = PhaseContext /\
    hasActiveSession st = false /\
    (forall p, currentStepForPhase st p = None) /\
    (forall id, recommendationsForStep st id = []).
Proof.
  intros calls st0 st. unfold st, resetSession.
  repeat split; reflexivity.
Qed.

(** C6: after [setCourseContext f] and then [updateLearningObjectives x]
    the stored form has [x] as its objectives and the other four fields
    of [f]. *)
Theorem updateLearningObjectives_frame :
  forall (st : state) (f : CourseContextForm) (x : jsstring),
    let c := courseContext (updateLearningObjectives x (setCourseContext f st)) in
    learning_objectives c = x /\
    course_title c = course_title f /\
    level c = level f /\
    modality c = modality f /\
    constraints c = constraints f.
Proof.
  intros st f x c. unfold c. simpl. repeat split.
Qed.

(** C7: [setSession s] stores [s] and its id, leaves every other ref of
    the store as it was, and makes [hasActiveSession] true. *)
Theorem setSession_frame :
  forall (s : Session) (st : state),
    let st' := setSession s st in
    currentSession st' = Some s /\
    sessionId st' = Some (session_id_of s) /\
    designSteps st' = designSteps st /\
    recommendations st' = recommendations st /\
    userActions st' = userActions st /\
    courseContext st' = courseContext st /\
    objectiveAnalysis st' = objectiveAnalysis st /\
    activitySuggestions st' = activitySuggestions st /\
    isLoading st' = isLoading st /\
    isGenerating st' = isGenerating st /\
    currentPhase st' = currentPhase st /\
    hasActiveSession st' = true.
Proof.
  intros s st st'. unfold st'. simpl. repeat split.
Qed.

End StoreFacts.

(* ================================================================== *)
(** * Properties of the export downloads *)
(* ================================================================== *)

Module ApiFacts.
Import JS Api.

Lemma uint_digits (d : Decimal.uint) :
  allDigits (lit (NilEmpty.string_of_uint d)).
Proof.
  unfold allDigits, lit.
  induction d; simpl; constructor; auto.
Qed.

Lemma digits_allDigits (n : N) : allDigits (digits n).
Proof.
  unfold digits, NilZero.string_of_uint.
  destruct (N.to_uint n); try apply uint_digits.
  repeat constructor.
Qed.

Lemma pad_allDigits (w : nat) (s : jsstring) : allDigits s -> allDigits (pad w s).
Proof.
  intros H. unfold pad, allDigits. apply Forall_app. split; auto.
  apply Forall_forall. intros c Hc. apply repeat_spec in Hc. now subst.
Qed.

Lemma pad_length (w : nat) (s : jsstring) :
  length s <= w -> length (pad w s) = w.
Proof.
  intros H. unfold pad. rewrite length_app, repeat_length.
  unfold jsstring, char in *. lia.
Qed.

(** A check over an initial segment of the numbers, run by evaluation. *)
Lemma below_forallb (P : N -> bool) (k : N) :
  forallb P (map N.of_nat (List.seq 0 (N.to_nat k))) = true ->
  forall n : N, (n < k)%N -> P n = true.
Proof.
  intros H n Hn. rewrite forallb_forall in H. apply H.
  apply in_map_iff. exists (N.to_nat n). split; [apply N2Nat.id|].
  apply in_seq. lia.
Qed.

Lemma digits_length_4 (n : N) : (n < 10000)%N -> length (digits n) <= 4.
Proof.
  intros H. apply Nat.leb_le.
  apply (below_forallb (fun n => Nat.leb (length (digits n)) 4) (k := 10000%N));
    [vm_compute; reflexivity | exact H].
Qed.

Lemma digits_length_2 (n : N) : (n < 100)%N -> length (digits n) <= 2.
Proof.
  intros H. apply Nat.leb_le.
  apply (below_forallb (fun n => Nat.leb (length (digits n)) 2) (k := 100%N));
    [vm_compute; reflexivity | exact H].
Qed.

Lemma four_digits (s : jsstring) :
  length s = 4 -> allDigits s ->
  exists a b c d, s = [a; b; c; d] /\
    digit a = true /\ digit b = true /\ digit c = true /\ digit d = true.
Proof.
  destruct s as [|a [|b [|c [|d [|e s]]]]]; try discriminate.
  intros _ H. exists a, b, c, d. split; auto.
  repeat match goal with
         | F : allDigits (_ :: _) |- _ => inversion F; clear F; subst
         | F : Forall _ (_ :: _) |- _ => inversion F; clear F; subst
         end; auto.
Qed.

Lemma two_digits (s : jsstring) :
  length s = 2 -> allDigits s ->
  exists a b, s = [a; b] /\ digit a = true /\ digit b = true.
Proof.
  destruct s as [|a [|b [|c s]]]; try discriminate.
  intros _ H. exists a, b. split; auto.
  repeat match goal with
         | F : allDigits (_ :: _) |- _ => inversion F; clear F; subst
         | F : Forall _ (_ :: _) |- _ => inversion F; clear F; subst
         end; auto.
Qed.

Lemma dateString_shape (d : Date) : fourDigitYear d -> isYMD (dateString d) = true.
Proof.
  intros (Hy & Hm & Hd). unfold dateString, yearString.
  replace ((0 <=? utcFullYear d) && (utcFullYear d <=? 9999))%Z with true
    by (symmetry; apply andb_true_iff; split; apply Z.leb_le; lia).
  destruct (four_digits (s := pad 4 (digits (Z.to_N (utcFullYear d)))))
    as (y1 & y2 & y3 & y4 & -> & ? & ? & ? & ?).
  { apply pad_length, digits_length_4. lia. }
  { apply pad_allDigits, digits_allDigits. }
  destruct (two_digits (s := pad 2 (digits (utcMonth d + 1))))
    as (m1 & m2 & -> & ? & ?).
  { apply pad_length, digits_length_2. lia. }
  { apply pad_allDigits, digits_allDigits. }
  destruct (two_digits (s := pad 2 (digits (utcDate d))))
    as (d1 & d2 & -> & ? & ?).
  { apply pad_length, digits_length_2. lia. }
  { apply pad_allDigits, digits_allDigits. }
  simpl. repeat match goal with E : digit _ = true |- _ => rewrite E; clear E end.
  reflexivity.
Qed.

Lemma notin_app {A} (x : A) (a b : list A) :
  ~ In x a -> ~ In x b -> ~ In x (a ++ b).
Proof. intros Ha Hb H. apply in_app_or in H. tauto. Qed.

Lemma digits_no_T (s : jsstring) : allDigits s -> ~ In 84%N s.
Proof.
  intros Hs Hin. unfold allDigits in Hs. rewrite Forall_forall in Hs.
  apply Hs in Hin. discriminate.
Qed.

(** The date part of an ISO string holds no ['T'], whatever the year. *)
Lemma dateString_no_T (d : Date) : ~ In 84%N (dateString d).
Proof.
  assert (Hpad : forall w n, ~ In 84%N (pad w (digits n))).
  { intros w n. apply digits_no_T, pad_allDigits, digits_allDigits. }
  assert (Hdash : ~ In 84%N (lit "-")).
  { simpl. intros [H|[]]. discriminate. }
  unfold dateString.
  apply notin_app;
    [|apply notin_app; [exact Hdash|];
      apply notin_app; [apply Hpad|];
      apply notin_app; [exact Hdash | apply Hpad]].
  unfold yearString.
  destruct ((0 <=? utcFullYear d) && (utcFullYear d <=? 9999))%Z;
    [apply Hpad|].
  apply notin_app; [|apply Hpad].
  destruct (utcFullYear d <? 0)%Z; simpl; intros [H|[]]; discriminate.
Qed.

Lemma split_first_piece (sep : char) (a r : jsstring) :
  ~ In sep a -> first_piece (split sep (a ++ sep :: r)) = a.
Proof.
  induction a as [|c a IH]; simpl; intros H.
  - now rewrite N.eqb_refl.
  - destruct (N.eqb_spec c sep) as [->|Hc]; [tauto|].
    assert (IH' : first_piece (split sep (a ++ sep :: r)) = a) by tauto.
    destruct (split sep (a ++ sep :: r)); simpl in *; now subst.
Qed.

Lemma iso_date_part (d : Date) :
  first_piece (split 84%N (toISOString d)) = dateString d.
Proof.
  unfold toISOString. change (lit "T") with [84%N]. simpl app at 2.
  apply split_first_piece, dateString_no_T.
Qed.

(** ** Printed numbers denote what was printed *)

Lemma lit_cons (c : ascii) (r : string) : lit (String c r) = N_of_ascii c :: lit r.
Proof. reflexivity. Qed.

Lemma digitsValue_step (acc : Z) (c : char) (r : jsstring) (k : Z) :
  digit c = true -> (Z.of_N c - 48 = k)%Z ->
  digitsValue acc (c :: r) = digitsValue (10 * acc + k) r.
Proof. intros Hd <-. cbn [digitsValue]. now rewrite Hd. Qed.

Lemma digitsValue_uint_acc (d : Decimal.uint) : forall acc : positive,
  digitsValue (Z.pos acc) (lit (NilEmpty.string_of_uint d))
  = Some (Z.pos (Pos.of_uint_acc d acc)).
Proof.
  induction d; intros acc; cbn [NilEmpty.string_of_uint Pos.of_uint_acc];
    try reflexivity;
    rewrite lit_cons;
    (erewrite digitsValue_step; [|vm_compute; reflexivity|vm_compute; reflexivity]);
    rewrite <- IHd; f_equal; lia.
Qed.

Lemma digitsValue_uint (d : Decimal.uint) :
  digitsValue 0 (lit (NilEmpty.string_of_uint d)) = Some (Z.of_N (Pos.of_uint d)).
Proof.
  induction d; cbn [NilEmpty.string_of_uint Pos.of_uint]; try reflexivity;
    rewrite lit_cons;
    (erewrite digitsValue_step; [|vm_compute; reflexivity|vm_compute; reflexivity]);
    [exact IHd | ..];
    cbn [Z.of_N]; rewrite <- digitsValue_uint_acc; f_equal.
Qed.

Lemma to_uint_head (p : positive) (l : Decimal.uint) :
  Pos.to_uint p <> Decimal.D0 l.
Proof.
  intros H.
  assert (E : Decimal.unorm (Pos.to_uint p) = Pos.to_uint p).
  { rewrite <- DecimalPos.Unsigned.to_of, DecimalPos.Unsigned.of_to. reflexivity. }
  destruct (Decimal.nzhead (Pos.to_uint p)) eqn:Hn;
    try (rewrite DecimalFacts.unorm_nzhead in E by congruence;
         rewrite H in E; exact (DecimalFacts.nzhead_nonzero _ _ E)).
  apply DecimalFacts.unorm_0 in Hn. rewrite E in Hn.
  exact (DecimalPos.Unsigned.to_uint_nonzero _ Hn).
Qed.

Lemma digitsValue_pos (p : positive) :
  digitsValue 0 (lit (NilEmpty.string_of_uint (Pos.to_uint p))) = Some (Z.pos p).
Proof. now rewrite digitsValue_uint, DecimalPos.Unsigned.of_to. Qed.

Lemma uint_string_head (p : positive) :
  exists c r, lit (NilZero.string_of_uint (Pos.to_uint p)) = c :: r /\
              NilZero.string_of_uint (Pos.to_uint p)
              = NilEmpty.string_of_uint (Pos.to_uint p) /\
              (c =? 45)%N = false /\ (c =? 48)%N = false.
Proof.
  pose proof (@to_uint_head p) as H0.
  pose proof (DecimalPos.Unsigned.to_uint_nonnil p) as Hn.
  destruct (Pos.to_uint p) as [|l|l|l|l|l|l|l|l|l|l];
    [congruence | exfalso; exact (H0 l eq_refl) | ..];
    cbn [NilZero.string_of_uint NilEmpty.string_of_uint]; rewrite lit_cons;
    eexists; eexists; repeat split.
Qed.

(** The numeral printed for an integer denotes that integer. *)
Lemma numeralValue_numberToString (n : Z) :
  numeralValue (numberToString n) = Some n.
Proof.
  unfold numberToString. destruct n as [|p|p]; [reflexivity| |];
    cbn [Z.to_int NilZero.string_of_int];
    destruct (uint_string_head p) as (c & r & E & E' & H45 & H48).
  - unfold numeralValue. rewrite E, H45, H48, <- E, E'. apply digitsValue_pos.
  - rewrite lit_cons, E. unfold numeralValue.
    change (N_of_ascii "-" =? 45)%N with true. cbn iota. rewrite H48, <- E, E'.
    now rewrite digitsValue_pos.
Qed.

Lemma digitsValue_zeros (k : nat) (s : jsstring) :
  digitsValue 0 (repeat 48%N k ++ s) = digitsValue 0 s.
Proof. induction k as [|k IH]; [reflexivity|]. exact IH. Qed.

(** A padded run of digits denotes the number printed. *)
Lemma digitsValue_pad (w : nat) (n : N) :
  digitsValue 0 (pad w (digits n)) = Some (Z.of_N n).
Proof.
  unfold pad. rewrite digitsValue_zeros. unfold digits, N.to_uint.
  destruct n as [|p]; [reflexivity|].
  destruct (uint_string_head p) as (_ & _ & _ & E' & _). rewrite E'.
  apply digitsValue_pos.
Qed.

(** C8: for every session id that is a safe integer and every date whose
    year is printed with four digits (0 to 9999), a Word or PDF download
    that receives its blob is saved as [id-dss-session-{id}-{date}.docx]
    or [.pdf], where [{id}] is the decimal numeral of the session id and
    [{date}] is the UTC date of the moment of the download in the form
    YYYY-MM-DD: four digits that denote the year, two that denote the
    month counted from 1, and two that denote the day. *)
Theorem export_file_names :
  forall (sessionId : Z) (now : Date) (blob : list N),
    safeInteger sessionId ->
    fourDigitYear now ->
    let id := numberToString sessionId in
    let year := pad 4 (digits (Z.to_N (utcFullYear now))) in
    let month := pad 2 (digits (utcMonth now + 1)) in
    let day := pad 2 (digits (utcDate now)) in
    let date := year ++ lit "-" ++ month ++ lit "-" ++ day in
    option_map file_name (downloadSessionExportDocx sessionId now (Resolved blob))
      = Some (lit "id-dss-session-" ++ id ++ lit "-" ++ date ++ lit ".docx") /\
    option_map file_name (downloadSessionExportPdf sessionId now (Resolved blob))
      = Some (lit "id-dss-session-" ++ id ++ lit "-" ++ date ++ lit ".pdf") /\
    numeralValue id = Some sessionId /\
    isYMD date = true /\
    length year = 4 /\ digitsValue 0 year = Some (utcFullYear now) /\
    length month = 2 /\
    digitsValue 0 month = Some (Z.of_N (utcMonth now) + 1)%Z /\
    length day = 2 /\ digitsValue 0 day = Some (Z.of_N (utcDate now)).
Proof.
  intros sessionId now blob _ Hv id year month day date.
  assert (Hdate : dateString now = date).
  { destruct Hv as (Hy & _). unfold dateString, yearString.
    replace ((0 <=? utcFullYear now) && (utcFullYear now <=? 9999))%Z with true
      by (symmetry; apply andb_true_iff; split; apply Z.leb_le; lia).
    reflexivity. }
  cbn [downloadSessionExportDocx downloadSessionExportPdf option_map file_name].
  rewrite iso_date_part, Hdate.
  split; [reflexivity|]. split; [reflexivity|].
  split; [apply numeralValue_numberToString|].
  split; [rewrite <- Hdate; now apply dateString_shape|].
  destruct Hv as (Hy & Hm & Hd).
  split; [apply pad_length, digits_length_4; lia|].
  split; [unfold year; rewrite digitsValue_pad; f_equal; lia|].
  split; [apply pad_length, digits_length_2; lia|].
  split; [unfold month; rewrite digitsValue_pad; f_equal; lia|].
  split; [apply pad_length, digits_length_2; lia|].
  unfold day. now rewrite digitsValue_pad.
Qed.

Lemma export_file_names_witness :
  option_map file_name (downloadSessionExportDocx 42 someDay (Resolved [80%N; 75%N]))
    = Some (lit "id-dss-session-42-2024-03-09.docx") /\
  option_map file_name (downloadSessionExportPdf 42 someDay (Resolved [80%N; 75%N]))
    = Some (lit "id-dss-session-42-2024-03-09.pdf").
Proof.
  assert (Hs : safeInteger 42) by (unfold safeInteger; lia).
  assert (H : fourDigitYear someDay) by (unfold fourDigitYear; simpl; lia).
  destruct (@export_file_names 42 someDay [80%N; 75%N] Hs H) as (Hd & Hp & _).
  split; (etransitivity; [eassumption | vm_compute; reflexivity]).
Defined.

(** C8 as worded does not hold for every date: from the year 10000 on
    [toISOString] prints a sign and six digits for the year, so the date
    part of the file name is not of the form YYYY-MM-DD. *)
Lemma export_date_beyond_9999 :
  option_map file_name
    (downloadSessionExportDocx 42 newYear10000 (Resolved [80%N; 75%N]))
    = Some (lit "id-dss-session-42-+010000-01-01.docx") /\
  option_map file_name
    (downloadSessionExportPdf 42 newYear10000 (Resolved [80%N; 75%N]))
    = Some (lit "id-dss-session-42-+010000-01-01.pdf") /\
  isYMD (first_piece (split 84%N (toISOString newYear10000))) = false.
Proof.
  split; [vm_compute; reflexivity|].
  split; vm_compute; reflexivity.
Qed.

End ApiFacts.

(* ================================================================== *)
(** * Properties of the dirty-tracking reconciler *)
(* ================================================================== *)

Module ReconcilerFacts.
Import JS Store Api Reconciler.
Import StoreFacts.

Lemma isDirty_true (v : view) :
  isDirty v = true <-> objectivesDraft v <> lastSavedObjectives v.
Proof.
  unfold isDirty. rewrite !JSFacts.or_empty_id, negb_true_iff.
  apply str_eqb_neq.
Qed.

Lemma isDirty_false (v : view) :
  isDirty v = false <-> objectivesDraft v = lastSavedObjectives v.
Proof.
  unfold isDirty. rewrite !JSFacts.or_empty_id, negb_false_iff.
  apply str_eqb_eq.
Qed.

(** ** The watcher *)

Lemma watcher_clean (v : view) (x : jsstring) :
  hasSavedBaseline v = true ->
  objectivesDraft v = lastSavedObjectives v ->
  onStoreObjectives x v = set_objectivesDraft x v.
Proof.
  intros Hh H. unfold onStoreObjectives. rewrite Hh. simpl.
  apply isDirty_false in H. rewrite H. simpl.
  now rewrite JSFacts.or_empty_id.
Qed.

Lemma watcher_dirty (v : view) (x : jsstring) :
  hasSavedBaseline v = true ->
  objectivesDraft v <> lastSavedObjectives v ->
  onStoreObjectives x v = v.
Proof.
  intros Hh H. unfold onStoreObjectives. rewrite Hh. simpl.
  apply isDirty_true in H. now rewrite H.
Qed.

(** Whatever the watcher does, it marks the view hydrated and leaves the
    store alone. *)
Lemma watcher_hydrates (v : view) (x : jsstring) :
  hasSavedBaseline (onStoreObjectives x v) = true /\
  store (onStoreObjectives x v) = store v /\
  stepId (onStoreObjectives x v) = stepId v.
Proof.
  unfold onStoreObjectives.
  destruct (hasSavedBaseline v) eqn:Hh; simpl; auto.
  destruct (isDirty v); simpl; auto.
Qed.

Lemma storeWrite_dirty (v : view) (f : Store.state -> Store.state) :
  hasSavedBaseline v = true ->
  objectivesDraft v <> lastSavedObjectives v ->
  storeWrite f v = set_store (f (store v)) v.
Proof.
  intros Hh H. unfold storeWrite.
  destruct (str_eqb (watched (store v)) (watched (f (store v)))); auto.
  now apply watcher_dirty.
Qed.

Lemma storeWrite_store (v : view) (f : Store.state -> Store.state) :
  store (storeWrite f v) = f (store v).
Proof.
  unfold storeWrite.
  destruct (str_eqb (watched (store v)) (watched (f (store v)))); auto.
  now rewrite (proj1 (proj2 (watcher_hydrates _ _))).
Qed.

(** ** Every reachable view has been hydrated *)

Lemma storeWrite_hydrated (v : view) (f : Store.state -> Store.state) :
  hydrated v -> hydrated (storeWrite f v).
Proof.
  unfold hydrated, storeWrite. intros H.
  destruct (str_eqb (watched (store v)) (watched (f (store v)))); auto.
  apply watcher_hydrates.
Qed.

Lemma persistObjectives_hydrated (v : view) updated c upd act :
  hydrated v -> hydrated (fst (persistObjectives updated c upd act v)).
Proof.
  intros H. unfold persistObjectives.
  pose proof (storeWrite_hydrated (updateLearningObjectives updated) H) as H1.
  destruct (truthy_num _); [destruct upd|]; simpl;
    repeat match goal with
           | |- context [if ?b then _ else _] => destruct b
           | |- context [match ?r with Rejected _ => _ | Resolved _ => _ end] =>
               destruct r
           end; simpl; auto.
Qed.

Lemma handle_hydrated (e : event) (v : view) : hydrated v -> hydrated (handle e v).
Proof.
  intros H. destruct e; simpl.
  - exact H.
  - now apply storeWrite_hydrated.
  - unfold saveObjectives. destruct (negb _); auto.
    match goal with
    | |- context [persistObjectives ?u ?c ?r ?a ?w] =>
        pose proof (@persistObjectives_hydrated w u c r a H) as Hp;
        destruct (persistObjectives u c r a w) as [w' []]
    end; exact Hp.
  - unfold runAnalysis. destruct (sessionId (store v)) as [sid|]; auto.
    destruct (sid =? 0)%Z; auto.
    unfold persistBeforeAnalysis.
    match goal with
    | |- context [storeWrite ?f ?w] =>
        pose proof (@storeWrite_hydrated w f H) as Hs;
        destruct upd; destruct ana; simpl; auto
    end;
    match goal with
    | |- context [storeWrite ?f ?w] => apply (@storeWrite_hydrated w f); exact Hs
    end.
  - unfold insertImprovedObjectives. destruct (negb _); auto.
    apply persistObjectives_hydrated. exact H.
  - unfold replaceWithImprovedObjectives. destruct (negb _); auto.
    apply persistObjectives_hydrated. exact H.
Qed.

Lemma reachable_hydrated (v : view) : reachable v -> hydrated v.
Proof.
  intros (s & evs & ->). unfold after.
  assert (H0 : hydrated (mount s)) by (unfold mount; apply watcher_hydrates).
  revert H0. generalize (mount s).
  induction evs as [|e evs IH]; intros w Hw; simpl; auto.
  apply IH. now apply handle_hydrated.
Qed.

(** ** External synchronisation *)

(** C4: on a mounted view, when the store's learning objectives change
    (through a store action or any other mutation of the store), a clean
    field (draft equal to baseline) gets the new store value as its
    draft, and a dirty field (draft different from baseline) keeps its
    draft. *)
Theorem external_change_respects_dirty :
  forall (v : view) (f : Store.state -> Store.state),
    reachable v ->
    watched (f (store v)) <> watched (store v) ->
    let v' := storeWrite f v in
    store v' = f (store v) /\
    (objectivesDraft v = lastSavedObjectives v ->
       objectivesDraft v' = watched (store v')) /\
    (objectivesDraft v <> lastSavedObjectives v ->
       objectivesDraft v' = objectivesDraft v).
Proof.
  intros v f Hr Hch v'. apply reachable_hydrated in Hr.
  split; [apply storeWrite_store|]. split; intros H.
  - unfold v'. rewrite storeWrite_store. unfold storeWrite.
    destruct (str_eqb_spec (watched (store v)) (watched (f (store v))))
      as [E|_]; [congruence|].
    now rewrite watcher_clean.
  - unfold v'. now rewrite storeWrite_dirty.
Qed.

Lemma external_change_respects_dirty_witness :
  objectivesDraft (storeWrite (perform (UpdateLearningObjectives (lit "new")))
                     (after [] store7)) = lit "new" /\
  objectivesDraft (storeWrite (perform (UpdateLearningObjectives (lit "new")))
                     typed_abc) = lit "abc".
Proof.
  split.
  - destruct (@external_change_respects_dirty (after [] store7)
                (perform (UpdateLearningObjectives (lit "new"))))
      as (_ & Hclean & _).
    + exists store7, []. reflexivity.
    + vm_compute. discriminate.
    + rewrite Hclean; reflexivity.
  - destruct (@external_change_respects_dirty typed_abc
                (perform (UpdateLearningObjectives (lit "new"))))
      as (_ & _ & Hdirty).
    + exists store7, [Typed (lit "abc")]. reflexivity.
    + vm_compute. discriminate.
    + rewrite Hdirty; [reflexivity | vm_compute; discriminate].
Defined.

(** ** Persisting the draft *)

Lemma truthy_num_runs (v : view) :
  truthy_num (sessionId (store v)) = true ->
  exists sid, sessionId (store v) = Some sid /\ (sid =? 0)%Z = false.
Proof.
  unfold truthy_num. destruct (sessionId (store v)) as [sid|]; [|discriminate].
  intros H. exists sid. split; auto. now apply negb_true_iff.
Qed.

(** On a dirty, hydrated view with an active session the watcher does
    not interfere, and [persistObjectives] comes down to this. *)
Lemma persistObjectives_dirty (v : view) (updated comment : jsstring)
    (upd : reply Session) (act : reply UserAction) :
  hydrated v ->
  truthy_num (sessionId (store v)) = true ->
  objectivesDraft v <> lastSavedObjectives v ->
  persistObjectives updated comment upd act v =
  match upd with
  | Rejected _ =>
      (set_store (updateLearningObjectives updated (store v)) v, Threw)
  | Resolved session =>
      (set_lastSavedObjectives
         (nullish (session_learning_objectives session) updated)
         (set_store (updateLearningObjectives updated (store v)) v),
       Returned)
  end.
Proof.
  intros Hr Hs Hd. unfold persistObjectives.
  rewrite storeWrite_dirty by assumption. simpl.
  replace (truthy_num (sessionId (store v))) with true by (symmetry; exact Hs).
  destruct upd; auto.
  destruct (truthy_num (stepId v)); destruct act; reflexivity.
Qed.

(** The Save button on a dirty field whose request fails: the error is
    shown, and baseline and draft stay as they were. *)
Lemma saveObjectives_failure (v : view) detail (act : reply UserAction) :
  reachable v ->
  truthy_num (sessionId (store v)) = true ->
  objectivesDraft v <> lastSavedObjectives v ->
  let v' := saveObjectives (Rejected detail) act v in
  errorMessage v' = lit "Save failed. Please try again." /\
  isSaving v' = false /\
  lastSavedObjectives v' = lastSavedObjectives v /\
  objectivesDraft v' = objectivesDraft v.
Proof.
  intros Hr Hs Hd v'. apply reachable_hydrated in Hr.
  unfold v', saveObjectives. rewrite Hs. cbn [negb].
  rewrite persistObjectives_dirty; auto.
Qed.

(** C1, as the code has it: on a mounted view with an active session,
    baseline [B] and draft [D <> B],
    - a rejected [updateSession] makes [persistObjectives] throw and
      [runAnalysis] carry on, and either way the baseline is still [B],
      the draft still [D] and the field still dirty;
    - a resolved [updateSession] in [persistObjectives] leaves the draft
      [D] and sets the baseline to the [learning_objectives] of the
      returned session, or to the text that was sent when the returned
      session carries none. *)
Theorem persist_reconciles_baseline :
  forall (v : view) (updated comment : jsstring) (act : reply UserAction),
    reachable v ->
    truthy_num (sessionId (store v)) = true ->
    objectivesDraft v <> lastSavedObjectives v ->
    (forall detail,
        let r := persistObjectives updated comment (Rejected detail) act v in
        snd r = Threw /\
        lastSavedObjectives (fst r) = lastSavedObjectives v /\
        objectivesDraft (fst r) = objectivesDraft v /\
        isDirty (fst r) = true) /\
    (forall detail ana now,
        let v' := runAnalysis (Rejected detail) ana now v in
        lastSavedObjectives v' = lastSavedObjectives v /\
        objectivesDraft v' = objectivesDraft v /\
        isDirty v' = true) /\
    (forall session,
        let r := persistObjectives updated comment (Resolved session) act v in
        snd r = Returned /\
        objectivesDraft (fst r) = objectivesDraft v /\
        lastSavedObjectives (fst r) =
          match session_learning_objectives session with
          | Some sv => sv
          | None => updated
          end).
Proof.
  intros v updated comment act Hr Hs Hd.
  apply reachable_hydrated in Hr.
  split; [|split].
  - intros detail r. unfold r. rewrite persistObjectives_dirty by assumption.
    simpl. repeat split; auto. now apply isDirty_true.
  - intros detail ana now v'. unfold v', runAnalysis.
    destruct (truthy_num_runs v Hs) as (sid & -> & ->).
    unfold persistBeforeAnalysis.
    rewrite storeWrite_dirty; [|exact Hr|exact Hd].
    destruct ana as [d|result]; simpl.
    + repeat split; auto.
      apply isDirty_true. exact Hd.
    + rewrite storeWrite_dirty; [|exact Hr|exact Hd]. simpl.
      repeat split; auto. apply isDirty_true. exact Hd.
  - intros session r. unfold r. rewrite persistObjectives_dirty by assumption.
    simpl. repeat split; auto.
Qed.

(** The persistence step of [runAnalysis] on a dirty field, when the
    request succeeds: the baseline becomes the draft, whatever session
    the server returned. *)
Lemma runAnalysis_baseline_is_draft (v : view) (session : Session) ana now :
  reachable v ->
  truthy_num (sessionId (store v)) = true ->
  objectivesDraft v <> lastSavedObjectives v ->
  let v' := runAnalysis (Resolved session) ana now v in
  lastSavedObjectives v' = objectivesDraft v /\
  objectivesDraft v' = objectivesDraft v.
Proof.
  intros Hr Hs Hd v'. apply reachable_hydrated in Hr.
  unfold v', runAnalysis.
  destruct (truthy_num_runs v Hs) as (sid & -> & ->).
  unfold persistBeforeAnalysis.
  rewrite storeWrite_dirty; [|exact Hr|exact Hd].
  destruct ana as [d|result]; simpl; auto.
  unfold storeWrite. simpl. rewrite str_eqb_refl. simpl. auto.
Qed.

Lemma persist_reconciles_baseline_witness :
  objectivesDraft typed_abc = lit "abc" /\
  lastSavedObjectives typed_abc = [] /\
  lastSavedObjectives
    (fst (persistObjectives (lit "abc") (lit "Saved objectives edits")
            (Rejected None) (Resolved someAction) typed_abc)) = [] /\
  lastSavedObjectives
    (fst (persistObjectives (lit "abc") (lit "Saved objectives edits")
            (Resolved session7_upper) (Resolved someAction) typed_abc))
    = lit "ABC".
Proof.
  split; [reflexivity|]. split; [reflexivity|].
  destruct (@persist_reconciles_baseline typed_abc (lit "abc")
              (lit "Saved objectives edits") (Resolved someAction))
    as (Hfail & _ & Hok).
  - exists store7, [Typed (lit "abc")]. reflexivity.
  - reflexivity.
  - vm_compute. discriminate.
  - split.
    + destruct (Hfail None) as (_ & Hb & _). rewrite Hb. reflexivity.
    + destruct (Hok session7_upper) as (_ & _ & Hb). rewrite Hb. reflexivity.
Defined.

(** C1 as the specification words it does not hold of the code.  With
    draft ["abc"] over an empty baseline: when the patched session comes
    back without objectives, [persistObjectives] takes the sent draft as
    the baseline; and although the server answers ["ABC"], the
    persistence step of [runAnalysis] takes the draft as the baseline. *)
Lemma baseline_not_always_server_value :
  objectivesDraft typed_abc = lit "abc" /\
  lastSavedObjectives typed_abc = [] /\
  session_learning_objectives session7 = None /\
  lastSavedObjectives
    (fst (persistObjectives (lit "abc") (lit "Saved objectives edits")
            (Resolved session7) (Resolved someAction) typed_abc))
    = lit "abc" /\
  session_learning_objectives session7_upper = Some (lit "ABC") /\
  lastSavedObjectives
    (runAnalysis (Resolved session7_upper) (Rejected None)
       (lit "2024-03-09T23:05:02.000Z") typed_abc)
    = lit "abc" /\
  lit "abc" <> lit "ABC".
Proof.
  repeat split; try reflexivity. vm_compute. discriminate.
Qed.

End ReconcilerFacts.

(* ================================================================== *)
(** * Further properties of the session store *)
(* ================================================================== *)

Module StoreHistoryFacts.
Import JS Store StoreHistory.
Import StoreFacts.

Lemma extends_refl {A} (l : list A) : extends l l.
Proof. exists []. now rewrite app_nil_r. Qed.

Lemma extends_trans {A} (a b c : list A) :
  extends b a -> extends c b -> extends c a.
Proof. intros (x & ->) (y & ->). exists (x ++ y). now rewrite app_assoc. Qed.

Lemma perform_extends (a : action) (st : state) :
  isReset a = false ->
  extends (designSteps (perform a st)) (designSteps st) /\
  extends (recommendations (perform a st)) (recommendations st) /\
  extends (userActions (perform a st)) (userActions st).
Proof.
  destruct a; simpl; try discriminate; intros _;
    repeat split; try apply extends_refl; eexists; reflexivity.
Qed.

Lemma run_extends (l : list action) : forall st,
  resetFree l ->
  extends (designSteps (run_actions l st)) (designSteps st) /\
  extends (recommendations (run_actions l st)) (recommendations st) /\
  extends (userActions (run_actions l st)) (userActions st).
Proof.
  unfold resetFree, run_actions.
  induction l as [|a l IH]; intros st H; simpl in *.
  - repeat split; apply extends_refl.
  - apply andb_true_iff in H. destruct H as [Ha Hl].
    apply negb_true_iff in Ha.
    destruct (@perform_extends a st Ha) as (H1 & H2 & H3).
    destruct (IH (perform a st) Hl) as (K1 & K2 & K3).
    repeat split; eapply extends_trans; eauto.
Qed.

Lemma find_extends {A} (f : A -> bool) (l l' : list A) (x : A) :
  extends l' l -> find f l = Some x -> find f l' = Some x.
Proof.
  intros (more & ->). induction l as [|a l IH]; simpl; [discriminate|].
  destruct (f a); auto.
Qed.

(** X1: the three histories of the store only grow.  Over any sequence
    of calls that does not contain [resetSession], the design steps,
    recommendations and user actions present before are still there, in
    the same order, at the front of the lists afterwards. *)
Theorem histories_append_only :
  forall (calls : list action) (st : state),
    resetFree calls ->
    let st' := run_actions calls st in
    (exists added, designSteps st' = designSteps st ++ added) /\
    (exists added, recommendations st' = recommendations st ++ added) /\
    (exists added, userActions st' = userActions st ++ added).
Proof. intros calls st H. exact (@run_extends calls st H). Qed.

Lemma histories_append_only_witness :
  exists added,
    designSteps (run_actions [SetLoading true; AddDesignStep step2]
                   (addDesignStep step1 initial))
    = designSteps (addDesignStep step1 initial) ++ added.
Proof.
  apply (@histories_append_only [SetLoading true; AddDesignStep step2]
           (addDesignStep step1 initial)).
  reflexivity.
Defined.

(** X2: the answer of [currentStepForPhase] for a phase, once there is
    one, stays the same over every later sequence of calls without
    [resetSession]: running a phase again adds a step but the lookup
    keeps returning the earlier one. *)
Theorem currentStepForPhase_stable :
  forall (calls : list action) (st : state) (p : jsstring) (s : DesignStep),
    resetFree calls ->
    currentStepForPhase st p = Some s ->
    currentStepForPhase (run_actions calls st) p = Some s.
Proof.
  intros calls st p s H Hs. unfold currentStepForPhase in *.
  eapply find_extends; [|exact Hs]. apply (@run_extends calls st H).
Qed.

Lemma currentStepForPhase_stable_witness :
  currentStepForPhase
    (run_actions [SetLoading true; AddDesignStep step2]
       (addDesignStep step1 initial))
    (lit "objective-analysis") = Some step1.
Proof.
  apply (@currentStepForPhase_stable [SetLoading true; AddDesignStep step2]
           (addDesignStep step1 initial)); reflexivity.
Defined.

Lemma perform_session_consistent (a : action) (st : state) :
  sessionId st = option_map session_id_of (currentSession st) ->
  sessionId (perform a st) = option_map session_id_of (currentSession (perform a st)).
Proof. destruct a; simpl; auto. Qed.

(** X3: on a store that starts fresh, after any sequence of calls the
    session id is the id of the current session, and there is none
    exactly when there is no current session; so [hasActiveSession]
    holds exactly when a current session is stored. *)
Theorem session_id_follows_session :
  forall calls : list action,
    let st := run_actions calls initial in
    sessionId st = option_map session_id_of (currentSession st) /\
    (hasActiveSession st = true <-> currentSession st <> None).
Proof.
  intros calls st.
  assert (H : sessionId st = option_map session_id_of (currentSession st)).
  { unfold st, run_actions.
    assert (H0 : sessionId initial
                 = option_map session_id_of (currentSession initial))
      by reflexivity.
    revert H0. generalize initial.
    induction calls as [|a l IH]; intros s0 H0; simpl; auto.
    apply IH. now apply perform_session_consistent. }
  split; [exact H|]. unfold hasActiveSession. rewrite H.
  destruct (currentSession st); simpl; split; congruence.
Qed.

Lemma recommendations_after_adds (recs : list AIRecommendation) (st : state) :
  recommendations (run_actions (map AddRecommendation recs) st)
  = recommendations st ++ recs.
Proof.
  unfold run_actions. revert st.
  induction recs as [|r recs IH]; intros st; simpl.
  - now rewrite app_nil_r.
  - rewrite IH; simpl. now rewrite <- app_assoc.
Qed.

(** After any sequence of [addRecommendation] calls on a fresh
    store, [recommendationsForStep id] holds exactly the added
    recommendations whose [step_id] is [id], each as often as it was
    added and in the order of the calls; one more call appends its
    recommendation to the answer when the step matches and leaves the
    answer alone otherwise. *)
Lemma recommendationsForStep_insertion_order :
  forall (recs : list AIRecommendation) (r : AIRecommendation) (id : Z),
    let st := run_actions (map AddRecommendation recs) initial in
    recommendationsForStep st id
      = filter (fun x => (step_id x =? id)%Z) recs /\
    (forall x, In x (recommendationsForStep st id) <->
               In x recs /\ step_id x = id) /\
    recommendationsForStep (addRecommendation r st) id
      = recommendationsForStep st id ++
        (if (step_id r =? id)%Z then [r] else []).
Proof.
  intros recs r id st. unfold recommendationsForStep, st.
  simpl. rewrite !recommendations_after_adds. simpl.
  split; [reflexivity|]. split.
  - intros x. rewrite filter_In, Z.eqb_eq. tauto.
  - rewrite filter_app. simpl. now destruct (step_id r =? id)%Z.
Qed.

End StoreHistoryFacts.

(* ================================================================== *)
(** * Further properties of the objective-analysis view *)
(* ================================================================== *)

Module AnalysisViewFacts.
Import JS Store Api Reconciler AnalysisView.
Import StoreFacts ReconcilerFacts.

Lemma set_own_draft (v : view) : set_objectivesDraft (objectivesDraft v) v = v.
Proof. now destruct v. Qed.

(** Writing the view's own draft to the store never disturbs the view. *)
Lemma storeWrite_own_draft (v : view) :
  hydrated v ->
  storeWrite (updateLearningObjectives (objectivesDraft v)) v
  = set_store (updateLearningObjectives (objectivesDraft v) (store v)) v.
Proof.
  intros Hh. unfold storeWrite.
  destruct (str_eqb _ _); [reflexivity|].
  unfold onStoreObjectives. simpl. rewrite Hh. simpl.
  destruct (isDirty _); [reflexivity|]. simpl.
  rewrite JSFacts.or_empty_id. now destruct v.
Qed.

Lemma persistObjectives_own_draft (v : view) (comment : jsstring)
    (upd : reply Session) (act : reply UserAction) :
  hydrated v ->
  let r := fst (persistObjectives (objectivesDraft v) comment upd act v) in
  objectivesDraft r = objectivesDraft v /\
  store r = updateLearningObjectives (objectivesDraft v) (store v) /\
  analysisResult r = analysisResult v /\
  lastSavedObjectives r =
    (if truthy_num (sessionId (store v)) then
       match upd with
       | Resolved session =>
           nullish (session_learning_objectives session) (objectivesDraft v)
       | Rejected _ => lastSavedObjectives v
       end
     else lastSavedObjectives v).
Proof.
  intros Hh r. unfold r, persistObjectives.
  rewrite storeWrite_own_draft by assumption. simpl.
  destruct (truthy_num (sessionId (store v))); simpl.
  - destruct upd; simpl; auto.
    destruct (truthy_num (stepId v)); destruct act; simpl; auto.
  - destruct (truthy_num (stepId v)); destruct act; simpl; auto.
Qed.

(** First hydration.  A view mounted over a store takes the store's
    learning objectives as both draft and baseline, whatever they are,
    so it starts clean; the store is not touched. *)
Lemma mount_is_clean :
  forall s : Store.state,
    let v := mount s in
    objectivesDraft v = learning_objectives (courseContext s) /\
    lastSavedObjectives v = learning_objectives (courseContext s) /\
    isDirty v = false /\
    store v = s.
Proof.
  intros s v. unfold v, mount, onStoreObjectives. simpl.
  rewrite JSFacts.or_empty_id. repeat split.
  apply isDirty_false. reflexivity.
Qed.

(** X4: the Save button with a request that succeeds.  The store gets
    the draft, the draft stays, the baseline becomes the objectives of
    the returned session (the draft itself when it carries none),
    ["Saved."] is shown and no error; the field is clean afterwards
    exactly when that baseline equals the draft. *)
Theorem save_success :
  forall (v : view) (session : Session) (act : reply UserAction),
    reachable v ->
    truthy_num (sessionId (store v)) = true ->
    let v' := saveObjectives (Resolved session) act v in
    let saved := nullish (session_learning_objectives session) (objectivesDraft v) in
    learning_objectives (courseContext (store v')) = objectivesDraft v /\
    objectivesDraft v' = objectivesDraft v /\
    lastSavedObjectives v' = saved /\
    successMessage v' = lit "Saved." /\
    errorMessage v' = [] /\
    isSaving v' = false /\
    (isDirty v' = false <-> saved = objectivesDraft v).
Proof.
  intros v session act Hr Hs v' saved. apply reachable_hydrated in Hr.
  assert (E : v' =
    set_isSaving false
      (set_successMessage (lit "Saved.")
         (set_lastSavedObjectives saved
            (set_store (updateLearningObjectives (objectivesDraft v) (store v))
               (set_successMessage [] (set_errorMessage [] (set_isSaving true v))))))).
  { unfold v', saveObjectives. rewrite Hs. cbn [negb].
    unfold persistObjectives.
    change (objectivesDraft (set_successMessage []
              (set_errorMessage [] (set_isSaving true v))))
      with (objectivesDraft v).
    match goal with
    | |- context [storeWrite ?f ?w] =>
        change f with (updateLearningObjectives (objectivesDraft w));
        rewrite (@storeWrite_own_draft w Hr)
    end.
    simpl. rewrite Hs.
    destruct (truthy_num (stepId v)); destruct act; reflexivity. }
  rewrite E. simpl. repeat split; auto.
  - intros H. apply isDirty_false in H. simpl in H. congruence.
  - intros H. apply isDirty_false. simpl. congruence.
Qed.

Lemma save_success_witness :
  isDirty (saveObjectives (Resolved session7_upper) (Resolved someAction) typed_abc)
    = true /\
  isDirty (saveObjectives (Resolved session7) (Resolved someAction) typed_abc)
    = false.
Proof.
  assert (Hr : reachable typed_abc)
    by (exists store7, [Typed (lit "abc")]; reflexivity).
  split.
  - destruct (@save_success typed_abc session7_upper (Resolved someAction) Hr
                eq_refl) as (_ & _ & _ & _ & _ & _ & H).
    destruct (isDirty _); [reflexivity|].
    exfalso. assert (K : lit "ABC" = lit "abc") by (apply H; reflexivity).
    vm_compute in K. discriminate.
  - apply (@save_success typed_abc session7 (Resolved someAction) Hr eq_refl).
    reflexivity.
Defined.

(** X5: the watcher refreshes the draft only, never the baseline.  When
    the store's objectives change under a clean field to a value other
    than its baseline, the baseline stays and the field is dirty
    afterwards, although nothing was typed. *)
Theorem external_change_leaves_baseline :
  forall (v : view) (f : Store.state -> Store.state),
    reachable v ->
    objectivesDraft v = lastSavedObjectives v ->
    watched (f (store v)) <> watched (store v) ->
    watched (f (store v)) <> lastSavedObjectives v ->
    let v' := storeWrite f v in
    lastSavedObjectives v' = lastSavedObjectives v /\
    objectivesDraft v' = watched (f (store v)) /\
    isDirty v' = true.
Proof.
  intros v f Hr Hc Hch Hb v'. apply reachable_hydrated in Hr.
  unfold v', storeWrite.
  destruct (str_eqb_spec (watched (store v)) (watched (f (store v))))
    as [E|_]; [congruence|].
  rewrite watcher_clean by assumption. simpl. repeat split.
  apply isDirty_true. simpl. exact Hb.
Qed.

Lemma external_change_leaves_baseline_witness :
  isDirty (storeWrite (updateLearningObjectives (lit "new")) (mount store7)) = true.
Proof.
  apply (@external_change_leaves_baseline (mount store7)
           (updateLearningObjectives (lit "new"))).
  - exists store7, []. reflexivity.
  - reflexivity.
  - vm_compute. discriminate.
  - vm_compute. discriminate.
Defined.

(** X6: [runAnalysis] on a mounted view.  When the store holds no
    session id, or the id 0, nothing happens at all.  Otherwise,
    whatever the two requests do, the store ends up holding the draft as
    its learning objectives, the draft is untouched and [isAnalyzing] is
    off again.  A design step (phase ["objective-analysis"], the draft
    as input) is appended to the store exactly when the analysis request
    resolves, and then the step and recommendation ids and the result
    are kept and no error is shown; when it rejects, nothing is
    appended, the earlier result stays, and the error is the [detail] of
    the response or the stock message. *)
Theorem runAnalysis_outcome :
  forall (v : view) (upd : reply Session)
         (ana : reply (LLMResponse ObjectiveAnalysisResponse)) (now : jsstring),
    reachable v ->
    let v' := runAnalysis upd ana now v in
    match sessionId (store v) with
    | None => v' = v
    | Some sid =>
        if (sid =? 0)%Z then v' = v
        else
          learning_objectives (courseContext (store v')) = objectivesDraft v /\
          objectivesDraft v' = objectivesDraft v /\
          isAnalyzing v' = false /\
          match ana with
          | Resolved r =>
              designSteps (store v') =
                designSteps (store v) ++
                [analysisStep r sid (objectivesDraft v) now] /\
              stepId v' = Some (llm_step_id r) /\
              recommendationId v' = Some (llm_recommendation_id r) /\
              analysisResult v' = Some (data r) /\
              errorMessage v' = []
          | Rejected detail =>
              designSteps (store v') = designSteps (store v) /\
              stepId v' = stepId v /\
              analysisResult v' = analysisResult v /\
              errorMessage v' = analysisError detail /\
              errorMessage v' <> []
          end
    end.
Proof.
  intros v upd ana now Hr v'. apply reachable_hydrated in Hr.
  unfold v', runAnalysis.
  destruct (sessionId (store v)) as [sid|]; [|reflexivity].
  destruct (sid =? 0)%Z; [reflexivity|].
  unfold persistBeforeAnalysis.
  match goal with
  | |- context [storeWrite ?f ?w] =>
      change f with (updateLearningObjectives (objectivesDraft w));
      rewrite (@storeWrite_own_draft w Hr)
  end.
  destruct ana as [detail|r].
  - destruct upd; simpl; repeat split; auto;
      unfold analysisError, analysisFailed;
      destruct detail as [[|c d]|]; simpl; discriminate.
  - unfold storeWrite.
    destruct upd; simpl; rewrite str_eqb_refl; simpl; repeat split; auto.
Qed.

Lemma runAnalysis_outcome_witness :
  designSteps (store analysed_abc)
    = [analysisStep reply1 7 (lit "abc") (lit "2024-03-09T23:06:00.000Z")] /\
  learning_objectives (courseContext (store analysed_abc)) = lit "abc".
Proof.
  assert (Hr : reachable typed_abc)
    by (exists store7, [Typed (lit "abc")]; reflexivity).
  pose proof (@runAnalysis_outcome typed_abc (Resolved session7)
                (Resolved reply1) (lit "2024-03-09T23:06:00.000Z") Hr) as H.
  cbv zeta in H.
  assert (E : sessionId (store typed_abc) = Some 7%Z)
    by (vm_compute; reflexivity).
  rewrite E in H. change (7 =? 0)%Z with false in H. cbv iota in H.
  destruct H as (H1 & _ & _ & H2 & _).
  split; [etransitivity; [exact H2 | vm_compute; reflexivity] | exact H1].
Defined.

(** X7: the two buttons that take over the suggested objectives.  With
    no suggestions in the analysis result both leave the view as it is.
    Otherwise "replace" makes the draft the cleaned suggestions and
    "insert" puts them two line feeds below the trimmed old draft (or
    alone when that is blank); either way the store then holds the new
    draft as its learning objectives and the analysis result is kept,
    whether or not the save request succeeds. *)
Theorem improved_objectives_applied :
  forall (v : view) (upd : reply Session) (act : reply UserAction),
    reachable v ->
    let raw := getImprovedObjectivesText v in
    let ins := insertImprovedObjectives upd act v in
    let rep := replaceWithImprovedObjectives upd act v in
    match raw with
    | [] => ins = v /\ rep = v
    | _ =>
        objectivesDraft rep = Text.stripMarkdown raw /\
        objectivesDraft ins =
          (if truthy (trim (objectivesDraft v))
           then trim (objectivesDraft v) ++ [LF; LF] ++ Text.stripMarkdown raw
           else Text.stripMarkdown raw) /\
        learning_objectives (courseContext (store rep)) = objectivesDraft rep /\
        learning_objectives (courseContext (store ins)) = objectivesDraft ins /\
        analysisResult rep = analysisResult v /\
        analysisResult ins = analysisResult v
    end.
Proof.
  intros v upd act Hr raw ins rep. apply reachable_hydrated in Hr.
  unfold ins, rep, insertImprovedObjectives, replaceWithImprovedObjectives.
  fold raw. destruct raw as [|c raw'] eqn:Eraw; [now split|].
  cbn [truthy negb].
  set (cleaned := Text.stripMarkdown (c :: raw')).
  set (joined := if truthy (trim (objectivesDraft v))
                 then trim (objectivesDraft v) ++ [LF; LF] ++ cleaned
                 else cleaned).
  assert (Hown : forall d m comment,
             let w := set_successMessage m (set_objectivesDraft d v) in
             let r := fst (persistObjectives d comment upd act w) in
             objectivesDraft r = d /\
             learning_objectives (courseContext (store r)) = d /\
             analysisResult r = analysisResult v).
  { intros d m comment w r.
    destruct (@persistObjectives_own_draft w comment upd act Hr)
      as (H1 & H2 & H3 & _).
    change (objectivesDraft w) with d in *.
    unfold r. rewrite H1, H2, H3. repeat split. }
  destruct (Hown cleaned
              (lit "Applied improved objectives. You can edit further and re-run analysis.")
              (lit "Replaced objectives with suggested improved objectives (cleaned markdown)"))
    as (R1 & R2 & R3).
  destruct (Hown joined
              (lit "Inserted improved objectives below your original text.")
              (lit "Inserted suggested improved objectives (cleaned markdown)"))
    as (I1 & I2 & I3).
  simpl in R1, R2, R3, I1, I2, I3.
  repeat split; try assumption; congruence.
Qed.

Lemma improved_objectives_applied_witness :
  objectivesDraft
    (replaceWithImprovedObjectives (Rejected None) (Rejected None) analysed_abc)
  = lit "Explain gradient descent" ++ [LF] ++ lit "Apply it to a model" /\
  objectivesDraft
    (insertImprovedObjectives (Rejected None) (Rejected None) analysed_abc)
  = lit "abc" ++ [LF; LF] ++
    lit "Explain gradient descent" ++ [LF] ++ lit "Apply it to a model".
Proof.
  assert (Hr : reachable analysed_abc).
  { exists store7,
      [Typed (lit "abc");
       Analyse (Resolved session7) (Resolved reply1)
         (lit "2024-03-09T23:06:00.000Z")].
    reflexivity. }
  pose proof (@improved_objectives_applied analysed_abc (Rejected None)
                (Rejected None) Hr) as H.
  cbv zeta in H.
  replace (getImprovedObjectivesText analysed_abc)
    with (lit "**Explain** gradient descent" ++ [LF] ++ lit "- Apply it to a model")
    in H by (vm_compute; reflexivity).
  cbn [lit map list_ascii_of_string app] in H.
  destruct H as (H1 & H2 & _).
  split; [rewrite H1 | rewrite H2]; vm_compute; reflexivity.
Defined.

End AnalysisViewFacts.

(* ================================================================== *)
(** * What replacements keep and what patterns need *)
(* ================================================================== *)

Module ConservativeFacts.
Import JS Conservative.
Import JSFacts MatchFacts.

(** ** Replacing only deletes *)

Lemma subseq_refl (s : jsstring) : subseq s s.
Proof. induction s; constructor; auto. Qed.

Lemma subseq_nil_l (s : jsstring) : subseq [] s.
Proof. induction s; constructor; auto. Qed.

Lemma subseq_nil_inv (a : jsstring) : subseq a [] -> a = [].
Proof. intros H. now inversion H. Qed.

Lemma subseq_trans (a b c : jsstring) : subseq a b -> subseq b c -> subseq a c.
Proof.
  intros H1 H2. revert a H1.
  induction H2 as [|x b c _ IH|x b c _ IH]; intros a H1.
  - exact H1.
  - inversion H1; subst.
    + apply subseq_keep. now apply IH.
    + apply subseq_drop. now apply IH.
  - apply subseq_drop. now apply IH.
Qed.

Lemma subseq_app (a b c d : jsstring) :
  subseq a b -> subseq c d -> subseq (a ++ c) (b ++ d).
Proof.
  intros H1 H2. induction H1; simpl; [exact H2 | |]; constructor; auto.
Qed.

Lemma subseq_suffix (s' s : jsstring) : suffix s' s -> subseq s' s.
Proof.
  intros (p & ->). change s' with ([] ++ s') at 1.
  apply subseq_app; [apply subseq_nil_l | apply subseq_refl].
Qed.

Lemma subseq_rev (a b : jsstring) : subseq a b -> subseq (rev a) (rev b).
Proof.
  intros H. induction H as [|x a b _ IH|x a b _ IH]; simpl.
  - constructor.
  - apply subseq_app; [exact IH | apply subseq_refl].
  - rewrite <- (app_nil_r (rev a)).
    apply subseq_app; [exact IH | apply subseq_nil_l].
Qed.

Lemma subseq_incl (a b : jsstring) : subseq a b -> incl a b.
Proof.
  intros H. induction H as [|x a b _ IH|x a b _ IH]; intros c Hc.
  - exact Hc.
  - destruct Hc as [->|Hc]; [now left | right; now apply IH].
  - right. now apply IH.
Qed.

Lemma trimStart_subseq (s : jsstring) : subseq (trimStart s) s.
Proof.
  induction s as [|c s IH]; simpl; [constructor|].
  destruct (isSpace c); [now apply subseq_drop | apply subseq_refl].
Qed.

Lemma trim_subseq (s : jsstring) : subseq (trim s) s.
Proof.
  unfold trim, trimEnd.
  apply subseq_trans with (trimStart s); [|apply trimStart_subseq].
  rewrite <- (rev_involutive (trimStart s)) at 2.
  apply subseq_rev, trimStart_subseq.
Qed.

Lemma capsWithin_nil (s0 s : jsstring) : suffix s s0 -> capsWithin s0 s [].
Proof. intros (p & ->) n. exists p, []. reflexivity. Qed.

Lemma capsWithin_suffix (s0 s s' : jsstring) (cs : captures) :
  suffix s' s -> capsWithin s0 s cs -> capsWithin s0 s' cs.
Proof.
  intros (q & ->) H n. destruct (H n) as (a & b & ->).
  exists a, (b ++ q). now rewrite <- !app_assoc.
Qed.

Lemma firstn_read (q s' : jsstring) :
  firstn (length (q ++ s') - length s') (q ++ s') = q.
Proof.
  rewrite length_app.
  replace (length q + length s' - length s') with (length q + 0) by lia.
  rewrite firstn_app_2. simpl. apply app_nil_r.
Qed.

Lemma capsWithin_set (s0 s s' : jsstring) (n : nat) (cs : captures) :
  suffix s s0 -> suffix s' s -> capsWithin s0 s' cs ->
  capsWithin s0 s' (set_cap n (firstn (length s - length s') s) cs).
Proof.
  intros (p & ->) (q & ->) H n'. unfold set_cap. simpl.
  destruct (Nat.eqb n n'); [|apply H].
  rewrite firstn_read. exists p, []. reflexivity.
Qed.

Section Pieces.
(** The captures a match hands on are pieces of what it has read of the
    input [s0] it started from. *)
Variable s0 : jsstring.
Variable Q : captures * jsstring -> Prop.

Lemma rep_hands_within g p : forall s lo hi pv cs k x,
    capsWithin s0 s cs -> hands_within s0 Q s k ->
    rep g p lo hi pv s cs k = Some x -> Q x.
Proof.
  induction s as [|c t IH]; intros lo hi pv cs k x Hc Hk; simpl.
  - destruct lo; [|discriminate]. apply Hk; [apply suffix_refl | exact Hc].
  - assert (Hstop : match lo with O => k pv (c :: t) cs | S _ => None end
                    = Some x -> Q x).
    { destruct lo; [|discriminate]. apply Hk; [apply suffix_refl | exact Hc]. }
    assert (Hmore : rep g p (pred lo) (dec_hi hi) (Some c) t cs k = Some x
                    -> Q x).
    { apply IH.
      - apply capsWithin_suffix with (c :: t);
          [apply suffix_cons, suffix_refl | exact Hc].
      - intros pv' s' cs' y Hs. apply Hk. now apply suffix_cons. }
    destruct (hi_open hi && p c); auto.
    destruct g.
    + destruct (rep true p (pred lo) (dec_hi hi) (Some c) t cs k) eqn:E.
      * intros [= ->]. now apply Hmore.
      * exact Hstop.
    + destruct (match lo with O => k pv (c :: t) cs | S _ => None end) eqn:E.
      * intros [= ->]. now apply Hstop.
      * exact Hmore.
Qed.

Lemma run_hands_within m : forall r pv s cs k x,
    suffix s s0 -> capsWithin s0 s cs -> hands_within s0 Q s k ->
    run m r pv s cs k = Some x -> Q x.
Proof.
  induction r as [|p|r1 IH1 r2 IH2|r1 IH1 r2 IH2|g lo hi p|n r IH| |];
    intros pv s cs k x Hs Hc Hk; simpl.
  - apply Hk; [apply suffix_refl | exact Hc].
  - destruct s as [|c t]; [discriminate|].
    destruct (p c); [|discriminate].
    apply Hk; [apply suffix_cons, suffix_refl|].
    apply capsWithin_suffix with (c :: t);
      [apply suffix_cons, suffix_refl | exact Hc].
  - apply IH1; auto. intros pv' s' cs' y Hs' Hc'. apply IH2; auto.
    + now apply suffix_trans with s.
    + intros pv'' s'' cs'' z Hs'' Hc''. apply Hk; auto.
      now apply suffix_trans with s'.
  - destruct (run m r1 pv s cs k) eqn:E.
    + intros [= ->]. now apply IH1 with pv s cs k.
    + now apply IH2.
  - now apply rep_hands_within.
  - apply IH; auto. intros pv' s' cs' y Hs' Hc'. apply Hk; auto.
    now apply capsWithin_set.
  - destruct (at_bol m pv); [|discriminate].
    apply Hk; [apply suffix_refl | exact Hc].
  - destruct (at_eol m s); [|discriminate].
    apply Hk; [apply suffix_refl | exact Hc].
Qed.

End Pieces.

(** A match reads a prefix of the input, and its captures are pieces of
    that prefix. *)
Lemma exec_pieces (pat : pattern) (pv : option char) (s s' : jsstring) cs :
  exec pat pv s = Some (cs, s') ->
  exists m, s = m ++ s' /\
            forall n, exists a b, m = a ++ get_cap n cs ++ b.
Proof.
  intros H.
  assert (K : capsWithin s s' cs /\ suffix s' s).
  { unfold exec in H.
    apply (@run_hands_within s
             (fun x => capsWithin s (snd x) (fst x) /\ suffix (snd x) s)
             (flag_m pat) (body pat) pv s [] finish (cs, s')
             (suffix_refl s) (capsWithin_nil (suffix_refl s))); [|exact H].
    intros pv' s'' cs' x Hs' Hc' [= <-]. now split. }
  destruct K as (Hc & (m & E)). exists m. split; [exact E|].
  intros n. destruct (Hc n) as (a & b & Ha). exists a, b.
  rewrite E in Ha. apply (app_inv_tail s').
  rewrite Ha. now rewrite <- !app_assoc.
Qed.

Lemma skipn_read (m s' : jsstring) : skipn (length m) (m ++ s') = s'.
Proof. rewrite skipn_app, skipn_all, Nat.sub_diag. reflexivity. Qed.

Lemma replace_all_subseq (pat : pattern) (f : replacement) :
  local f ->
  forall s skip pv, subseq (replace_all pat f skip pv s) (skipn skip s).
Proof.
  intros Hf. induction s as [|c t IH]; intros skip pv.
  - destruct skip; cbn [replace_all skipn]; [|constructor].
    destruct (exec pat pv []) as [[cs s']|] eqn:E; [|constructor].
    destruct (exec_pieces _ _ _ E) as (m & Em & Hc).
    symmetry in Em. apply app_eq_nil in Em. destruct Em as [-> ->].
    rewrite app_nil_r. cbn [length Nat.sub firstn]. now apply Hf.
  - destruct skip; cbn [replace_all]; [|apply IH].
    cbn [skipn].
    destruct (exec pat pv (c :: t)) as [[cs s']|] eqn:E.
    + destruct (exec_pieces _ _ _ E) as (m & Em & Hc).
      rewrite Em, firstn_read.
      replace (length (m ++ s') - length s') with (length m)
        by (rewrite length_app; lia).
      destruct m as [|x m]; cbn [length].
      * cbn [app] in Em. rewrite <- Em.
        pose proof (Hf cs [] Hc) as H0. apply subseq_nil_inv in H0.
        rewrite H0. cbn [app]. apply subseq_keep. exact (IH 0 (Some c)).
      * cbn [app] in Em. injection Em as <- Et.
        change (c :: m ++ s') with ((c :: m) ++ s').
        apply subseq_app; [now apply Hf|].
        subst t. pose proof (IH (length m) (Some c)) as H1.
        rewrite skipn_read in H1. exact H1.
    + apply subseq_keep. exact (IH 0 (Some c)).
Qed.

Lemma replace_first_subseq (pat : pattern) (f : replacement) :
  local f -> forall s pv, subseq (replace_first pat f pv s) s.
Proof.
  intros Hf. induction s as [|c t IH]; intros pv; cbn [replace_first].
  - destruct (exec pat pv []) as [[cs s']|] eqn:E; [|constructor].
    destruct (exec_pieces _ _ _ E) as (m & Em & Hc).
    symmetry in Em. apply app_eq_nil in Em. destruct Em as [-> ->].
    rewrite app_nil_r. cbn [length Nat.sub firstn]. now apply Hf.
  - destruct (exec pat pv (c :: t)) as [[cs s']|] eqn:E.
    + destruct (exec_pieces _ _ _ E) as (m & Em & Hc).
      rewrite Em, firstn_read.
      apply subseq_app; [now apply Hf | apply subseq_refl].
    + apply subseq_keep. apply IH.
Qed.

(** Replacing with a local replacement only deletes code units. *)
Lemma replace_subseq (pat : pattern) (f : replacement) (s : jsstring) :
  local f -> subseq (replace pat f s) s.
Proof.
  intros Hf. unfold replace. destruct (flag_g pat).
  - exact (@replace_all_subseq pat f Hf s 0 None).
  - now apply replace_first_subseq.
Qed.

Lemma nothing_local : local nothing.
Proof. intros cs m _. apply subseq_nil_l. Qed.

Lemma group1_local : local group1.
Proof.
  intros cs m H. destruct (H 1) as (a & b & ->). unfold group1.
  rewrite <- (app_nil_l (get_cap 1 cs)) at 1.
  apply subseq_app; [apply subseq_nil_l|].
  rewrite <- (app_nil_r (get_cap 1 cs)) at 1.
  apply subseq_app; [apply subseq_refl | apply subseq_nil_l].
Qed.

Lemma unfence_local : local Text.unfence.
Proof.
  intros cs m _. unfold Text.unfence.
  eapply subseq_trans; apply replace_subseq, nothing_local.
Qed.

(** X8: [stripMarkdown] only deletes.  For every input, its result is
    what is left of the input when some of its code units are deleted:
    the code units of the result are code units of the input, in the
    same order and each used at most once; nothing is inserted,
    duplicated, reordered or rewritten.  In particular every code unit
    of the result occurs in the input. *)
Theorem stripMarkdown_adds_nothing :
  forall t : jsstring,
    subseq (Text.stripMarkdown t) t /\
    forall c : char, In c (Text.stripMarkdown t) -> In c t.
Proof.
  intros t.
  assert (H : subseq (Text.stripMarkdown t) t).
  { unfold Text.stripMarkdown, Text.stripped. rewrite or_empty_id.
    eapply subseq_trans; [apply trim_subseq|].
    repeat (eapply subseq_trans;
            [apply replace_subseq;
             first [apply nothing_local | apply group1_local
                   | apply unfence_local]|]).
    apply subseq_refl. }
  split; [exact H | exact (@subseq_incl _ _ H)].
Qed.

(** ** Patterns that cannot match *)

Lemma free_of_suffix (q : char -> bool) (s' s : jsstring) :
  suffix s' s -> free_of q s -> free_of q s'.
Proof. intros Hs H c Hc. apply H. exact (@suffix_incl _ _ _ Hs Hc). Qed.

Lemma run_fails m r pv s cs (k : cont) :
  (forall pv' s' cs', suffix s' s -> k pv' s' cs' = None) ->
  run m r pv s cs k = None.
Proof.
  intros Hk. destruct (run m r pv s cs k) as [x|] eqn:E; [|reflexivity].
  exfalso.
  apply (@run_answers (fun _ => False) m r pv s cs k x); [|exact E].
  intros pv' s' cs' y Hs Hy. rewrite Hk in Hy by assumption. discriminate.
Qed.

(** A pattern that needs a code unit of [q] finds no match in a string
    free of [q]. *)
Lemma needs_fails (q : char -> bool) (r : regex) :
  needs q r ->
  forall m pv s cs k, free_of q s -> run m r pv s cs k = None.
Proof.
  induction 1 as [p Hp|r1 r2 _ IH|r1 r2 _ IH|r1 r2 _ IH1 _ IH2
                 |g lo hi p Hp|n r _ IH];
    intros m pv s cs k Hs; cbn [run].
  - destruct s as [|c t]; [reflexivity|].
    destruct (p c) eqn:E; [|reflexivity].
    apply Hp in E. rewrite Hs in E by now left. discriminate.
  - now apply IH.
  - apply run_fails. intros pv' s' cs' Hs'. apply IH.
    now apply free_of_suffix with s.
  - rewrite IH1 by assumption. now apply IH2.
  - destruct s as [|c t]; [reflexivity|]. cbn [rep].
    destruct (p c) eqn:E.
    + apply Hp in E. rewrite Hs in E by now left. discriminate.
    + now rewrite andb_false_r.
  - now apply IH.
Qed.

Lemma replace_all_fixed (pat : pattern) (f : replacement) :
  forall s pv,
    (forall pv' s', suffix s' s -> exec pat pv' s' = None) ->
    replace_all pat f 0 pv s = s.
Proof.
  induction s as [|c t IH]; intros pv H; cbn [replace_all];
    rewrite H by apply suffix_refl; [reflexivity|].
  f_equal. apply IH. intros pv' s' Hs. apply H. now apply suffix_cons.
Qed.

Lemma replace_first_fixed (pat : pattern) (f : replacement) :
  forall s pv,
    (forall pv' s', suffix s' s -> exec pat pv' s' = None) ->
    replace_first pat f pv s = s.
Proof.
  induction s as [|c t IH]; intros pv H; cbn [replace_first];
    rewrite H by apply suffix_refl; [reflexivity|].
  f_equal. apply IH. intros pv' s' Hs. apply H. now apply suffix_cons.
Qed.

Lemma replace_needs_fixed (q : char -> bool) (pat : pattern)
    (f : replacement) (s : jsstring) :
  needs q (body pat) -> free_of q s -> replace pat f s = s.
Proof.
  intros Hn Hs.
  assert (H : forall pv' s', suffix s' s -> exec pat pv' s' = None).
  { intros pv' s' Hs'. unfold exec. apply needs_fails with q; auto.
    now apply free_of_suffix with s. }
  unfold replace. destruct (flag_g pat);
    [now apply replace_all_fixed | now apply replace_first_fixed].
Qed.

End ConservativeFacts.

(* ================================================================== *)
(** * Plain text under [stripMarkdown] *)
(* ================================================================== *)

Module PlainTextFacts.
Import JS Text Conservative.
Import JSFacts MatchFacts ConservativeFacts.

Lemma markup_digit c : markup c = true -> markupOrDigit c = true.
Proof. unfold markupOrDigit. now intros ->. Qed.
Lemma markup_dot c : markup c = true -> markupOrDot c = true.
Proof. unfold markupOrDot. now intros ->. Qed.

Ltac class_incl :=
  let c := fresh "c" in let H := fresh "H" in
  intros c H;
  solve [ unfold only in H; apply N.eqb_eq in H; subst c; reflexivity
        | unfold markupOrDigit, markupOrDot, markup, bulletMark, only in *;
          rewrite ?orb_true_iff, ?N.eqb_eq in *;
          repeat match goal with
                 | K : _ \/ _ |- _ => destruct K
                 end; subst; auto 12
        | unfold markupOrDigit; rewrite H; apply orb_true_r ].

Ltac needs_tac :=
  first [ apply needs_cls; class_incl
        | apply needs_rep; class_incl
        | apply needs_grp; needs_tac
        | apply needs_alt; needs_tac
        | apply needs_seq_l; needs_tac
        | apply needs_seq_r; needs_tac ].

Ltac expose :=
  cbv [body reFence reFenceOpen reFenceMark reLink reInlineCode reHeading
       reQuote reListMarker reBold reBoldUnder reItalic reItalicUnder
       reTrailing listMarker seq chars lit map list_ascii_of_string
       N_of_ascii N_of_digits backtick star_c under_c
       star lazy_star plus opt upto N.add N.mul Pos.add Pos.mul Pos.succ N.double N.succ_double].


Lemma fence_needs : needs markup (body reFence). Proof. expose. needs_tac. Qed.
Lemma link_needs : needs markup (body reLink). Proof. expose. needs_tac. Qed.
Lemma inlineCode_needs : needs markup (body reInlineCode). Proof. expose. needs_tac. Qed.
Lemma heading_needs : needs markup (body reHeading). Proof. expose. needs_tac. Qed.
Lemma quote_needs : needs markup (body reQuote). Proof. expose. needs_tac. Qed.
Lemma listMarker_needs_digit : needs markupOrDigit (body reListMarker).
Proof. expose. needs_tac. Qed.
Lemma listMarker_needs_dot : needs markupOrDot (body reListMarker).
Proof. expose. needs_tac. Qed.
Lemma bold_needs : needs markup (body reBold). Proof. expose. needs_tac. Qed.
Lemma boldUnder_needs : needs markup (body reBoldUnder). Proof. expose. needs_tac. Qed.
Lemma italic_needs : needs markup (body reItalic). Proof. expose. needs_tac. Qed.
Lemma italicUnder_needs : needs markup (body reItalicUnder). Proof. expose. needs_tac. Qed.

Lemma free_of_or (p q : char -> bool) (s : jsstring) :
  free_of p s -> free_of q s -> free_of (fun c => p c || q c) s.
Proof. intros Hp Hq c Hc. now rewrite Hp, Hq. Qed.

(** On text free of markup characters, and of digits or of dots, only
    the last step of [stripMarkdown] can change anything. *)
Lemma stripped_plain (t : jsstring) :
  free_of markup t ->
  free_of digit t \/ free_of (only 46%N) t ->
  stripped t = replace reTrailing nothing t.
Proof.
  intros Hm Hd. unfold stripped. rewrite or_empty_id.
  rewrite (@replace_needs_fixed markup reFence unfence t fence_needs Hm).
  rewrite (@replace_needs_fixed markup reLink group1 t link_needs Hm).
  rewrite (@replace_needs_fixed markup reInlineCode group1 t inlineCode_needs Hm).
  rewrite (@replace_needs_fixed markup reHeading nothing t heading_needs Hm).
  rewrite (@replace_needs_fixed markup reQuote nothing t quote_needs Hm).
  assert (Hl : replace reListMarker nothing t = t).
  { destruct Hd as [Hd|Hd].
    - apply (@replace_needs_fixed markupOrDigit);
        [apply listMarker_needs_digit | now apply free_of_or].
    - apply (@replace_needs_fixed markupOrDot);
        [apply listMarker_needs_dot | now apply free_of_or]. }
  rewrite Hl.
  rewrite (@replace_needs_fixed markup reBold group1 t bold_needs Hm).
  rewrite (@replace_needs_fixed markup reBoldUnder group1 t boldUnder_needs Hm).
  rewrite (@replace_needs_fixed markup reItalic group1 t italic_needs Hm).
  rewrite (@replace_needs_fixed markup reItalicUnder group1 t italicUnder_needs Hm).
  reflexivity.
Qed.

(** ** Blanks at the end of a line *)

Lemma blank_space (c : char) : blank c = true -> isSpace c = true.
Proof.
  unfold blank. rewrite orb_true_iff, !N.eqb_eq. intros [->| ->]; reflexivity.
Qed.

Lemma blank_not_terminator (c : char) : blank c = true -> isLineTerminator c = false.
Proof.
  unfold blank. rewrite orb_true_iff, !N.eqb_eq. intros [->| ->]; reflexivity.
Qed.

Lemma skip_split (p : char -> bool) (s : jsstring) :
  exists a, s = a ++ skip p s /\ Forall (fun c => p c = true) a.
Proof.
  induction s as [|c t (a & E & Ha)]; simpl.
  - now exists [].
  - destruct (p c) eqn:Ec.
    + exists (c :: a). split; [simpl; congruence | now constructor].
    + now exists [].
Qed.

Lemma exec_trailing (pv : option char) (s : jsstring) :
  exec reTrailing pv s =
  match s with
  | c :: t =>
      if blank c && at_eol true (skip blank t)
      then Some ([], skip blank t) else None
  | [] => None
  end.
Proof.
  unfold exec, reTrailing. cbn [body flag_m seq run plus].
  rewrite rep_plus_greedy.
  - destruct s as [|c t]; [reflexivity|].
    destruct (blank c); [|reflexivity]. cbn [andb].
    now destruct (at_eol true (skip blank t)).
  - intros pv1 pv2 s' cs. reflexivity.
  - intros pv' c t cs Hc. cbn [at_eol andb].
    now rewrite (@blank_not_terminator c Hc).
Qed.

Lemma replace_all_skipped (pat : pattern) (f : replacement) :
  forall t pv, exists pv', replace_all pat f (length t) pv t
                           = replace_all pat f 0 pv' [].
Proof.
  induction t as [|c t IH]; intros pv; cbn [length replace_all].
  - now exists pv.
  - apply IH.
Qed.

(** Without line terminators the only blanks removed are those at the
    very end of the text. *)
Lemma replace_trailing_split (s : jsstring) :
  free_of isLineTerminator s ->
  forall pv, exists b,
    s = replace_all reTrailing nothing 0 pv s ++ b /\ allSpaces b.
Proof.
  induction s as [|c t IH]; intros Hs pv; cbn [replace_all];
    rewrite exec_trailing.
  - exists []. split; [reflexivity | constructor].
  - assert (Ht : free_of isLineTerminator t).
    { intros x Hx. apply Hs. now right. }
    destruct (blank c && at_eol true (skip blank t)) eqn:E.
    + apply andb_true_iff in E. destruct E as [Ec Ee].
      destruct (@skip_split blank t) as (a & Ea & Ha).
      assert (Hk : skip blank t = []).
      { destruct (skip blank t) as [|x r] eqn:Ek; [reflexivity|].
        cbn [at_eol andb] in Ee.
        rewrite Ht in Ee; [discriminate|]. rewrite Ea. apply in_or_app.
        right. now left. }
      rewrite Hk in *. rewrite app_nil_r in Ea. subst a.
      cbn [length nothing app]. rewrite Nat.sub_0_r.
      destruct (@replace_all_skipped reTrailing nothing t (Some c)) as (pv' & ->).
      cbn [replace_all]. rewrite exec_trailing.
      exists (c :: t). split; [reflexivity|].
      constructor; [now apply blank_space|].
      eapply Forall_impl; [|exact Ha]. intros x. apply blank_space.
    + destruct (IH Ht (Some c)) as (b & Eb & Hb).
      exists b. split; [|exact Hb]. cbn [app]. congruence.
Qed.

Lemma trimStart_spaces (a z : jsstring) :
  allSpaces a -> trimStart (a ++ z) = trimStart z.
Proof. induction 1 as [|c a Hc _ IH]; simpl; auto. now rewrite Hc. Qed.

Lemma trimEnd_app_spaces (y b : jsstring) :
  allSpaces b -> trimEnd (y ++ b) = trimEnd y.
Proof.
  intros Hb. unfold trimEnd. rewrite rev_app_distr.
  rewrite trimStart_spaces; [reflexivity|].
  unfold allSpaces. apply Forall_forall. intros x Hx. apply in_rev in Hx.
  revert x Hx. now apply Forall_forall.
Qed.

Lemma trimStart_app (x b : jsstring) :
  allSpaces b ->
  trimStart (x ++ b) = match trimStart x with [] => [] | r => r ++ b end.
Proof.
  intros Hb. induction x as [|c x IH]; simpl.
  - rewrite <- (app_nil_r b) at 1. rewrite trimStart_spaces by assumption.
    reflexivity.
  - destruct (isSpace c); [exact IH | reflexivity].
Qed.

Lemma trim_app_spaces (x b : jsstring) : allSpaces b -> trim (x ++ b) = trim x.
Proof.
  intros Hb. unfold trim. rewrite trimStart_app by assumption.
  destruct (trimStart x) as [|c r]; [reflexivity|].
  now apply trimEnd_app_spaces.
Qed.

(** X9: [stripMarkdown] keeps plain text.  A single line (no line
    terminator) that has none of the characters [`] [[] [#] [>] [-] [*]
    [•] [_], and no digit or else no dot, comes back unchanged apart from
    the white space trimmed at its two ends. *)
Theorem stripMarkdown_keeps_plain_line :
  forall t : jsstring,
    free_of markup t ->
    free_of digit t \/ free_of (only 46%N) t ->
    free_of isLineTerminator t ->
    stripMarkdown t = trim t.
Proof.
  intros t Hm Hd Hl. unfold stripMarkdown. rewrite stripped_plain by assumption.
  unfold replace. change (flag_g reTrailing) with true. cbv iota.
  destruct (@replace_trailing_split t Hl None) as (b & Eb & Hb).
  rewrite Eb at 2. now rewrite trim_app_spaces.
Qed.

Lemma free_of_check (q : char -> bool) (s : jsstring) :
  forallb (fun c => negb (q c)) s = true -> free_of q s.
Proof.
  intros H c Hc. rewrite forallb_forall in H. apply H in Hc.
  now apply negb_true_iff.
Qed.

Lemma stripMarkdown_keeps_plain_line_witness :
  stripMarkdown (lit "  Explain gradient descent.  ")
  = lit "Explain gradient descent.".
Proof.
  rewrite stripMarkdown_keeps_plain_line.
  - vm_compute. reflexivity.
  - apply free_of_check. vm_compute. reflexivity.
  - left. apply free_of_check. vm_compute. reflexivity.
  - apply free_of_check. vm_compute. reflexivity.
Defined.

End PlainTextFacts.

(* ================================================================== *)
(** * Further properties of the objectives list *)
(* ================================================================== *)

Module ObjectivesMoreFacts.
Import JS ObjectivesForm Conservative ObjectivesMore.
Import JSFacts MatchFacts ObjectivesFacts ConservativeFacts PlainTextFacts.

Lemma allSpaces_trimStart (s : jsstring) : allSpaces s -> trimStart s = [].
Proof.
  intros H. rewrite <- (app_nil_r s). now rewrite trimStart_spaces.
Qed.

Lemma allSpaces_trim (s : jsstring) : allSpaces s -> trim s = [].
Proof. intros H. unfold trim. now rewrite allSpaces_trimStart. Qed.

Lemma allSpaces_head (w rest : jsstring) :
  allSpaces w -> w <> [] -> startsWithSpace (w ++ rest) = true.
Proof. intros [|c w' Hc _] Hne; [congruence | exact Hc]. Qed.

Lemma normalize_blank (b : jsstring) :
  allSpaces b -> normalizeObjectiveLine b = [].
Proof.
  intros Hb. rewrite normalizeObjectiveLine_reads.
  unfold dropMarker, afterMarker. rewrite allSpaces_trimStart by assumption.
  now apply allSpaces_trim.
Qed.

Lemma replace_all_forall (P : char -> Prop) (pat : pattern) (f : replacement) :
  (forall cs m, Forall P (f cs m)) ->
  forall s skip pv, Forall P s -> Forall P (replace_all pat f skip pv s).
Proof.
  intros Hf. induction s as [|c t IH]; intros skip pv Hs.
  - destruct skip; cbn [replace_all]; [|constructor].
    destruct (exec pat pv []) as [[cs s']|]; [|constructor].
    rewrite app_nil_r. apply Hf.
  - inversion Hs as [|? ? Hc Ht]; subst.
    destruct skip; cbn [replace_all]; [|now apply IH].
    destruct (exec pat pv (c :: t)) as [[cs s']|].
    + apply Forall_app. split; [apply Hf|].
      destruct (length (c :: t) - length s'); [|now apply IH].
      constructor; [exact Hc | now apply IH].
    + constructor; [exact Hc | now apply IH].
Qed.

(** X10: blank input.  A text of white space only (the empty text
    included) parses to no objectives at all, and a line of white space
    only contributes nothing to [joinObjectives], wherever it stands in
    the list: adding an empty line to the form does not change the text
    that is submitted. *)
Theorem blank_objectives_ignored :
  forall (t b : jsstring) (before after : list jsstring),
    allSpaces t -> allSpaces b ->
    parseObjectivesText t = [] /\
    joinObjectives (before ++ b :: after) = joinObjectives (before ++ after).
Proof.
  intros t b before after Ht Hb. split.
  - unfold parseObjectivesText, rawObjectives. rewrite or_empty_id.
    rewrite allSpaces_trim; [reflexivity|].
    unfold replace. change (flag_g reCRLF) with true. cbv iota.
    apply replace_all_forall; [|exact Ht].
    intros cs m. repeat constructor.
  - unfold joinObjectives. rewrite !map_app, !filter_app. cbn [map filter].
    now rewrite normalize_blank.
Qed.

Lemma blank_objectives_ignored_witness :
  parseObjectivesText [32; 9; 13; 10; 32]%N = [] /\
  joinObjectives [lit "- foo"; lit "  "; lit "bar"]
    = joinObjectives [lit "- foo"; lit "bar"].
Proof.
  apply (@blank_objectives_ignored [32; 9; 13; 10; 32]%N (lit "  ")
           [lit "- foo"] [lit "bar"]);
    repeat constructor.
Defined.

Lemma bullet_not_space (c : char) : Text.bulletMark c = true -> isSpace c = false.
Proof.
  intros H. destruct (isSpace c) eqn:E; [|reflexivity].
  destruct (space_not_marker _ E) as [K _]. congruence.
Qed.

Lemma digit_not_space (c : char) : digit c = true -> isSpace c = false.
Proof.
  intros H. destruct (isSpace c) eqn:E; [|reflexivity].
  destruct (space_not_marker _ E) as [_ K]. congruence.
Qed.

Lemma digit_not_bullet (c : char) : digit c = true -> Text.bulletMark c = false.
Proof.
  intros H. destruct (Text.bulletMark c) eqn:E; [|reflexivity].
  rewrite (bullet_not_digit _ E) in H. discriminate.
Qed.

Lemma skip_digits (ds rest : jsstring) :
  allDigitChars ds -> skip digit (ds ++ 46%N :: rest) = 46%N :: rest.
Proof. induction 1 as [|c ds Hc _ IH]; simpl; auto. now rewrite Hc. Qed.

Lemma trim_of_headed (rest : jsstring) :
  startsWithSpace rest = false -> trim rest = trimEnd rest.
Proof. intros H. unfold trim. now rewrite trimStart_fixed. Qed.

(** X11: what [normalizeObjectiveLine] removes.  With [ws] and [w] white
    space, [w] not empty, and [rest] not starting with white space: a
    line [ws m w rest] with [m] one of [-], [*], [•], and a line
    [ws ds . w rest] with [ds] a non-empty run of digits, both come out
    as [rest] without its trailing white space; while a mark with no
    white space after it, [m rest], is kept as it is (only trimmed at
    the end). *)
Theorem normalizeObjectiveLine_markers :
  forall (ws w rest ds : jsstring) (m : char),
    allSpaces ws -> allSpaces w -> w <> [] ->
    startsWithSpace rest = false ->
    Text.bulletMark m = true ->
    allDigitChars ds -> ds <> [] ->
    normalizeObjectiveLine (ws ++ m :: w ++ rest) = trimEnd rest /\
    normalizeObjectiveLine (ws ++ ds ++ 46%N :: w ++ rest) = trimEnd rest /\
    normalizeObjectiveLine (m :: rest) = trimEnd (m :: rest).
Proof.
  intros ws w rest ds m Hws Hw Hne Hrest Hm Hds Hdne.
  assert (Hwr : startsWithSpace (w ++ rest) = true) by now apply allSpaces_head.
  assert (Htr : trimStart (w ++ rest) = rest).
  { rewrite trimStart_spaces by assumption. now apply trimStart_fixed. }
  rewrite !normalizeObjectiveLine_reads. unfold dropMarker, afterMarker.
  rewrite !trimStart_spaces by assumption.
  split; [|split].
  - cbn [trimStart]. rewrite (bullet_not_space _ Hm), Hm, Hwr, Htr.
    now apply trim_of_headed.
  - destruct Hds as [|d ds' Hd Hds']; [congruence|].
    cbn [app trimStart]. rewrite (digit_not_space _ Hd).
    rewrite (digit_not_bullet _ Hd), Hd, skip_digits by assumption.
    change (only 46%N 46%N) with true. cbn [andb]. rewrite Hwr, Htr.
    now apply trim_of_headed.
  - cbn [trimStart]. rewrite (bullet_not_space _ Hm), Hm, Hrest.
    apply trim_of_headed. cbn [startsWithSpace].
    now apply bullet_not_space.
Qed.

Lemma normalizeObjectiveLine_markers_witness :
  normalizeObjectiveLine (lit "  " ++ 8226%N :: lit " " ++ lit "foo ")
    = lit "foo" /\
  normalizeObjectiveLine (lit "  " ++ lit "12" ++ 46%N :: lit " " ++ lit "foo ")
    = lit "foo" /\
  normalizeObjectiveLine (8226%N :: lit "foo ") = 8226%N :: lit "foo".
Proof.
  assert (Hws : allSpaces (lit "  ")) by (repeat constructor).
  assert (Hw : allSpaces (lit " ")) by (repeat constructor).
  assert (Hne : lit " " <> []) by discriminate.
  assert (Hds : allDigitChars (lit "12")) by (repeat constructor).
  assert (Hdne : lit "12" <> []) by discriminate.
  destruct (@normalizeObjectiveLine_markers (lit "  ") (lit " ") (lit "foo ")
              (lit "12") 8226%N Hws Hw Hne eq_refl eq_refl Hds Hdne)
    as (H1 & H2 & H3).
  split; [|split].
  - etransitivity; [exact H1 | vm_compute; reflexivity].
  - etransitivity; [exact H2 | vm_compute; reflexivity].
  - etransitivity; [exact H3 | vm_compute; reflexivity].
Defined.

Lemma cleanLines_trimmed (l : list jsstring) : Forall trimmed (cleanLines l).
Proof.
  apply Forall_forall. intros e He. unfold cleanLines in He.
  apply filter_In in He. destruct He as [He Ht].
  apply in_map_iff in He. destruct He as (line & <- & _).
  split; [now apply truthy_nonempty|].
  unfold normalizeObjectiveLine. split; [apply trim_head | apply trim_tail].
Qed.

Lemma join_tail_trimmed (l : list jsstring) :
  l <> [] -> Forall trimmed l -> endsWithSpace (join LF l) = false.
Proof.
  induction l as [|e l IH]; [congruence|]. intros _ H.
  inversion H as [|? ? He Hl]; subst.
  destruct l as [|e' l]; [apply He|].
  rewrite join_cons2.
  rewrite endsWithSpace_app by discriminate.
  rewrite endsWithSpace_cons.
  - apply IH; [discriminate | assumption].
  - apply join_nonempty. inversion Hl as [|? ? He' _]. apply He'.
Qed.

(** X12: the text [joinObjectives] builds for the form is tidy whatever
    the lines are: it neither starts nor ends with white space, and it
    is empty exactly when no line holds anything but a marker and white
    space. *)
Theorem joinObjectives_tidy :
  forall lines : list jsstring,
    startsWithSpace (joinObjectives lines) = false /\
    endsWithSpace (joinObjectives lines) = false /\
    (joinObjectives lines = [] <->
     Forall (fun line => normalizeObjectiveLine line = []) lines).
Proof.
  intros lines.
  unfold joinObjectives. fold (cleanLines lines).
  assert (Hempty : cleanLines lines = [] <->
                   Forall (fun line => normalizeObjectiveLine line = []) lines).
  { unfold cleanLines. induction lines as [|x l IH]; simpl.
    - split; auto.
    - destruct (normalizeObjectiveLine x) as [|c r] eqn:E; simpl.
      + rewrite IH. split; [now constructor | intros H; now inversion H].
      + split; [discriminate | intros H; inversion H; congruence]. }
  pose proof (cleanLines_trimmed lines) as Ht.
  destruct (cleanLines lines) as [|e l] eqn:E.
  - split; [reflexivity|]. split; [reflexivity|].
    split; [intros _; now apply Hempty | reflexivity].
  - inversion Ht as [|? ? He Hl]; subst.
    destruct He as (Hne & Hhead & Htail). split; [|split].
    + rewrite join_head by exact Hne. exact Hhead.
    + apply join_tail_trimmed; [discriminate | exact Ht].
    + split.
      * intros H. exfalso. revert H. now apply join_nonempty.
      * intros H. apply Hempty in H. discriminate.
Qed.

Lemma cleanLines_tidy (l : list jsstring) :
  Forall (fun e => ~ In LF e) l -> Forall tidy (cleanLines l).
Proof.
  intros H. apply Forall_forall. intros e He. unfold cleanLines in He.
  apply filter_In in He. destruct He as [He Ht].
  apply in_map_iff in He. destruct He as (line & <- & Hline).
  apply normalize_tidy; [|exact Ht].
  rewrite Forall_forall in H. now apply H.
Qed.

Lemma join_clean (lines : list jsstring) :
  Forall tidy (cleanLines lines) -> Forall settled (cleanLines lines) ->
  joinObjectives (cleanLines lines) = joinObjectives lines.
Proof.
  intros Ht Hs. unfold joinObjectives.
  rewrite (map_settled Hs), (filter_truthy_tidy Ht). reflexivity.
Qed.

Lemma parse_join_clean (lines : list jsstring) :
  Forall (fun e => ~ In LF e) lines ->
  Forall settled (cleanLines lines) ->
  parseObjectivesText (joinObjectives lines) = cleanLines lines.
Proof.
  intros Hlf Hs. pose proof (cleanLines_tidy Hlf) as Ht.
  rewrite <- (@join_clean lines Ht Hs). now apply parse_join_fixed.
Qed.

(** X13: from the form to the store and back.  For lines without line
    feeds, parsing the text that [joinObjectives] made of them gives the
    cleaned lines again (each line normalised, empty ones dropped),
    provided no cleaned line still starts with a list marker. *)
Theorem join_then_parse :
  forall lines : list jsstring,
    Forall (fun e => ~ In LF e) lines ->
    Forall (fun e => normalizeObjectiveLine e = e)
      (filter truthy (map normalizeObjectiveLine lines)) ->
    parseObjectivesText (joinObjectives lines)
    = filter truthy (map normalizeObjectiveLine lines).
Proof. intros lines Hlf Hs. now apply parse_join_clean. Qed.

Lemma join_then_parse_witness :
  parseObjectivesText
    (joinObjectives [lit " - Explain it"; lit ""; lit "2. Apply it  "])
  = [lit "Explain it"; lit "Apply it"].
Proof.
  rewrite join_then_parse.
  - vm_compute. reflexivity.
  - repeat constructor; vm_compute; intuition discriminate.
  - assert (E : filter truthy (map normalizeObjectiveLine
                  [lit " - Explain it"; lit ""; lit "2. Apply it  "])
                = [lit "Explain it"; lit "Apply it"])
      by (vm_compute; reflexivity).
    rewrite E. repeat (constructor; [vm_compute; reflexivity|]). constructor.
Defined.

End ObjectivesMoreFacts.

(* ================================================================== *)
(** * Properties of the course-context form *)
(* ================================================================== *)

Module ContextFormFacts.
Import JS Store Api ObjectivesForm ObjectivesMore ContextForm.
Import JSFacts StoreFacts ObjectivesFacts ObjectivesMoreFacts.

Lemma linesChanged_inStep (l : list jsstring) (v : formView) :
  inStep (linesChanged l v).
Proof. reflexivity. Qed.

Lemma formHandle_inStep (e : formEvent) (v : formView) :
  inStep v -> inStep (formHandle e v).
Proof.
  intros H. destruct e; simpl; try exact H; try apply linesChanged_inStep.
  - unfold editObjectiveLine. destruct (nth_error _ _); [|exact H].
    destruct (str_eqb _ _); [exact H | apply linesChanged_inStep].
  - unfold removeObjectiveLine.
    destruct (Nat.ltb _ _); [apply linesChanged_inStep | exact H].
  - unfold applyBulkPaste.
    destruct (parseObjectivesText _); [exact H | apply linesChanged_inStep].
  - unfold handleSubmit.
    destruct (_ || _); [exact H|]. destruct r; exact H.
Qed.

Lemma formAfter_inStep (evs : list formEvent) (s : Store.state) :
  inStep (formAfter evs s).
Proof.
  unfold formAfter.
  assert (H0 : inStep (mountForm s)) by apply linesChanged_inStep.
  revert H0. generalize (mountForm s).
  induction evs as [|e evs IH]; intros w Hw; simpl; auto.
  apply IH. now apply formHandle_inStep.
Qed.

Lemma handleSubmit_guarded (r : reply Session) (v : formView) :
  requiredFilled (form v) = false ->
  handleSubmit r v = (with_error fillRequired v, None).
Proof.
  unfold requiredFilled, handleSubmit. intros H.
  destruct (truthy (course_title (form v))),
           (truthy (level (form v))),
           (truthy (modality (form v))); try discriminate; reflexivity.
Qed.

Lemma handleSubmit_filled (r : reply Session) (v : formView) :
  requiredFilled (form v) = true ->
  handleSubmit r v =
  (with_submitting false
     match r with
     | Resolved session =>
         with_pushed (lit "/objective-analysis")
           (with_store
              (setCurrentPhase PhaseObjectiveAnalysis
                 (setCourseContext (form v) (setSession session (store v))))
              (with_error [] (with_submitting true v)))
     | Rejected _ => with_error createFailed (with_error [] (with_submitting true v))
     end,
   Some (submitRequest v)).
Proof.
  unfold requiredFilled, handleSubmit. intros H.
  destruct (truthy (course_title (form v))),
           (truthy (level (form v))),
           (truthy (modality (form v))); try discriminate.
  destruct r; reflexivity.
Qed.

(** X14: what the form submits is what it shows.  After mounting over
    any store and any sequence of user events, the form's learning
    objectives are [joinObjectives] of the lines on screen, and that text
    (left out when empty) is what a submit request carries. *)
Theorem form_text_follows_lines :
  forall (s : Store.state) (evs : list formEvent),
    let v := formAfter evs s in
    learning_objectives (form v) = joinObjectives (objectivesLines v) /\
    new_learning_objectives (payload (form v))
      = or_undefined (joinObjectives (objectivesLines v)).
Proof.
  intros s evs v. pose proof (formAfter_inStep evs s) as H.
  fold v in H. unfold inStep in H. split; [exact H|].
  unfold payload. simpl. now rewrite H.
Qed.

(** X15: a submit that does not go through leaves everything in place.
    When a required field is empty no request is issued at all; when
    the request is rejected the store, the route and the form are as
    before; in both cases an error message is shown. *)
Theorem submit_without_effect :
  forall (r : reply Session) (v : formView),
    requiredFilled (form v) = false \/ (exists detail, r = Rejected detail) ->
    let out := handleSubmit r v in
    store (fst out) = store v /\
    pushed (fst out) = pushed v /\
    form (fst out) = form v /\
    objectivesLines (fst out) = objectivesLines v /\
    errorMessage (fst out) <> [] /\
    (if requiredFilled (form v)
     then snd out = Some (submitRequest v) /\ isSubmitting (fst out) = false
     else snd out = None /\ isSubmitting (fst out) = isSubmitting v).
Proof.
  intros r v H out. unfold out.
  destruct (requiredFilled (form v)) eqn:E.
  - destruct H as [H|(detail & ->)]; [discriminate|].
    rewrite handleSubmit_filled by assumption. simpl.
    repeat split; discriminate.
  - rewrite handleSubmit_guarded by assumption. simpl.
    repeat split; discriminate.
Qed.

Lemma submit_without_effect_witness :
  store (fst (handleSubmit (Rejected None) filledForm)) = store filledForm /\
  snd (handleSubmit (Resolved Reconciler.session7) (mountForm initial)) = None.
Proof.
  split.
  - assert (H : requiredFilled (form filledForm) = false
                \/ (exists d, Rejected None = @Rejected Session d))
      by (right; now exists None).
    destruct (@submit_without_effect (Rejected None) filledForm H) as (K & _).
    exact K.
  - assert (H : requiredFilled (form (mountForm initial)) = false
                \/ (exists d, Resolved Reconciler.session7 = Rejected d))
      by (left; vm_compute; reflexivity).
    destruct (@submit_without_effect (Resolved Reconciler.session7)
                (mountForm initial) H) as (_ & _ & _ & _ & _ & K).
    assert (E : requiredFilled (form (mountForm initial)) = false)
      by (vm_compute; reflexivity).
    rewrite E in K. apply K.
Defined.

(** X16: a submit that goes through.  With the required fields filled
    and the request resolved, the store holds the returned session and
    its id, a copy of the form, and the phase objective analysis, its
    three histories are untouched, [hasActiveSession] is true, the view
    has pushed [/objective-analysis] and shows no error.  The request
    was a PATCH of the stored session when the store had a session with
    a non-zero id, and a POST otherwise. *)
Theorem submit_success :
  forall (session : Session) (v : formView),
    requiredFilled (form v) = true ->
    let out := handleSubmit (Resolved session) v in
    let st := store (fst out) in
    currentSession st = Some session /\
    sessionId st = Some (session_id_of session) /\
    hasActiveSession st = true /\
    courseContext st = spread (form v) /\
    currentPhase st = PhaseObjectiveAnalysis /\
    designSteps st = designSteps (store v) /\
    recommendations st = recommendations (store v) /\
    userActions st = userActions (store v) /\
    pushed (fst out) = Some (lit "/objective-analysis") /\
    errorMessage (fst out) = [] /\
    isSubmitting (fst out) = false /\
    snd out =
      Some (match sessionId (store v) with
            | Some sid =>
                if (sid =? 0)%Z then PostSession (payload (form v))
                else PatchSession sid (payload (form v))
            | None => PostSession (payload (form v))
            end).
Proof.
  intros session v H out st. unfold st, out.
  rewrite handleSubmit_filled by assumption. simpl.
  repeat split. unfold submitRequest, hasExistingSession, hasActiveSession.
  destruct (sessionId (store v)) as [sid|]; [|reflexivity].
  simpl. now destruct (sid =? 0)%Z.
Qed.

Lemma submit_success_witness :
  hasActiveSession
    (store (fst (handleSubmit (Resolved Reconciler.session7) filledForm))) = true /\
  snd (handleSubmit (Resolved Reconciler.session7) filledForm)
    = Some (PostSession
              {| new_course_title := lit "Intro to ML";
                 new_level := lit "undergraduate";
                 new_modality := lit "online";
                 new_constraints := None;
                 new_learning_objectives := Some (lit "Explain it") |}).
Proof.
  assert (H : requiredFilled (form filledForm) = true)
    by (vm_compute; reflexivity).
  destruct (@submit_success Reconciler.session7 filledForm H)
    as (_ & _ & H1 & _ & _ & _ & _ & _ & _ & _ & _ & H2).
  split; [exact H1|]. etransitivity; [exact H2 | vm_compute; reflexivity].
Defined.

Lemma spread_spread (f : CourseContextForm) : spread (spread f) = f.
Proof. now destruct f. Qed.

(** X17: submit and come back.  When a form reached by any events is
    submitted successfully (the server giving a non-zero id) and the
    form view is then mounted again over the store, it shows the same
    form fields, and as its lines the cleaned lines of before (each
    normalised, the empty ones gone), provided the lines held no line
    feed and no cleaned line still starts with a list marker. *)
Theorem submit_and_return :
  forall (s : Store.state) (evs : list formEvent) (session : Session),
    let v := formAfter evs s in
    requiredFilled (form v) = true ->
    session_id_of session <> 0%Z ->
    Forall (fun e => ~ In LF e) (objectivesLines v) ->
    Forall (fun e => normalizeObjectiveLine e = e)
      (cleanLines (objectivesLines v)) ->
    let back := mountForm (store (fst (handleSubmit (Resolved session) v))) in
    form back = form v /\
    objectivesLines back = cleanLines (objectivesLines v).
Proof.
  intros s evs session v Hreq Hid Hlf Hs back.
  pose proof (formAfter_inStep evs s) as Hin. fold v in Hin.
  unfold inStep in Hin.
  assert (Hs' : Forall settled (cleanLines (objectivesLines v))) by exact Hs.
  pose proof (@parse_join_clean (objectivesLines v) Hlf Hs') as Hp.
  pose proof (@join_clean (objectivesLines v) (cleanLines_tidy Hlf) Hs') as Hj.
  unfold back. rewrite handleSubmit_filled by assumption. simpl.
  unfold mountForm, hasExistingSession, hasActiveSession. simpl.
  replace (session_id_of session =? 0)%Z with false
    by (symmetry; now apply Z.eqb_neq).
  simpl. rewrite or_empty_id, Hin, Hp. unfold linesChanged. simpl.
  split; [|reflexivity].
  rewrite Hj, <- Hin. unfold set_objectives. simpl. now destruct (form v).
Qed.

Lemma submit_and_return_witness :
  objectivesLines
    (mountForm (store (fst (handleSubmit (Resolved Reconciler.session7) filledForm))))
  = [lit "Explain it"].
Proof.
  assert (Hid : session_id_of Reconciler.session7 <> 0%Z) by discriminate.
  assert (Hlf : Forall (fun e => ~ In LF e) (objectivesLines filledForm)).
  { vm_compute. constructor; [|constructor]. intuition discriminate. }
  assert (Hs : Forall (fun e => normalizeObjectiveLine e = e)
                 (cleanLines (objectivesLines filledForm))).
  { replace (cleanLines (objectivesLines filledForm))
      with [lit "Explain it"] by (vm_compute; reflexivity).
    constructor; [vm_compute; reflexivity | constructor]. }
  assert (Hreq : requiredFilled (form filledForm) = true)
    by (vm_compute; reflexivity).
  destruct (@submit_and_return initial
              [TypeTitle (lit "Intro to ML"); PickLevel (lit "undergraduate");
               PickModality (lit "online"); TypeBulk (lit "- Explain it");
               ApplyBulk] Reconciler.session7 Hreq Hid Hlf Hs) as (_ & H).
  etransitivity; [exact H | vm_compute; reflexivity].
Defined.

(** Bulk paste.  The objectives parsed from the pasted text are
    appended to the lines, each of them tidy; when there are none (the
    text is blank or holds only markers) nothing at all changes and the
    paste box stays open with its text, otherwise the box is emptied and
    closed and the form text is rebuilt from the longer list. *)
Lemma applyBulkPaste_appends :
  forall v : formView,
    let added := parseObjectivesText (bulkObjectivesText v) in
    let v' := applyBulkPaste v in
    objectivesLines v' = objectivesLines v ++ added /\
    Forall tidy added /\
    match added with
    | [] => v' = v
    | _ =>
        bulkObjectivesText v' = [] /\ showBulkPaste v' = false /\
        learning_objectives (form v')
          = joinObjectives (objectivesLines v ++ added)
    end.
Proof.
  intros v added v'. unfold v', applyBulkPaste. fold added.
  split; [|split; [apply parse_tidy|]].
  - destruct added; [now rewrite app_nil_r | reflexivity].
  - destruct added; [reflexivity | repeat split].
Qed.

End ContextFormFacts.

(* ================================================================== *)
(** * Properties of the activity-suggestion view *)
(* ================================================================== *)

Module ActivityViewFacts.
Import JS Store Api ActivityView ActivityProps.
Import JSFacts MatchFacts StoreFacts.

Lemma withStatus_items (l : list ActivityItem) : forall k,
  map item (withStatus k l) = l.
Proof. induction l as [|a l IH]; intros k; simpl; [|rewrite IH]; reflexivity. Qed.

Lemma withStatus_fresh (l : list ActivityItem) : forall k,
  Forall (fun a => activity_status a = Pending /\ draft a = None)
    (withStatus k l).
Proof.
  induction l as [|a l IH]; intros k; simpl; constructor; auto.
Qed.

Lemma withStatus_ids (l : list ActivityItem) : forall k,
  map activity_id (withStatus k l) = map activityId (List.seq k (length l)).
Proof. induction l as [|a l IH]; intros k; simpl; [|rewrite IH]; reflexivity. Qed.

(** X18: a generation that resolves, on a view whose store holds a
    session id other than 0, for a reply of the declared shape (its
    activities carry the nine keys of [ActivityItem] and none of their
    own named [id], [status] or [draft]).  The list on screen and the
    store's activity suggestions hold the same cleaned activities, one
    per activity of the reply and in its order; each entry on screen is
    pending, has no draft and carries the id [activity-] followed by its
    position; a design step of phase ["activity-suggestion"] with the
    store's objectives as input is appended, also when the reply holds
    no activity; and an error is shown exactly when it holds none. *)
Theorem generateSuggestions_success :
  forall (v : view) (sid : Z) (r : LLMResponse SuggestionData) (now : jsstring),
    sessionId (store v) = Some sid -> sid <> 0%Z ->
    let v' := generateSuggestions (Resolved r) now v in
    let cleaned := map cleanActivity (orNil (data_activities (data r))) in
    map item (activities v') = cleaned /\
    activitySuggestions (store v') = cleaned /\
    Forall (fun a => activity_status a = Pending /\ draft a = None)
      (activities v') /\
    map activity_id (activities v')
      = map activityId (List.seq 0 (length cleaned)) /\
    designSteps (store v') =
      designSteps (store v) ++
      [suggestionStep r sid (learning_objectives (courseContext (store v))) now] /\
    (errorMessage v' = [] <-> cleaned <> []) /\
    isGenerating v' = false.
Proof.
  intros v sid r now Hs Hz v' cleaned. unfold v', generateSuggestions.
  rewrite Hs. replace (sid =? 0)%Z with false by (symmetry; now apply Z.eqb_neq).
  fold cleaned. simpl.
  split; [apply withStatus_items|]. split; [reflexivity|].
  split; [apply withStatus_fresh|]. split; [apply withStatus_ids|].
  split; [reflexivity|]. split; [|reflexivity].
  destruct cleaned as [|a l].
  - split; [|congruence].
    destruct (truthyFlag _ && truthy _); discriminate.
  - split; [discriminate | reflexivity].
Qed.

Lemma generateSuggestions_success_witness :
  map activity_id (activities generated1)
    = [lit "activity-0"; lit "activity-1"] /\
  map title (activitySuggestions (store generated1))
    = [lit "Think-pair-share"; lit "Think-pair-share"].
Proof.
  assert (Hz : 7%Z <> 0%Z) by discriminate.
  destruct (@generateSuggestions_success (mountActivities Reconciler.store7) 7
              suggestions1 (lit "2024-03-09T23:09:00.000Z") eq_refl Hz)
    as (_ & H2 & _ & H4 & _).
  split.
  - etransitivity; [exact H4 | vm_compute; reflexivity].
  - unfold generated1. rewrite H2. vm_compute. reflexivity.
Defined.

Lemma cleanText_neat (o : option jsstring) : neat (cleanText o).
Proof. split; [apply trim_head | apply trim_tail]. Qed.

Lemma cleanList_neat (o : option (list (option jsstring))) :
  neatList (cleanList o).
Proof.
  apply Forall_forall. intros x Hx. unfold cleanList in Hx.
  apply filter_In in Hx. destruct Hx as [Hx Ht].
  apply in_map_iff in Hx. destruct Hx as (y & <- & _).
  split; [now apply truthy_nonempty | apply cleanText_neat].
Qed.

(** X19: what a generation stores is clean, for a reply of the declared
    shape and a store holding a session id other than 0.  In every
    activity kept after a resolved generation, each of the declared text
    fields is free of white space at both ends, and the declared lists
    of aligned objectives, materials and instructions hold no empty
    entry and only entries free of white space at both ends, whatever
    those nine fields held in the reply (missing ones included). *)
Theorem generated_activities_neat :
  forall (v : view) (sid : Z) (r : LLMResponse SuggestionData) (now : jsstring),
    sessionId (store v) = Some sid -> sid <> 0%Z ->
    let v' := generateSuggestions (Resolved r) now v in
    Forall neatActivity (activitySuggestions (store v')) /\
    Forall (fun a => neatActivity (item a)) (activities v') /\
    neat (sequenceRationale v') /\ neat (totalEstimatedTime v').
Proof.
  intros v sid r now Hs Hz v'. unfold v', generateSuggestions.
  rewrite Hs. replace (sid =? 0)%Z with false by (symmetry; now apply Z.eqb_neq).
  simpl.
  assert (H : Forall neatActivity
                (map cleanActivity (orNil (data_activities (data r))))).
  { apply Forall_forall. intros a Ha. apply in_map_iff in Ha.
    destruct Ha as (x & <- & _). unfold neatActivity, cleanActivity. simpl.
    repeat split; try apply cleanText_neat; apply cleanList_neat. }
  split; [exact H|]. split; [|split; apply cleanText_neat].
  apply Forall_forall. intros a Ha.
  rewrite Forall_forall in H. apply H.
  rewrite <- (withStatus_items (map cleanActivity (orNil (data_activities (data r)))) 0).
  now apply in_map.
Qed.

Lemma generated_activities_neat_witness :
  Forall neatActivity (activitySuggestions (store generated1)).
Proof.
  assert (Hz : 7%Z <> 0%Z) by discriminate.
  apply (@generated_activities_neat (mountActivities Reconciler.store7) 7
           suggestions1 (lit "2024-03-09T23:09:00.000Z") eq_refl Hz).
Defined.

(** X20: a generation that is rejected, on a view with an active
    session.  The list on screen, the rationale and the time estimate
    are emptied all the same, while the store keeps the suggestions and
    steps it had; the error shown is the [detail] of the response or
    the stock message. *)
Theorem generateSuggestions_failure :
  forall (v : view) (sid : Z) (detail : option jsstring) (now : jsstring),
    sessionId (store v) = Some sid -> sid <> 0%Z ->
    let v' := generateSuggestions (Rejected detail) now v in
    activities v' = [] /\
    sequenceRationale v' = [] /\ totalEstimatedTime v' = [] /\
    store v' = store v /\
    stepId v' = stepId v /\
    errorMessage v' <> [] /\
    isGenerating v' = false.
Proof.
  intros v sid detail now Hs Hz v'. unfold v', generateSuggestions.
  rewrite Hs. replace (sid =? 0)%Z with false by (symmetry; now apply Z.eqb_neq).
  simpl. repeat split.
  destruct detail as [[|c d]|]; discriminate.
Qed.

Lemma generateSuggestions_failure_witness :
  activities (generateSuggestions (Rejected None)
                (lit "2024-03-09T23:10:00.000Z") generated1) = [] /\
  length (activitySuggestions
            (store (generateSuggestions (Rejected None)
                      (lit "2024-03-09T23:10:00.000Z") generated1))) = 2.
Proof.
  assert (Hz : 7%Z <> 0%Z) by discriminate.
  destruct (@generateSuggestions_failure generated1 7 None
              (lit "2024-03-09T23:10:00.000Z") eq_refl Hz)
    as (H1 & _ & _ & H4 & _).
  split; [exact H1|]. rewrite H4. reflexivity.
Defined.

(** ** Changing one activity *)

Lemma find_app_none {A} (p : A -> bool) (l1 l2 : list A) :
  find p l1 = None -> find p (l1 ++ l2) = find p l2.
Proof.
  induction l1 as [|a l IH]; simpl; [reflexivity|].
  destruct (p a); [discriminate | exact IH].
Qed.

Lemma changeFirst_absent (id : jsstring) f (l : list ActivityWithStatus) :
  find (fun a => str_eqb (activity_id a) id) l = None ->
  changeFirst id f l = l.
Proof.
  induction l as [|a l IH]; simpl; [reflexivity|].
  destruct (str_eqb (activity_id a) id); [discriminate|].
  intros H. now rewrite IH.
Qed.

Lemma changeFirst_split (id : jsstring) f (l : list ActivityWithStatus) a :
  find (fun a => str_eqb (activity_id a) id) l = Some a ->
  exists l1 l2,
    l = l1 ++ a :: l2 /\ changeFirst id f l = l1 ++ f a :: l2 /\
    find (fun a => str_eqb (activity_id a) id) l1 = None.
Proof.
  induction l as [|x l IH]; simpl; [discriminate|].
  destruct (str_eqb (activity_id x) id) eqn:E.
  - intros [= ->]. now exists [], l.
  - intros H. destruct (IH H) as (l1 & l2 & -> & H2 & H3).
    exists (x :: l1), l2. simpl. rewrite H2, E. auto.
Qed.

Lemma changeFirst_map {B} (g : ActivityWithStatus -> B) (id : jsstring) f
    (l : list ActivityWithStatus) :
  (forall a, g (f a) = g a) ->
  map g (changeFirst id f l) = map g l.
Proof.
  intros H. induction l as [|a l IH]; simpl; [reflexivity|].
  destruct (str_eqb (activity_id a) id); simpl; [now rewrite H | now rewrite IH].
Qed.

Lemma changeFirst_twice (id : jsstring) f g (l : list ActivityWithStatus) :
  (forall a, activity_id (f a) = activity_id a) ->
  changeFirst id g (changeFirst id f l) = changeFirst id (fun a => g (f a)) l.
Proof.
  intros H. induction l as [|a l IH]; simpl; [reflexivity|].
  destruct (str_eqb (activity_id a) id) eqn:E; simpl.
  - now rewrite H, E.
  - now rewrite E, IH.
Qed.

Lemma changeFirst_same (id : jsstring) f (l : list ActivityWithStatus) :
  (forall a, find (fun a => str_eqb (activity_id a) id) l = Some a -> f a = a) ->
  changeFirst id f l = l.
Proof.
  induction l as [|a l IH]; simpl; [reflexivity|].
  destruct (str_eqb (activity_id a) id) eqn:E; intros H.
  - now rewrite H.
  - now rewrite IH.
Qed.

Lemma view_eta (v : view) : with_activities (activities v) v = v.
Proof. now destruct v. Qed.

Lemma find_none_ids (id : jsstring) (l : list ActivityWithStatus) :
  find (fun a => str_eqb (activity_id a) id) l = None ->
  Forall (fun b => activity_id b <> id) l.
Proof.
  intros H. apply Forall_forall. intros b Hb.
  apply str_eqb_neq. exact (List.find_none _ _ H b Hb).
Qed.

(** X21: accepting or rejecting.  When no activity carries the given id
    the view is left exactly as it was.  Otherwise, with [a] the first
    activity that carries it, the view afterwards is the view of before
    with that one activity replaced, at its place, by [a] with the
    status accepted (or rejected): its item, id and draft, every other
    activity in all its fields, the order of the list, the store and
    every other ref of the view are as they were. *)
Theorem decisions_change_status_only :
  forall (id : jsstring) (v : view),
    let acc := acceptActivity id v in
    let rej := rejectActivity id v in
    match found id v with
    | Some a =>
        exists before after : list ActivityWithStatus,
          activities v = before ++ a :: after /\
          Forall (fun b => activity_id b <> id) before /\
          acc = {| isGenerating := isGenerating v; stepId := stepId v;
                   recommendationId := recommendationId v;
                   errorMessage := errorMessage v;
                   activities :=
                     before ++
                     {| item := item a; activity_id := activity_id a;
                        activity_status := Accepted; draft := draft a |}
                     :: after;
                   sequenceRationale := sequenceRationale v;
                   totalEstimatedTime := totalEstimatedTime v;
                   store := store v |} /\
          rej = {| isGenerating := isGenerating v; stepId := stepId v;
                   recommendationId := recommendationId v;
                   errorMessage := errorMessage v;
                   activities :=
                     before ++
                     {| item := item a; activity_id := activity_id a;
                        activity_status := Declined; draft := draft a |}
                     :: after;
                   sequenceRationale := sequenceRationale v;
                   totalEstimatedTime := totalEstimatedTime v;
                   store := store v |}
    | None => acc = v /\ rej = v
    end.
Proof.
  intros id v acc rej. unfold acc, rej, acceptActivity, rejectActivity, found.
  destruct (find _ (activities v)) as [a|] eqn:E.
  - destruct (@changeFirst_split id (setStatus Accepted) _ _ E)
      as (l1 & l2 & E1 & E2 & E3).
    destruct (@changeFirst_split id (setStatus Declined) _ _ E)
      as (k1 & k2 & F1 & F2 & F3).
    assert (K : k1 = l1 /\ k2 = l2).
    { destruct (find_some _ _ E) as [_ Ha].
      rewrite E1 in F1. clear -F1 E3 F3 Ha. revert k1 F1 F3.
      induction l1 as [|x l1 IH]; intros [|y k1] F1 F3; simpl in *.
      - injection F1; intros; subst; auto.
      - injection F1; intros; subst. rewrite Ha in F3. discriminate.
      - injection F1; intros; subst. rewrite Ha in E3. discriminate.
      - injection F1; intros F1' <-.
        destruct (str_eqb (activity_id x) id); [discriminate|].
        destruct (IH E3 k1 F1' F3) as [-> ->]. auto. }
    destruct K as [-> ->].
    exists l1, l2. split; [exact E1|]. split; [now apply find_none_ids|].
    rewrite E2, F2. split; reflexivity.
  - rewrite !changeFirst_absent by exact E. split; apply view_eta.
Qed.

(** X22: opening the editor and cancelling.  The items of all
    activities are as before; and when the activity found was pending
    and had no draft, the view is back exactly where it was. *)
Theorem edit_then_cancel :
  forall (id : jsstring) (v : view),
    let v' := cancelEdits id (editActivity id v) in
    map item (activities v') = map item (activities v) /\
    store v' = store v /\
    match found id v with
    | Some a =>
        (activity_status a = Pending -> draft a = None -> v' = v)
    | None => v' = v
    end.
Proof.
  intros id v v'.
  assert (Hv : v' = with_activities
                      (changeFirst id (fun a => dropDraft (startEditing a))
                         (activities v)) v).
  { unfold v', cancelEdits, editActivity.
    rewrite <- (@changeFirst_twice id startEditing dropDraft (activities v))
      by reflexivity.
    reflexivity. }
  rewrite Hv. clear Hv v'.
  split; [now apply changeFirst_map|]. split; [reflexivity|].
  unfold found. destruct (find _ (activities v)) as [a|] eqn:E.
  - intros Hs Hd. rewrite changeFirst_same; [apply view_eta|].
    intros b Hb. rewrite E in Hb. injection Hb as <-.
    destruct a; simpl in *; subst; reflexivity.
  - rewrite changeFirst_absent by exact E. apply view_eta.
Qed.

Lemma edit_then_cancel_witness :
  cancelEdits (lit "activity-1") (editActivity (lit "activity-1") generated1)
  = generated1.
Proof.
  destruct (@edit_then_cancel (lit "activity-1") generated1) as (_ & _ & H).
  vm_compute in H. apply H; reflexivity.
Defined.

(** ** The materials box *)

Lemma joinWith_cons (sep x y : jsstring) (r : list jsstring) :
  joinWith sep (x :: y :: r) = x ++ sep ++ joinWith sep (y :: r).
Proof. reflexivity. Qed.

Lemma joinWith_head (sep p x : jsstring) (r : list jsstring) :
  p ++ joinWith sep (x :: r) = joinWith sep ((p ++ x) :: r).
Proof.
  destruct r as [|y r]; [reflexivity|].
  rewrite !joinWith_cons. now rewrite app_assoc.
Qed.

Lemma split_joinWith (r : list jsstring) : forall m,
  ~ In 44%N m -> Forall (fun x => ~ In 44%N x) r ->
  split 44%N (joinWith (lit ", ") (m :: r)) = m :: map (fun x => 32%N :: x) r.
Proof.
  induction r as [|y r IH]; intros m Hm Hr.
  - simpl. now apply split_no_sep.
  - inversion Hr as [|? ? Hy Hr']; subst.
    rewrite joinWith_cons.
    change (lit ", " ++ joinWith (lit ", ") (y :: r))
      with (44%N :: ([32%N] ++ joinWith (lit ", ") (y :: r))).
    rewrite split_app_sep by exact Hm.
    rewrite joinWith_head. rewrite IH; [reflexivity| |exact Hr'].
    simpl. intros [H|H]; [discriminate | now apply Hy].
Qed.

Lemma materials_round_trip (ms : list jsstring) :
  Forall plainMaterial ms -> materialsOf (joinWith (lit ", ") ms) = ms.
Proof.
  intros H. unfold materialsOf. destruct ms as [|m r]; [reflexivity|].
  inversion H as [|? ? Hm Hr]; subst.
  rewrite split_joinWith.
  - clear H. cbn [map filter].
    destruct Hm as (Hne & _ & Hs & He).
    rewrite trim_fixed by assumption.
    destruct m as [|c m]; [congruence|]. cbn [truthy]. f_equal.
    induction Hr as [|y r (Hy & _ & Hys & Hye) _ IH]; [reflexivity|].
    cbn [map filter]. change (trim (32%N :: y)) with (trim y).
    rewrite trim_fixed by assumption.
    destruct y as [|d y]; [congruence|]. cbn [truthy]. now rewrite IH.
  - apply Hm.
  - eapply Forall_impl; [|exact Hr]. intros x Hx. apply Hx.
Qed.

Lemma applyDraft_startEditing (a : ActivityWithStatus) :
  Forall plainMaterial (materials_needed (item a)) ->
  applyDraft (startEditing a)
  = {| item := item a; activity_id := activity_id a;
       activity_status := Pending; draft := None |}.
Proof.
  intros H. unfold applyDraft, startEditing. simpl.
  rewrite !or_empty_id, materials_round_trip by assumption.
  now destruct (item a).
Qed.

(** X23: opening the editor and saving without typing.  For the first
    activity [a] that carries the id, when its materials are each
    non-empty, free of commas and of white space at the ends, the view
    afterwards is the view of before with [a] replaced, at its place, by
    [a] pending and without draft (its item and id as they were) and
    with the store's suggestions set to the items on screen: every other
    activity in all its fields, the order of the list and every other
    ref of the view are as they were. *)
Theorem edit_then_save_unchanged :
  forall (id : jsstring) (v : view) (a : ActivityWithStatus),
    found id v = Some a ->
    Forall plainMaterial (materials_needed (item a)) ->
    let v' := saveEdits id (editActivity id v) in
    exists before after : list ActivityWithStatus,
      activities v = before ++ a :: after /\
      Forall (fun b => activity_id b <> id) before /\
      v' = {| isGenerating := isGenerating v; stepId := stepId v;
              recommendationId := recommendationId v;
              errorMessage := errorMessage v;
              activities :=
                before ++
                {| item := item a; activity_id := activity_id a;
                   activity_status := Pending; draft := None |}
                :: after;
              sequenceRationale := sequenceRationale v;
              totalEstimatedTime := totalEstimatedTime v;
              store := setActivitySuggestions (map item (activities v))
                         (store v) |} /\
      map item (activities v') = map item (activities v) /\
      activitySuggestions (store v') = map item (activities v').
Proof.
  intros id v a Hf Hm v'. unfold found in Hf.
  destruct (@changeFirst_split id startEditing _ _ Hf)
    as (l1 & l2 & E1 & E2 & E3).
  assert (Hid : str_eqb (activity_id a) id = true).
  { apply find_some in Hf. apply Hf. }
  assert (Hfound : found id (editActivity id v) = Some (startEditing a)).
  { unfold found, editActivity. simpl. rewrite E2.
    rewrite find_app_none by exact E3. simpl. now rewrite Hid. }
  assert (Hl : changeFirst id applyDraft (activities (editActivity id v))
               = l1 ++ dropDraft a :: l2).
  { unfold editActivity. simpl. rewrite changeFirst_twice by reflexivity.
    destruct (@changeFirst_split id (fun x => applyDraft (startEditing x)) _ _ Hf)
      as (k1 & k2 & F1 & F2 & F3).
    rewrite F2. rewrite applyDraft_startEditing by assumption.
    rewrite E1 in F1.
    assert (K : k1 = l1 /\ k2 = l2).
    { clear -F1 E3 F3 Hid. revert k1 F1 F3.
      induction l1 as [|x l1 IH]; intros [|y k1] F1 F3; simpl in *.
      - injection F1; intros; subst; auto.
      - injection F1; intros; subst. rewrite Hid in F3. discriminate.
      - injection F1; intros; subst. rewrite Hid in E3. discriminate.
      - injection F1; intros F1' <-.
        destruct (str_eqb (activity_id x) id); [discriminate|].
        destruct (IH E3 k1 F1' F3) as [-> ->]. auto. }
    destruct K as [-> ->]. reflexivity. }
  assert (Hitems : map item (l1 ++ dropDraft a :: l2) = map item (activities v)).
  { rewrite E1, !map_app. reflexivity. }
  assert (Hv : v' = {| isGenerating := isGenerating v; stepId := stepId v;
                       recommendationId := recommendationId v;
                       errorMessage := errorMessage v;
                       activities := l1 ++ dropDraft a :: l2;
                       sequenceRationale := sequenceRationale v;
                       totalEstimatedTime := totalEstimatedTime v;
                       store := setActivitySuggestions (map item (activities v))
                                  (store v) |}).
  { unfold v', saveEdits. rewrite Hfound. cbn [draft startEditing]. rewrite Hl.
    unfold with_store, with_activities, editActivity. cbn.
    now rewrite Hitems. }
  exists l1, l2. split; [exact E1|]. split; [now apply find_none_ids|].
  split; [exact Hv|]. rewrite Hv. cbn [activities store activitySuggestions
                                        setActivitySuggestions].
  split; [exact Hitems | now rewrite Hitems].
Qed.

Lemma edit_then_save_unchanged_witness :
  map item (activities
              (saveEdits (lit "activity-1")
                 (editActivity (lit "activity-1") generated1)))
  = map item (activities generated1).
Proof.
  assert (Hf : found (lit "activity-1") generated1
               = Some {| item := cleanActivity rawActivity1;
                         activity_id := lit "activity-1";
                         activity_status := Pending; draft := None |})
    by (vm_compute; reflexivity).
  assert (Hm : Forall plainMaterial
                 (materials_needed (cleanActivity rawActivity1))).
  { vm_compute. repeat constructor; intuition discriminate. }
  destruct (@edit_then_save_unchanged (lit "activity-1") generated1 _ Hf Hm)
    as (l1 & l2 & _ & _ & _ & H & _).
  exact H.
Defined.

End ActivityViewFacts.

(* ================================================================== *)
(** * Properties of the activity-suggestion view as a transition system *)
(* ================================================================== *)

Module ActivityFlowFacts.
Import JS Store Api ActivityView ActivityFlow.
Import JSFacts StoreFacts ActivityViewFacts.

(** ** Ids are injective in the position *)

Lemma lit_inj (a b : string) : lit a = lit b -> a = b.
Proof.
  unfold lit. intros H.
  rewrite <- (string_of_list_ascii_of_string a),
          <- (string_of_list_ascii_of_string b).
  f_equal. revert H.
  generalize (list_ascii_of_string a) (list_ascii_of_string b).
  induction l as [|x l IH]; intros [|y l']; simpl; try discriminate; auto.
  intros [= Hxy Hl]. f_equal; [|now apply IH].
  rewrite <- (ascii_N_embedding x), <- (ascii_N_embedding y). now rewrite Hxy.
Qed.

Lemma to_int_proper (z : Z) :
  Z.to_int z <> Decimal.Pos Decimal.Nil /\ Z.to_int z <> Decimal.Neg Decimal.Nil.
Proof.
  destruct z as [|p|p]; simpl; split; try discriminate;
    intros [= H]; now apply (DecimalPos.Unsigned.to_uint_nonnil p).
Qed.

Lemma numberToString_inj (a b : Z) :
  numberToString a = numberToString b -> a = b.
Proof.
  unfold numberToString. intros H. apply lit_inj in H.
  apply DecimalZ.to_int_inj.
  destruct (to_int_proper a) as [A1 A2], (to_int_proper b) as [B1 B2].
  pose proof (@NilZero.isi _ A1 A2) as Ia.
  pose proof (@NilZero.isi _ B1 B2) as Ib.
  rewrite H in Ia. congruence.
Qed.

Lemma activityId_inj (i j : nat) : activityId i = activityId j -> i = j.
Proof.
  unfold activityId. intros H. apply app_inv_head in H.
  apply numberToString_inj in H. lia.
Qed.

Lemma NoDup_map_inj {A B} (f : A -> B) (l : list A) :
  (forall x y, f x = f y -> x = y) -> NoDup l -> NoDup (map f l).
Proof.
  intros Hf H. induction H as [|x l Hx _ IH]; simpl; constructor; auto.
  intros Hin. apply in_map_iff in Hin. destruct Hin as (y & Hy & Hin).
  apply Hf in Hy. now subst.
Qed.

(** ** The handlers keep the ids *)

Lemma withStatus_length (l : list ActivityItem) : forall k,
  length (withStatus k l) = length l.
Proof. induction l as [|a l IH]; intros k; simpl; [|rewrite IH]; reflexivity. Qed.

Lemma indexed_withStatus (l : list ActivityItem) : indexed (withStatus 0 l).
Proof. unfold indexed. now rewrite withStatus_ids, withStatus_length. Qed.

Lemma changeFirst_length (id : jsstring) f (l : list ActivityWithStatus) :
  length (changeFirst id f l) = length l.
Proof.
  induction l as [|a l IH]; simpl; [reflexivity|].
  destruct (str_eqb (activity_id a) id); simpl; [|rewrite IH]; reflexivity.
Qed.

Lemma indexed_changeFirst (id : jsstring) f (l : list ActivityWithStatus) :
  (forall a, activity_id (f a) = activity_id a) ->
  indexed l -> indexed (changeFirst id f l).
Proof.
  intros Hf H. unfold indexed in *.
  now rewrite changeFirst_length, (@changeFirst_map _ activity_id id f l Hf).
Qed.

Lemma typed_id (d : Draft) (a : ActivityWithStatus) :
  activity_id
    match draft a with
    | Some _ => {| item := item a; activity_id := activity_id a;
                   activity_status := activity_status a; draft := Some d |}
    | None => a
    end = activity_id a.
Proof. now destruct (draft a). Qed.

Lemma typed_item (d : Draft) (a : ActivityWithStatus) :
  item
    match draft a with
    | Some _ => {| item := item a; activity_id := activity_id a;
                   activity_status := activity_status a; draft := Some d |}
    | None => a
    end = item a.
Proof. now destruct (draft a). Qed.

Lemma applyDraft_id (a : ActivityWithStatus) :
  activity_id (applyDraft a) = activity_id a.
Proof. unfold applyDraft. now destruct (draft a). Qed.

Lemma activityHandle_indexed (e : activityEvent) (v : view) :
  indexed (activities v) -> indexed (activities (activityHandle e v)).
Proof.
  intros H. destruct e as [r now|id|id|id|id d|id|id|id|]; simpl.
  - unfold generateSuggestions.
    destruct (sessionId (store v)) as [sid|]; [|exact H].
    destruct (sid =? 0)%Z; [exact H|].
    destruct r; simpl; [reflexivity | apply indexed_withStatus].
  - now apply indexed_changeFirst.
  - now apply indexed_changeFirst.
  - now apply indexed_changeFirst.
  - apply indexed_changeFirst; [apply typed_id | exact H].
  - unfold saveEdits. destruct (found id v) as [a|]; [|exact H].
    destruct (draft a); [|exact H]. simpl.
    apply indexed_changeFirst; [apply applyDraft_id | exact H].
  - now apply indexed_changeFirst.
  - exact H.
  - exact H.
Qed.

Lemma activityAfter_indexed (evs : list activityEvent) (s : Store.state) :
  indexed (activities (activityAfter evs s)).
Proof.
  unfold activityAfter.
  assert (H0 : indexed (activities (mountActivities s))).
  { unfold mountActivities. simpl.
    destruct (hasActiveSession s); [apply indexed_withStatus | reflexivity]. }
  revert H0. generalize (mountActivities s).
  induction evs as [|e evs IH]; intros w Hw; simpl; auto.
  apply IH. now apply activityHandle_indexed.
Qed.

Lemma indexed_find (l : list ActivityWithStatus) : forall j k a,
  map activity_id l = map activityId (List.seq j (length l)) ->
  nth_error l k = Some a ->
  find (fun x => str_eqb (activity_id x) (activityId (j + k))) l = Some a.
Proof.
  induction l as [|x l IH]; intros j k a H Hk.
  - destruct k; discriminate.
  - simpl in H. injection H as Hx Hl. destruct k as [|k]; simpl in *.
    + injection Hk as <-. rewrite Nat.add_0_r, Hx, str_eqb_refl. reflexivity.
    + assert (E : str_eqb (activity_id x) (activityId (j + S k)) = false).
      { apply str_eqb_neq. rewrite Hx. intros Heq.
        apply activityId_inj in Heq. lia. }
      rewrite E. replace (j + S k) with (S j + k) by lia. now apply IH.
Qed.

(** X24: ids follow positions.  In every state the view reaches from its
    mount by generations that settle and by presses of its buttons, for
    activities of the declared shape, the activity at position [k]
    carries the id [activity-k]; the ids are pairwise distinct; and the
    lookup by the id of a position finds the activity at that position. *)
Theorem ids_follow_positions :
  forall (s : Store.state) (evs : list activityEvent),
    let v := activityAfter evs s in
    map activity_id (activities v)
      = map activityId (List.seq 0 (length (activities v))) /\
    NoDup (map activity_id (activities v)) /\
    forall (k : nat) (a : ActivityWithStatus),
      nth_error (activities v) k = Some a ->
      found (activityId k) v = Some a.
Proof.
  intros s evs v. pose proof (activityAfter_indexed evs s) as H. fold v in H.
  split; [exact H|]. split.
  - rewrite H. apply NoDup_map_inj; [apply activityId_inj | apply seq_NoDup].
  - intros k a Hk. unfold found.
    exact (@indexed_find (activities v) 0 k a H Hk).
Qed.

Lemma ids_follow_positions_witness :
  found (lit "activity-1")
    (activityAfter
       [DoGenerate (Resolved ActivityProps.suggestions1)
          (lit "2024-03-09T23:09:00.000Z");
        DoAccept (lit "activity-0")] Reconciler.store7)
  = Some {| item := cleanActivity ActivityProps.rawActivity1;
            activity_id := lit "activity-1";
            activity_status := Pending; draft := None |}.
Proof.
  destruct (@ids_follow_positions Reconciler.store7
              [DoGenerate (Resolved ActivityProps.suggestions1)
                 (lit "2024-03-09T23:09:00.000Z");
               DoAccept (lit "activity-0")]) as (_ & _ & H).
  assert (Hk : nth_error
                 (activities
                    (activityAfter
                       [DoGenerate (Resolved ActivityProps.suggestions1)
                          (lit "2024-03-09T23:09:00.000Z");
                        DoAccept (lit "activity-0")] Reconciler.store7)) 1
               = Some {| item := cleanActivity ActivityProps.rawActivity1;
                         activity_id := lit "activity-1";
                         activity_status := Pending; draft := None |})
    by (vm_compute; reflexivity).
  exact (H 1 _ Hk).
Defined.

(** ** The screen and the store *)

Lemma mirrors_changeFirst (id : jsstring) f (v : view) :
  (forall a, item (f a) = item a) ->
  mirrorsStore v ->
  mirrorsStore (with_activities (changeFirst id f (activities v)) v).
Proof.
  intros Hf [H|H]; unfold mirrorsStore; simpl.
  - left. now rewrite H.
  - right. now rewrite (@changeFirst_map _ item id f (activities v) Hf).
Qed.

Lemma activityHandle_mirrors (e : activityEvent) (v : view) :
  mirrorsStore v -> mirrorsStore (activityHandle e v).
Proof.
  intros H. destruct e as [r now|id|id|id|id d|id|id|id|]; simpl.
  - unfold generateSuggestions.
    destruct (sessionId (store v)) as [sid|]; [|exact H].
    destruct (sid =? 0)%Z; [exact H|].
    destruct r; [left; reflexivity|].
    right. simpl. apply withStatus_items.
  - now apply mirrors_changeFirst.
  - now apply mirrors_changeFirst.
  - now apply mirrors_changeFirst.
  - apply mirrors_changeFirst; [apply typed_item | exact H].
  - unfold saveEdits. destruct (found id v) as [a|]; [|exact H].
    destruct (draft a); [|exact H]. right. reflexivity.
  - now apply mirrors_changeFirst.
  - exact H.
  - exact H.
Qed.

Lemma activityHandle_session (e : activityEvent) (v : view) (s : Store.state) :
  sameSession s (store v) -> sameSession s (store (activityHandle e v)).
Proof.
  intros H. destruct e as [r now|id|id|id|id d|id|id|id|]; simpl; try exact H.
  - unfold generateSuggestions.
    destruct (sessionId (store v)) as [sid|]; [|exact H].
    destruct (sid =? 0)%Z; [exact H|].
    destruct r; exact H.
  - unfold saveEdits. destruct (found id v) as [a|]; [|exact H].
    destruct (draft a); exact H.
Qed.

Lemma activityHandle_phase (e : activityEvent) (v : view) :
  currentPhase (store (activityHandle e v))
  = if isProceed e then PhaseSummary else currentPhase (store v).
Proof.
  destruct e as [r now|id|id|id|id d|id|id|id|]; simpl; try reflexivity.
  - unfold generateSuggestions.
    destruct (sessionId (store v)) as [sid|]; [|reflexivity].
    destruct (sid =? 0)%Z; [reflexivity|].
    destruct r; reflexivity.
  - unfold saveEdits. destruct (found id v) as [a|]; [|reflexivity].
    destruct (draft a); reflexivity.
Qed.

(** X25: the screen mirrors the store.  In every state the view reaches
    from its mount by generations that settle and presses of its
    buttons, [proceedToSummary] included, the list on screen is either
    empty or shows, item for item, the activity suggestions of the
    store; the view has changed neither the session, its id, the course
    context, the recommendations nor the user actions of the store; and
    the phase of the store is [summary] when the button that proceeds
    to the summary was pressed, and the phase of before otherwise. *)
Theorem screen_mirrors_store :
  forall (s : Store.state) (evs : list activityEvent),
    let v := activityAfter evs s in
    (activities v = [] \/
     map item (activities v) = activitySuggestions (store v)) /\
    currentSession (store v) = currentSession s /\
    sessionId (store v) = sessionId s /\
    courseContext (store v) = courseContext s /\
    recommendations (store v) = recommendations s /\
    userActions (store v) = userActions s /\
    currentPhase (store v)
      = if existsb isProceed evs then PhaseSummary else currentPhase s.
Proof.
  intros s evs v. unfold v, activityAfter.
  assert (H0 : mirrorsStore (mountActivities s) /\
               sameSession s (store (mountActivities s))).
  { split; [|repeat split]. unfold mirrorsStore, mountActivities. simpl.
    destruct (hasActiveSession s); [right; apply withStatus_items | now left]. }
  change (currentPhase s) with (currentPhase (store (mountActivities s))).
  revert H0. generalize (mountActivities s).
  induction evs as [|e evs IH]; intros w [Hm Hs]; cbn [fold_left existsb].
  - destruct Hs as (S1 & S2 & S3 & S4 & S5). repeat split; assumption.
  - destruct (IH (activityHandle e w)) as (I1 & I2 & I3 & I4 & I5 & I6 & I7).
    { split; [now apply activityHandle_mirrors
             | now apply activityHandle_session]. }
    repeat split; try assumption.
    rewrite I7, activityHandle_phase.
    destruct (isProceed e); simpl; [|reflexivity].
    now destruct (existsb isProceed evs).
Qed.

End ActivityFlowFacts.


(* ================================================================== *)
(** * Properties of the form as a transition system *)
(* ================================================================== *)

Module FormFlowFacts.
Import JS Store Api ObjectivesForm ContextForm FormFlow.
Import JSFacts StoreFacts ContextFormFacts.

Lemma linesChanged_kept (s : Store.state) (l : list jsstring) (v : formView) :
  kept s v -> kept s (linesChanged l v).
Proof. intros H. exact H. Qed.

Lemma formHandle_kept (s : Store.state) (e : formEvent) (v : formView) :
  kept s v -> kept s (formHandle e v).
Proof.
  intros H. destruct e; simpl; try exact H.
  - unfold editObjectiveLine. destruct (nth_error _ _); [|exact H].
    destruct (str_eqb _ _); exact H.
  - unfold removeObjectiveLine. destruct (Nat.ltb _ _); exact H.
  - unfold applyBulkPaste. destruct (parseObjectivesText _); exact H.
  - unfold handleSubmit.
    destruct (_ || _); [exact H|]. destruct r; [exact H|].
    unfold kept. simpl. repeat split.
Qed.

Lemma formAfter_kept (evs : list formEvent) (s : Store.state) :
  kept s (formAfter evs s).
Proof.
  unfold formAfter.
  assert (H0 : kept s (mountForm s)) by reflexivity.
  revert H0. generalize (mountForm s).
  induction evs as [|e evs IH]; intros w Hw; simpl; auto.
  apply IH. now apply formHandle_kept.
Qed.

(** X26: the form writes to the store only when it moves on.  In every
    state the form reaches from its mount over a store, as long as it
    has pushed no route the store is exactly the one it was mounted
    over; the only route it ever pushes is [/objective-analysis], and
    once it has, the store holds a session and the phase objective
    analysis. *)
Theorem form_keeps_store_until_push :
  forall (s : Store.state) (evs : list formEvent),
    let v := formAfter evs s in
    match pushed v with
    | None => store v = s
    | Some p =>
        p = lit "/objective-analysis" /\
        hasActiveSession (store v) = true /\
        currentPhase (store v) = PhaseObjectiveAnalysis
    end.
Proof. intros s evs v. exact (formAfter_kept evs s). Qed.

End FormFlowFacts.

(* ================================================================== *)
(** * Properties of the header, the sidebar and the summary view *)
(* ================================================================== *)

Module NavigationFacts.
Import JS Store Api ContextForm FormFlow Navigation.
Import JSFacts StoreFacts ContextFormFacts FormFlowFacts.

Lemma numbered_lower {A} (l : list A) : forall k i x,
  In (i, x) (numbered k l) -> (k <= i)%Z.
Proof.
  induction l as [|y l IH]; intros k i x; simpl; [tauto|].
  intros [[= <- _]|H]; [lia|]. apply IH in H. lia.
Qed.

Lemma findIndexFrom_spec {A} (p : A -> bool) (l : list A) : forall k i,
  findIndexFrom p k l = i -> i <> (-1)%Z ->
  exists x, In (i, x) (numbered k l) /\ p x = true.
Proof.
  induction l as [|y l IH]; intros k i; simpl.
  - intros <- H. congruence.
  - destruct (p y) eqn:E.
    + intros <- _. exists y. auto.
    + intros H Hi. destruct (IH _ _ H Hi) as (x & Hx & Hp). exists x. auto.
Qed.

(** X27: the sidebar without a session.  When the store holds no
    session, a press on a button of the sidebar pushes a route only if
    the page shown is itself a step, and then only the route of that
    step or of an earlier one; on any other page every button is
    without effect. *)
Theorem sidebar_without_session :
  forall (s : Store.state) (path r : jsstring) (i : Z) (step : Step),
    hasActiveSession s = false ->
    In (i, step) buttons ->
    navigateToStep s path step i = Some r ->
    r = step_route step /\
    (i <= currentStepIndex path)%Z /\
    exists current, In (currentStepIndex path, current) buttons /\
                    step_route current = path.
Proof.
  intros s path r i step Hs Hin. unfold navigateToStep, isStepAccessible.
  rewrite Hs, orb_false_r.
  destruct (i <=? currentStepIndex path)%Z eqn:E; [|discriminate].
  intros [= <-]. apply Z.leb_le in E.
  pose proof (numbered_lower _ _ _ _ Hin) as Hi.
  split; [reflexivity|]. split; [exact E|].
  destruct (@findIndexFrom_spec _ (fun st => str_eqb (step_route st) path)
              steps 0%Z (currentStepIndex path) eq_refl) as (c & Hc & Hp);
    [lia|].
  exists c. split; [exact Hc | now apply str_eqb_eq].
Qed.

Lemma sidebar_without_session_witness :
  (0 <= currentStepIndex (lit "/objective-analysis"))%Z.
Proof.
  assert (Hs : hasActiveSession initial = false) by (vm_compute; reflexivity).
  assert (Hin : In (0%Z, {| step_key := lit "context";
                            step_name := lit "Course Context";
                            step_route := lit "/new-session" |}) buttons)
    by (left; reflexivity).
  assert (Hn : navigateToStep initial (lit "/objective-analysis")
                 {| step_key := lit "context";
                    step_name := lit "Course Context";
                    step_route := lit "/new-session" |} 0
               = Some (lit "/new-session")) by (vm_compute; reflexivity).
  destruct (@sidebar_without_session initial (lit "/objective-analysis")
              (lit "/new-session") 0 _ Hs Hin Hn) as (_ & H & _).
  exact H.
Defined.

Lemma formAfter_fresh (evs : list formEvent) (r : reply Session) :
  let v := formAfter evs initial in
  pushed v = None ->
  snd (handleSubmit r v) = None \/
  snd (handleSubmit r v) = Some (PostSession (payload (form v))).
Proof.
  intros v Hp. pose proof (formAfter_kept evs initial) as K. fold v in K.
  unfold kept in K. rewrite Hp in K.
  unfold handleSubmit. destruct (_ || _); [now left|]. right.
  simpl. unfold submitRequest. now rewrite K.
Qed.

(** X28: starting a new session.  Whatever the store held,
    [startNewSession] of the header or the summary view pushes
    [/new-session] and leaves a store without a session: the sidebar on
    that page then leads only to its first step, the form mounted there
    is blank and has no objective lines, and as long as the form has
    pushed no route a submit either issues no request or creates a
    session with a POST, never a PATCH. *)
Theorem startNewSession_is_fresh :
  forall s : Store.state,
    let out := startNewSession s in
    snd out = lit "/new-session" /\
    hasActiveSession (fst out) = false /\
    (forall (i : Z) (step : Step),
        In (i, step) buttons ->
        navigateToStep (fst out) (snd out) step i
        = if (i =? 0)%Z then Some (step_route step) else None) /\
    form (mountForm (fst out)) = emptyForm /\
    objectivesLines (mountForm (fst out)) = [] /\
    (forall (evs : list formEvent) (r : reply Session),
        let v := formAfter evs (fst out) in
        pushed v = None ->
        snd (handleSubmit r v) = None \/
        snd (handleSubmit r v) = Some (PostSession (payload (form v)))).
Proof.
  intros s out. unfold out, startNewSession. cbn [fst snd].
  assert (E : resetSession s = initial) by reflexivity. rewrite E.
  split; [reflexivity|]. split; [reflexivity|].
  split; [|split; [vm_compute; reflexivity|split; [vm_compute; reflexivity|]]].
  - intros i step Hin. unfold navigateToStep, isStepAccessible.
    replace (currentStepIndex (lit "/new-session")) with 0%Z
      by (vm_compute; reflexivity).
    replace (hasActiveSession initial) with false by reflexivity.
    rewrite orb_false_r.
    pose proof (numbered_lower _ _ _ _ Hin) as Hi.
    destruct (i =? 0)%Z eqn:E0.
    + apply Z.eqb_eq in E0. subst i. reflexivity.
    + apply Z.eqb_neq in E0.
      replace (i <=? 0)%Z with false by (symmetry; apply Z.leb_gt; lia).
      reflexivity.
  - intros evs r. apply formAfter_fresh.
Qed.

Lemma startNewSession_is_fresh_witness :
  navigateToStep (fst (startNewSession Reconciler.store7))
    (snd (startNewSession Reconciler.store7))
    {| step_key := lit "summary"; step_name := lit "Summary & Export";
       step_route := lit "/summary" |} 3
  = None.
Proof.
  destruct (@startNewSession_is_fresh Reconciler.store7) as (_ & _ & H & _).
  assert (Hin : In (3%Z, {| step_key := lit "summary";
                            step_name := lit "Summary & Export";
                            step_route := lit "/summary" |}) buttons)
    by (right; right; right; left; reflexivity).
  exact (H 3%Z _ Hin).
Defined.

(** ** The summary view *)

Lemma summaryHandle_rest {E} (e : summaryEvent) (v : summaryView E) :
  isExporting v = false ->
  (errorMessage v = [] \/ errorMessage v = exportFailed) ->
  let v' := fst (summaryHandle e v) in
  store v' = store v /\ isExporting v' = false /\
  isLoadingData v' = isLoadingData v /\ exportData v' = exportData v /\
  (errorMessage v' = [] \/ errorMessage v' = exportFailed).
Proof.
  intros H1 H2.
  destruct e as [now r|now r]; simpl;
    unfold handleExport, handleExportPdf;
    (destruct (Reconciler.truthy_num _); [|now repeat split]);
    simpl; repeat split; destruct r; auto.
Qed.

Lemma summaryHandle_name {E} (e : summaryEvent) (v : summaryView E)
    (sid : Z) (d : download) :
  sessionId (store v) = Some sid ->
  snd (summaryHandle e v) = Some d ->
  sid <> 0%Z /\
  exists rest,
    file_name d = lit "id-dss-session-" ++ numberToString sid ++ lit "-" ++ rest.
Proof.
  intros Hs.
  destruct e as [now r|now r]; simpl;
    unfold handleExport, handleExportPdf; rewrite Hs; simpl;
    (destruct (sid =? 0)%Z eqn:E0; simpl; [discriminate|]);
    apply Z.eqb_neq in E0;
    (destruct r as [x|blob]; simpl; [discriminate|]);
    intros [= <-]; (split; [exact E0|]); simpl; eexists; reflexivity.
Qed.

Lemma summaryRun_rest {E} (sid : Z) (evs : list summaryEvent) :
  forall (v : summaryView E) (saved : list download),
    sessionId (store v) = Some sid ->
    isExporting v = false ->
    (errorMessage v = [] \/ errorMessage v = exportFailed) ->
    Forall (fun d => exists rest,
              file_name d
              = lit "id-dss-session-" ++ numberToString sid ++ lit "-" ++ rest)
      saved ->
    let o := summaryRun evs v saved in
    store (fst o) = store v /\ isExporting (fst o) = false /\
    isLoadingData (fst o) = isLoadingData v /\
    exportData (fst o) = exportData v /\
    (errorMessage (fst o) = [] \/ errorMessage (fst o) = exportFailed) /\
    length (snd o) <= length saved + length evs /\
    Forall (fun d => exists rest,
              file_name d
              = lit "id-dss-session-" ++ numberToString sid ++ lit "-" ++ rest)
      (snd o).
Proof.
  induction evs as [|e evs IH]; intros v saved K1 K2 K3 K4; cbn [summaryRun].
  - cbn [fst snd length]. repeat split; auto. lia.
  - destruct (@summaryHandle_rest E e v K2 K3) as (L1 & L2 & L3 & L4 & L5).
    assert (K1' : sessionId (store (fst (summaryHandle e v))) = Some sid)
      by now rewrite L1.
    destruct (snd (summaryHandle e v)) as [d|] eqn:Ed.
    + destruct (@summaryHandle_name E e v sid d K1 Ed) as (_ & Hn).
      destruct (IH (fst (summaryHandle e v)) (d :: saved) K1' L2 L5
                  (Forall_cons _ Hn K4)) as (M1 & M2 & M3 & M4 & M5 & M6 & M7).
      cbn [length] in *. repeat split; try congruence; auto. lia.
    + destruct (IH (fst (summaryHandle e v)) saved K1' L2 L5 K4)
        as (M1 & M2 & M3 & M4 & M5 & M6 & M7).
      cbn [length] in *. repeat split; try congruence; auto. lia.
Qed.

(** X29: the summary view.  Mounted over a store that holds a session
    whose id is a safe integer, the view pushes no route, and after any
    sequence of export presses it has not written to the store, is
    neither exporting nor loading, shows either no error or the export
    error, and still holds the export data it loaded at mount; at most
    one file was saved per press, and the name of every file saved
    starts with [id-dss-session-], the decimal numeral of the id of the
    store's session, and a hyphen. *)
Theorem summary_exports :
  forall (E : Type) (r0 : reply E) (s : Store.state) (sid : Z)
         (evs : list summaryEvent),
    sessionId s = Some sid ->
    safeInteger sid ->
    let v0 := fst (mountSummary r0 s) in
    let out := summaryRun evs v0 [] in
    snd (mountSummary r0 s) = None /\
    store (fst out) = s /\
    isExporting (fst out) = false /\
    isLoadingData (fst out) = false /\
    exportData (fst out) = exportData v0 /\
    (errorMessage (fst out) = [] \/ errorMessage (fst out) = exportFailed) /\
    length (snd out) <= length evs /\
    Forall (fun d => exists id rest,
                file_name d = lit "id-dss-session-" ++ id ++ lit "-" ++ rest /\
                numeralValue id = Some sid)
      (snd out).
Proof.
  intros E r0 s sid evs Hs _ v0 out.
  assert (Hm : snd (mountSummary r0 s) = None /\ store v0 = s /\
               isExporting v0 = false /\ isLoadingData v0 = false /\
               errorMessage v0 = []).
  { unfold v0, mountSummary, hasActiveSession, loadExportData.
    rewrite Hs. cbn [fst snd store]. rewrite Hs.
    destruct (Reconciler.truthy_num (Some sid)); repeat split. }
  destruct Hm as (Hp & H1 & H2 & H3 & H4). split; [exact Hp|].
  assert (K1 : sessionId (store v0) = Some sid) by now rewrite H1.
  destruct (@summaryRun_rest E sid evs v0 [] K1 H2 (or_introl H4) (Forall_nil _))
    as (M1 & M2 & M3 & M4 & M5 & M6 & M7).
  fold out in M1, M2, M3, M4, M5, M6, M7. cbn [length] in M6.
  repeat split; try congruence; auto.
  eapply Forall_impl; [|exact M7]. intros d (rest & Hd).
  exists (numberToString sid), rest. split; [exact Hd|].
  apply ApiFacts.numeralValue_numberToString.
Qed.

Lemma summary_exports_witness :
  length
    (snd (summaryRun [ExportWord someDay (Resolved [80%N; 75%N]);
                      ExportPdf someDay (Rejected None)]
            (fst (mountSummary (@Rejected unit None) Reconciler.store7)) []))
  <= 2.
Proof.
  assert (Hs : sessionId Reconciler.store7 = Some 7%Z)
    by (vm_compute; reflexivity).
  assert (Hi : safeInteger 7) by (unfold safeInteger; lia).
  destruct (@summary_exports unit (Rejected None) Reconciler.store7 7%Z
              [ExportWord someDay (Resolved [80%N; 75%N]);
               ExportPdf someDay (Rejected None)] Hs Hi)
    as (_ & _ & _ & _ & _ & _ & H & _).
  exact H.
Defined.

End NavigationFacts.

(* ================================================================== *)
(** * Properties of the CNAME script *)
(* ================================================================== *)

Module CnameFacts.
Import JS Cname.
Import JSFacts.

(** X30: the CNAME script.  It stops with exit code 1, writing nothing,
    exactly when [CNAME_DOMAIN] is set to a non-empty string of white
    space only.  Otherwise it writes a domain followed by one line
    feed, where the domain is not empty and has no white space at
    either end: the trimmed value of the variable when that is set and
    not empty, and [tangyunxuan.com] when it is unset or empty. *)
Theorem writeCname_outcome :
  forall env : option jsstring,
    match writeCname env with
    | Exit code =>
        code = 1%Z /\
        exists d, env = Some d /\ d <> [] /\ trim d = []
    | Wrote content =>
        exists domain,
          content = domain ++ [LF] /\ domain <> [] /\
          startsWithSpace domain = false /\ endsWithSpace domain = false /\
          match env with
          | Some (c :: d) => domain = trim (c :: d)
          | _ => domain = defaultDomain
          end
    end.
Proof.
  intros env. unfold writeCname.
  assert (D : trim defaultDomain = defaultDomain) by (vm_compute; reflexivity).
  destruct env as [[|c d]|]; cbn [truthy].
  - rewrite D. exists defaultDomain. repeat split; discriminate.
  - destruct (trim (c :: d)) as [|x t] eqn:E; cbn [truthy].
    + split; [reflexivity|]. exists (c :: d). repeat split; [discriminate | exact E].
    + exists (x :: t). rewrite <- E. repeat split.
      * rewrite E. discriminate.
      * apply trim_head.
      * apply trim_tail.
  - rewrite D. exists defaultDomain. repeat split; discriminate.
Qed.

End CnameFacts.
